(** * loggo: the level-gated logging pipeline, embedded and verified

    A shallow embedding of the Go package [loggo]: the severity type
    ([Level]), the pooled message buffers ([getBuffer], [putBuffer]), the
    one-second timestamp cache ([getFormattedTime]), the fan-out writer
    ([write]), the hook registry ([AddHook], [removeHook]), the asynchronous
    dispatch job ([executeHooks]), the worker pool ([submit], [stop]), the
    message builder ([newEvent], [msgf], [msg]) and the shutdown ([Close]).

    Conventions of the embedding.
    - Go's [int] is a 64-bit two's complement integer: a [Z] with the
      wrap-around written out ([wrap]).
    - Go strings and byte slices are [string]s; [len] is the byte length.
    - The logger struct is the record [Logger]; everything outside it (the
      heap holding the pooled slices, the wall clock, standard error, the
      destinations, the package-level [exitFunc] and [panicFunc]) is the
      record [World].  A function of the source that mutates the logger or
      performs an effect takes and returns the pair of both.
    - What the program does to the outside is recorded, in order, as a list
      of [Effect]s.
    - Functions of the Go standard library whose result depends on the
      runtime ([fmt.Sprintf], [strconv.AppendFloat], slice growth, the
      partitioning phase of [slices.SortFunc]) are the fields of the class
      [GoLib]; general theorems hold for every instance, and the concrete
      runs use the instance [fragment]. *)

From Stdlib Require Import ZArith List Bool Lia Ascii String HexadecimalString
  Sorted.
From stdpp Require Import prelude strings pretty gmap sorting.

Open Scope Z_scope.

(** ** Machine integers *)

(** Go's [int] on a 64-bit platform. *)
Definition wrap (z : Z) : Z := (z + 2 ^ 63) mod 2 ^ 64 - 2 ^ 63.

Definition int_sub (a b : Z) : Z := wrap (a - b).
Definition int_mul (a b : Z) : Z := wrap (a * b).

Definition MaxInt : Z := 2 ^ 63 - 1.
Definition MinInt : Z := - 2 ^ 63.

(** [len] of a Go string or byte slice. *)
Definition len (s : string) : Z := Z.of_nat (String.length s).

(** ** Levels *)

(** [type Level int], with the constants declared by [iota]. *)
Definition Level := Z.

Definition DEBUG : Level := 0.
Definition INFO : Level := 1.
Definition WARN : Level := 2.
Definition ERROR : Level := 3.
Definition CRITICAL : Level := 4.
Definition FATAL : Level := 5.
Definition PANIC : Level := 6.

(** Colour codes; [esc] is the byte 033. *)
Definition esc : string := String (Ascii.ascii_of_nat 27) EmptyString.

Definition colorReset : string := esc +:+ "[0m".
Definition colorRed : string := esc +:+ "[31m".
Definition colorGreen : string := esc +:+ "[32m".
Definition colorYellow : string := esc +:+ "[33m".
Definition colorBlue : string := esc +:+ "[34m".
Definition colorPurple : string := esc +:+ "[35m".
Definition colorCyan : string := esc +:+ "[36m".

(** A Go [map[Level]string] literal: an association list read by key. *)
Fixpoint map_lookup (m : list (Level * string)) (k : Level) : option string :=
  match m with
  | [] => None
  | (k', v) :: m' => if k' =? k then Some v else map_lookup m' k
  end.

Definition levelColors_table : list (Level * string) :=
  [ (DEBUG, colorCyan); (INFO, colorGreen); (WARN, colorYellow);
    (ERROR, colorRed); (CRITICAL, colorRed); (FATAL, colorRed);
    (PANIC, colorRed) ].

Definition paddedLevelStrings : list (Level * string) :=
  [ (DEBUG, "[DEBUG]"); (INFO, "[INFO] "); (WARN, "[WARN] ");
    (ERROR, "[ERROR]"); (CRITICAL, "[CRIT] "); (FATAL, "[FATAL]");
    (PANIC, "[PANIC]") ].

(** [levelColors[l]]: indexing a map yields the zero value, the empty string,
    for a missing key. *)
Definition levelColors (l : Level) : string :=
  default "" (map_lookup levelColors_table l).

Module Level_.

(** [func (l Level) String() string] *)
Definition String (l : Level) : string :=
  if l =? DEBUG then "DEBUG"
  else if l =? INFO then "INFO"
  else if l =? WARN then "WARN"
  else if l =? ERROR then "ERROR"
  else if l =? CRITICAL then "CRIT"
  else if l =? FATAL then "FATAL"
  else if l =? PANIC then "PANIC"
  else "UNKNOWN".

(** [func (l Level) PaddedString() string]: the comma-ok lookup. *)
Definition PaddedString (l : Level) : string :=
  match map_lookup paddedLevelStrings l with
  | Some padded => padded
  | None => "[UNKNOWN]"
  end.

End Level_.

(** ** Arguments of a formatted call *)

(** The dynamic values a caller passes in [args ...any], by the cases of the
    type switch in [msgf]: [string], [int], [int64], [float64], [error]
    (kept as the text its [Error] method returns), and every other type. *)
Inductive any (F O : Type) : Type :=
  | AString (s : string)
  | AInt (n : Z)
  | AInt64 (n : Z)
  | AFloat64 (v : F)
  | AError (msg : string)
  | AOther (v : O).

Arguments AString {F O} s.
Arguments AInt {F O} n.
Arguments AInt64 {F O} n.
Arguments AFloat64 {F O} v.
Arguments AError {F O} msg.
Arguments AOther {F O} v.

(** ** The Go library, as far as the logger depends on it *)

Class GoLib : Type := {
  (** the values of type [float64] *)
  float64 : Type;
  (** the values of every type the type switch does not name *)
  other : Type;
  (** [fmt.Sprintf(format, args...)] *)
  Sprintf : string -> list (any float64 other) -> string;
  (** [strconv.FormatFloat(v, 'f', -1, 64)] *)
  FormatFloat : float64 -> string;
  (** the capacity [append] chooses when [needed] bytes do not fit in [old] *)
  growslice : forall (old needed : Z), Z;
  (** [slices.SortFunc] on more than twelve elements (pattern-defeating
      quicksort); up to twelve it is the insertion sort written out below *)
  pdqsortCmpFunc : forall (E : Type), (E -> E -> Z) -> list E -> list E
}.

Definition arg `{GoLib} : Type := any float64 other.

(** [strconv.AppendInt(dst, v, 10)] appends the decimal text of [v]. *)
Definition FormatInt (v : Z) : string := pretty v.

(** ** A computable fragment of the library

    [fmt.Sprintf] restricted to the verbs [%v], [%s], [%d] and the escape
    [%%], without flags, width or precision, on strings, integers, errors
    and booleans (the one "other" type of the fragment).  The fragment has
    no [float64] values.  A directive outside it makes [Sprintf_frag] answer
    [None]. *)
Module Fragment.

Definition value : Type := any Empty_set bool.

Definition typeName (a : value) : option string :=
  match a with
  | AString _ => Some "string"
  | AInt _ => Some "int"
  | AInt64 _ => Some "int64"
  | AOther _ => Some "bool"
  | AFloat64 _ | AError _ => None
  end.

(** the operand as [%v] prints it *)
Definition plain (a : value) : string :=
  match a with
  | AString s => s
  | AInt n | AInt64 n => FormatInt n
  | AFloat64 v => match v with end
  | AError msg => msg
  | AOther b => if b then "true" else "false"
  end.

Definition is_verb (c : Ascii.ascii) : bool :=
  bool_decide (c = "v"%char) || bool_decide (c = "s"%char)
  || bool_decide (c = "d"%char).

(** does the verb apply to the operand? *)
Definition accepts (c : Ascii.ascii) (a : value) : bool :=
  match a with
  | AString _ | AError _ =>
      bool_decide (c = "v"%char) || bool_decide (c = "s"%char)
  | AInt _ | AInt64 _ =>
      bool_decide (c = "v"%char) || bool_decide (c = "d"%char)
  | AFloat64 _ => false
  | AOther _ => bool_decide (c = "v"%char)
  end.

(** [%!verb(type=value)], what [fmt] prints for a verb the operand does
    not support *)
Definition badVerb (c : Ascii.ascii) (a : value) : option string :=
  ty ← typeName a;
  Some ("%!" +:+ String c ("(" +:+ ty +:+ "=" +:+ plain a +:+ ")")).

Definition printArg (c : Ascii.ascii) (a : value) : option string :=
  if accepts c a then Some (plain a) else badVerb c a.

Fixpoint extraList (args : list value) : option string :=
  match args with
  | [] => Some ""
  | a :: rest =>
      ty ← typeName a;
      r ← extraList rest;
      Some (ty +:+ "=" +:+ plain a +:+
            (match rest with [] => "" | _ => ", " end) +:+ r)
  end.

(** operands left over once the format is consumed *)
Definition extra (args : list value) : option string :=
  match args with
  | [] => Some ""
  | _ => r ← extraList args; Some ("%!(EXTRA " +:+ r +:+ ")")
  end.

Fixpoint Sprintf_frag (format : string) (args : list value) : option string :=
  match format with
  | EmptyString => extra args
  | String c rest =>
      if bool_decide (c = "%"%char) then
        match rest with
        | EmptyString => r ← extra args; Some ("%!(NOVERB)" +:+ r)
        | String v rest' =>
            if bool_decide (v = "%"%char) then
              r ← Sprintf_frag rest' args; Some (String "%"%char r)
            else if is_verb v then
              match args with
              | [] =>
                  r ← Sprintf_frag rest' [];
                  Some ("%!" +:+ String v "(MISSING)" +:+ r)
              | a :: args' =>
                  t ← printArg v a;
                  r ← Sprintf_frag rest' args';
                  Some (t +:+ r)
              end
            else None
        end
      else r ← Sprintf_frag rest args; Some (String c r)
  end.

(** A growth policy for [append]: at least the needed length, at least
    double the old capacity.  Go's own policy is of this kind, with a
    rounding to allocation size classes that depends on the runtime. *)
Definition grow (old needed : Z) : Z := Z.max needed (2 * old).

End Fragment.

(** [slices.SortFunc] on at most twelve elements: [insertionSortCmpFunc].
    [insertionStep data j] is the inner loop started at index [j]: the
    element moves left while it compares below its left neighbour. *)
Fixpoint insertionStep {E : Type} (cmp : E -> E -> Z) (data : list E) (j : nat)
  : list E :=
  match j with
  | O => data
  | S j' =>
      match data !! j, data !! j' with
      | Some x, Some y =>
          if cmp x y <? 0
          then insertionStep cmp (<[j' := x]> (<[j := y]> data)) j'
          else data
      | _, _ => data
      end
  end.

(** the outer loop, [for i := a + 1; i < b; i++], with [a = 0], [b = len] *)
Definition insertionSortCmpFunc {E : Type} (cmp : E -> E -> Z) (data : list E)
  : list E :=
  foldl (insertionStep cmp) data (seq 1 (length data - 1)).

Definition maxInsertion : nat := 12.

Definition SortFunc `{GoLib} {E : Type} (cmp : E -> E -> Z) (x : list E)
  : list E :=
  if (length x <=? maxInsertion)%nat
  then insertionSortCmpFunc cmp x
  else pdqsortCmpFunc E cmp x.

(** The instance used for the concrete runs.  None of them sorts more than
    twelve elements; beyond that the instance keeps sorting by insertion. *)
#[global] Instance fragment : GoLib := {
  float64 := Empty_set;
  other := bool;
  Sprintf := fun format args => default "" (Fragment.Sprintf_frag format args);
  FormatFloat := fun v => match v with end;
  growslice := Fragment.grow;
  pdqsortCmpFunc := fun E cmp x => insertionSortCmpFunc cmp x
}.

(** ** The world outside the logger *)

(** A byte slice: its capacity and its content ([len] is the content's
    length).  A [*[]byte] is an address in the heap of slices. *)
Record Slice : Type := mkSlice { cap : Z; bytes : string }.

(** A [time.Time] value, by the two methods the logger calls on it. *)
Record Instant : Type := mkInstant { Unix : Z; Format : string -> string }.

(** What a run does to the outside, in the order it happens. *)
Inductive Effect : Type :=
  | EOutput (data : string)              (* [l.output.write(data)] is entered *)
  | EWrite (dst : nat) (data : string)   (* [writer.Write(data)] on [dst] *)
  | EStderr (text : string)              (* [fmt.Fprintf(os.Stderr, ...)] *)
  | EInvoke (id : string) (level : Level) (msg : string)
                                         (* [hook.fn(level, msg)] *)
  | EWaited                              (* [l.wg.Wait()] returned *)
  | EStopped                             (* [l.workerPool.stop()] returned *)
  | EExit (code : Z)                     (* [exitFunc(code)] *)
  | EPanic (v : string).                 (* [panicFunc(v)] *)

(** The package-level [exitFunc]: [os.Exit], or an override installed by
    [SetExitFunc] that returns to its caller. *)
Inductive ExitFunc : Type := os_Exit | exit_returns.

(** The package-level [panicFunc]: the built-in [panic], or an override
    installed by [SetPanicFunc] that returns to its caller. *)
Inductive PanicFunc : Type := go_panic | panic_returns.

Record World : Type := mkWorld {
  heap : gmap nat Slice;        (* the slices allocated so far, by address *)
  allocated : nat;              (* the next free address *)
  clock : nat -> Instant;       (* the successive readings of [time.Now()] *)
  ticks : nat;                  (* how many readings were taken *)
  effects : list Effect;
  exitFunc : ExitFunc;
  panicFunc : PanicFunc
}.

Definition set_heap (h : gmap nat Slice) (n : nat) (w : World) : World :=
  mkWorld h n (clock w) (ticks w) (effects w) (exitFunc w) (panicFunc w).
Definition set_ticks (n : nat) (w : World) : World :=
  mkWorld (heap w) (allocated w) (clock w) n (effects w) (exitFunc w)
    (panicFunc w).
Definition emit (e : list Effect) (w : World) : World :=
  mkWorld (heap w) (allocated w) (clock w) (ticks w) (effects w ++ e)
    (exitFunc w) (panicFunc w).

(** [SetExitFunc] and [SetPanicFunc] *)
Definition SetExitFunc (fn : ExitFunc) (w : World) : World :=
  mkWorld (heap w) (allocated w) (clock w) (ticks w) (effects w) fn
    (panicFunc w).
Definition SetPanicFunc (fn : PanicFunc) (w : World) : World :=
  mkWorld (heap w) (allocated w) (clock w) (ticks w) (effects w) (exitFunc w)
    fn.

(** [*p] and [*p = s] *)
Definition deref (w : World) (p : nat) : Slice :=
  default (mkSlice 0 "") (heap w !! p).
Definition store (p : nat) (s : Slice) (w : World) : World :=
  set_heap (<[p := s]> (heap w)) (allocated w) w.

(** [buf := make([]byte, 0, n)], answering [&buf] *)
Definition make (n : Z) (w : World) : nat * World :=
  (allocated w,
   set_heap (<[allocated w := mkSlice n ""]> (heap w)) (S (allocated w)) w).

(** [time.Now()] *)
Definition Now (w : World) : Instant * World :=
  (clock w (ticks w), set_ticks (S (ticks w)) w).

(** [append(s, data...)] *)
Definition append `{GoLib} (s : Slice) (data : string) : Slice :=
  let n := len (bytes s) + len data in
  mkSlice (if n <=? cap s then cap s else growslice (cap s) n)
          (bytes s +:+ data).

(** ** The logger *)

(** A func value handed to [AddHook]: the address of its code and what a
    call answers ([None] for a nil error, [Some e] for the error whose text
    is [e]).  Closures made from one function literal share the code
    address. *)
Record Func : Type := mkFunc {
  code : N;
  call : Level -> string -> option string
}.

(** [fmt.Sprintf("%p", hook)]: for a func value [%p] prints the address of
    the code. *)
Definition pointerText (f : Func) : string :=
  "0x" +:+ HexadecimalString.NilZero.string_of_uint (N.to_hex_uint (code f)).

Record Hook : Type := mkHook {
  fn : Level -> string -> option string;
  priority : Z;
  id : string
}.

(** The closure [executeHooks] submits; it captures the level and the
    message (and the logger, which it reads when it runs). *)
Record Job : Type := mkJob { job_level : Level; job_msg : string }.

(** The worker pool: the jobs sent on the channel and not yet run, and
    whether [stop] has closed the channels.  Workers keep receiving while
    the pool runs, so the channel's bound only delays [submit]. *)
Record WorkerPool : Type := mkPool { jobs : list Job; stopped : bool }.

Record Logger : Type := mkLogger {
  level : Level;
  output : list nat;                 (* [multiWriter.writers] *)
  timeFormat : string;
  hooks : list Hook;
  wg : nat;                          (* the counter of the [sync.WaitGroup] *)
  maxHooks : Z;
  bufSize : Z;
  pool : list nat;                   (* the buffers put back in [sync.Pool] *)
  timeCache : list (Z * string);
  workerPool : WorkerPool;
  maxCacheSize : Z;
  cleanupInProgress : bool;
  lastCleanup : Z;
  bufPool : list nat;
  timeKey : Z;
  timeValue : string
}.

Definition set_level (v : Level) (l : Logger) : Logger :=
  mkLogger v (output l) (timeFormat l) (hooks l) (wg l) (maxHooks l)
    (bufSize l) (pool l) (timeCache l) (workerPool l) (maxCacheSize l)
    (cleanupInProgress l) (lastCleanup l) (bufPool l) (timeKey l)
    (timeValue l).
Definition set_output (v : list nat) (l : Logger) : Logger :=
  mkLogger (level l) v (timeFormat l) (hooks l) (wg l) (maxHooks l)
    (bufSize l) (pool l) (timeCache l) (workerPool l) (maxCacheSize l)
    (cleanupInProgress l) (lastCleanup l) (bufPool l) (timeKey l)
    (timeValue l).
Definition set_timeFormat (v : string) (l : Logger) : Logger :=
  mkLogger (level l) (output l) v (hooks l) (wg l) (maxHooks l)
    (bufSize l) (pool l) (timeCache l) (workerPool l) (maxCacheSize l)
    (cleanupInProgress l) (lastCleanup l) (bufPool l) (timeKey l)
    (timeValue l).
Definition set_hooks (v : list Hook) (l : Logger) : Logger :=
  mkLogger (level l) (output l) (timeFormat l) v (wg l) (maxHooks l)
    (bufSize l) (pool l) (timeCache l) (workerPool l) (maxCacheSize l)
    (cleanupInProgress l) (lastCleanup l) (bufPool l) (timeKey l)
    (timeValue l).
Definition set_wg (v : nat) (l : Logger) : Logger :=
  mkLogger (level l) (output l) (timeFormat l) (hooks l) v (maxHooks l)
    (bufSize l) (pool l) (timeCache l) (workerPool l) (maxCacheSize l)
    (cleanupInProgress l) (lastCleanup l) (bufPool l) (timeKey l)
    (timeValue l).
Definition set_pool (v : list nat) (l : Logger) : Logger :=
  mkLogger (level l) (output l) (timeFormat l) (hooks l) (wg l) (maxHooks l)
    (bufSize l) v (timeCache l) (workerPool l) (maxCacheSize l)
    (cleanupInProgress l) (lastCleanup l) (bufPool l) (timeKey l)
    (timeValue l).
Definition set_timeCache (v : list (Z * string)) (l : Logger) : Logger :=
  mkLogger (level l) (output l) (timeFormat l) (hooks l) (wg l) (maxHooks l)
    (bufSize l) (pool l) v (workerPool l) (maxCacheSize l)
    (cleanupInProgress l) (lastCleanup l) (bufPool l) (timeKey l)
    (timeValue l).
Definition set_workerPool (v : WorkerPool) (l : Logger) : Logger :=
  mkLogger (level l) (output l) (timeFormat l) (hooks l) (wg l) (maxHooks l)
    (bufSize l) (pool l) (timeCache l) v (maxCacheSize l)
    (cleanupInProgress l) (lastCleanup l) (bufPool l) (timeKey l)
    (timeValue l).
Definition set_cleanupInProgress (v : bool) (l : Logger) : Logger :=
  mkLogger (level l) (output l) (timeFormat l) (hooks l) (wg l) (maxHooks l)
    (bufSize l) (pool l) (timeCache l) (workerPool l) (maxCacheSize l)
    v (lastCleanup l) (bufPool l) (timeKey l) (timeValue l).
Definition set_lastCleanup (v : Z) (l : Logger) : Logger :=
  mkLogger (level l) (output l) (timeFormat l) (hooks l) (wg l) (maxHooks l)
    (bufSize l) (pool l) (timeCache l) (workerPool l) (maxCacheSize l)
    (cleanupInProgress l) v (bufPool l) (timeKey l) (timeValue l).
Definition set_timeKey (v : Z) (l : Logger) : Logger :=
  mkLogger (level l) (output l) (timeFormat l) (hooks l) (wg l) (maxHooks l)
    (bufSize l) (pool l) (timeCache l) (workerPool l) (maxCacheSize l)
    (cleanupInProgress l) (lastCleanup l) (bufPool l) v (timeValue l).
Definition set_timeValue (v : string) (l : Logger) : Logger :=
  mkLogger (level l) (output l) (timeFormat l) (hooks l) (wg l) (maxHooks l)
    (bufSize l) (pool l) (timeCache l) (workerPool l) (maxCacheSize l)
    (cleanupInProgress l) (lastCleanup l) (bufPool l) (timeKey l) v.

(** The logger together with the world it runs in. *)
Definition State : Type := Logger * World.

(** The destination [os.Stdout]. *)
Definition Stdout : nat := 1%nat.

(** [New()]: the worker pool starts running with an empty queue, the pools
    of buffers start empty (their [New] functions allocate on demand). *)
Definition New : Logger :=
  mkLogger INFO [Stdout] "2006-01-02 15:04:05.000 MST" [] 0%nat 100 1024
    [] [] (mkPool [] false) 1000 false 0 [] 0 "".

(** [SetLevel], [SetOutputs], [SetOutput], [SetTimeFormat] *)
Definition SetLevel (lv : Level) (l : Logger) : Logger := set_level lv l.
Definition SetOutputs (outputs : list nat) (l : Logger) : Logger :=
  match outputs with
  | [] => set_output [Stdout] l
  | _ => set_output outputs l
  end.
Definition SetOutput (out : nat) (l : Logger) : Logger := set_output [out] l.
Definition SetTimeFormat (format : string) (l : Logger) : Logger :=
  set_timeFormat format l.

(** ** Buffers *)

(** [l.pool.Get()]: a buffer put back earlier, or a new one of capacity
    [bufSize] from the pool's [New] function. *)
Definition pool_Get (st : State) : nat * State :=
  let '(l, w) := st in
  match pool l with
  | p :: rest => (p, (set_pool rest l, w))
  | [] => let '(p, w') := make (bufSize l) w in (p, (l, w'))
  end.

(** [func (l *Logger) getBuffer(size int)], answering the buffer's address *)
Definition getBuffer (size : Z) (st : State) : nat * State :=
  let '(l, w) := st in
  if int_mul (bufSize l) 4 <? size then
    let '(buf, w') := make size w in (buf, (l, w'))
  else
    let '(buf, (l', w')) := pool_Get st in
    (buf, (l', store buf (mkSlice (cap (deref w' buf)) "") w')).

(** [func (l *Logger) putBuffer(buf)]; [None] is the nil pointer. *)
Definition putBuffer (buf : option nat) (st : State) : State :=
  let '(l, w) := st in
  match buf with
  | None => st
  | Some p =>
      if int_mul (bufSize l) 4 <? cap (deref w p) then st
      else (set_pool (p :: pool l) l, w)
  end.

(** ** The timestamp cache *)

(** [func (l *Logger) cleanupTimeCache()] *)
Definition cleanupTimeCache (st : State) : State :=
  let '(l, w) := st in
  if cleanupInProgress l then st
  else
    let '(t, w1) := Now w in
    let now := Unix t in
    if int_sub now (lastCleanup l) <? 60 then (l, w1)
    else
      let l1 := set_cleanupInProgress true l in
      let keep := fun kv : Z * string => negb (fst kv <? int_sub now 3600) in
      let l2 := set_timeCache (List.filter keep (timeCache l1)) l1 in
      (set_lastCleanup now (set_cleanupInProgress false l2), w1).

(** [func (l *Logger) getFormattedTime() string] *)
Definition getFormattedTime (st : State) : string * State :=
  let '(l, w) := st in
  let '(now, w1) := Now w in
  let key := Unix now in
  if key =? timeKey l then (timeValue l, (l, w1))
  else
    let formatted := Format now (timeFormat l) in
    let l1 := set_timeValue formatted (set_timeKey key l) in
    (formatted, cleanupTimeCache (l1, w1)).

(** ** The fan-out writer *)

(** [func (w *multiWriter) write(data []byte)] *)
Definition write (writers : list nat) (data : string) (w : World) : World :=
  emit (EOutput data :: map (fun writer => EWrite writer data) writers) w.

(** ** Hooks *)

(** [func (l *Logger) AddHook(hook, priority) error]; the answer is the
    error's text, [None] for nil. *)
Definition AddHook `{GoLib} (hook : Func) (prio : Z) (l : Logger)
  : option string * Logger :=
  if maxHooks l <=? Z.of_nat (length (hooks l)) then
    (Some (Sprintf "maximum number of hooks (%d) reached" [AInt (maxHooks l)]),
     l)
  else
    (None,
     set_hooks (hooks l ++ [mkHook (call hook) prio (pointerText hook)]) l).

(** the loop of [removeHook]: delete the first record whose id matches *)
Fixpoint deleteFirst (i : string) (hs : list Hook) : list Hook :=
  match hs with
  | [] => []
  | h :: rest => if String.eqb (id h) i then rest else h :: deleteFirst i rest
  end.

(** [func (l *Logger) removeHook(id string)] *)
Definition removeHook (i : string) (l : Logger) : Logger :=
  set_hooks (deleteFirst i (hooks l)) l.

Definition newline : string := String (Ascii.ascii_of_nat 10) EmptyString.

(** one iteration of the loop over the sorted snapshot *)
Definition runHook (lv : Level) (msg : string) (st : State) (hook : Hook)
  : State :=
  let '(l, w) := st in
  let w1 := emit [EInvoke (id hook) lv msg] w in
  match fn hook lv msg with
  | None => (l, w1)
  | Some err =>
      (removeHook (id hook) l,
       emit [EStderr ("Hook error: " +:+ err +:+ newline)] w1)
  end.

(** the comparison handed to [slices.SortFunc] *)
Definition byPriority (a b : Hook) : Z := int_sub (priority b) (priority a).

(** The closure submitted by [executeHooks], run by a worker: snapshot,
    sort, call in order, and the deferred [l.wg.Done()]. *)
Definition runJob `{GoLib} (j : Job) (st : State) : State :=
  let '(l, w) := st in
  let snapshot := SortFunc byPriority (hooks l) in
  let '(l', w') := foldl (runHook (job_level j) (job_msg j)) (l, w) snapshot in
  (set_wg (Nat.pred (wg l')) l', w').

(** ** The worker pool *)

(** [func (p *workerPool) stop()] *)
Definition stop (p : WorkerPool) : WorkerPool :=
  if stopped p then p else mkPool (jobs p) true.

(** [func (p *workerPool) submit(job func())] *)
Definition submit (job : Job) (p : WorkerPool) : WorkerPool :=
  if stopped p then p else mkPool (jobs p ++ [job]) (stopped p).

(** The workers of a running pool receive the queued jobs and run them;
    the workers of a stopped pool have returned. *)
Definition runWorkers `{GoLib} (st : State) : State :=
  let '(l, w) := st in
  if stopped (workerPool l) then st
  else
    foldl (fun s j => runJob j s)
          (set_workerPool (mkPool [] false) l, w)
          (jobs (workerPool l)).

(** [l.wg.Wait()]: the caller sleeps until the counter is zero.  The workers
    run meanwhile; the call returns ([true]) when that brings the counter
    to zero and never returns ([false]) otherwise. *)
Definition Wait `{GoLib} (st : State) : bool * State :=
  let '(l, w) := runWorkers st in
  if (wg l =? 0)%nat then (true, (l, emit [EWaited] w)) else (false, (l, w)).

(** [func (l *Logger) executeHooks(level Level, msg string)] *)
Definition executeHooks (lv : Level) (msg : string) (l : Logger) : Logger :=
  let l1 := set_wg (S (wg l)) l in
  set_workerPool (submit (mkJob lv msg) (workerPool l1)) l1.

(** ** The message builder *)

(** [type event struct]: the level and the address of the leased buffer
    (the logger it points back to is the one of the state). *)
Record event : Type := mkEvent { ev_level : Level; buf : nat }.

(** [func (l *Logger) newEvent(level Level) *event]; [None] is nil. *)
Definition newEvent (lv : Level) (st : State) : option event * State :=
  let '(l, w) := st in
  if lv <? level l then (None, st)
  else
    let '(b, st') := getBuffer (bufSize l) st in
    (Some (mkEvent lv b), st').

(** How a call ends: it returns, the process exits, a panic leaves the
    call, or the caller sleeps for ever. *)
Inductive Outcome : Type :=
  | Returns (st : State)
  | Exits (c : Z) (st : State)
  | Panics (v : string) (st : State)
  | Blocks (st : State).

Definition andThen (o : Outcome) (k : State -> Outcome) : Outcome :=
  match o with
  | Returns st => k st
  | _ => o
  end.

Definition final (o : Outcome) : State :=
  match o with
  | Returns st | Exits _ st | Panics _ st | Blocks st => st
  end.

(** the text written before the message body,
    [fmt.Appendf(buf, "%s%s%s %s: ", colour, padded, colorReset, timestamp)] *)
Definition header (lv : Level) (timestamp : string) : string :=
  levelColors lv +:+ Level_.PaddedString lv +:+ colorReset +:+ " "
  +:+ timestamp +:+ ": ".

(** the message body: the three formatting paths of [msgf] *)
Definition body `{GoLib} (format : string) (args : list arg) : string :=
  match args with
  | [] => format
  | [a] =>
      match a with
      | AString v => v
      | AInt v => FormatInt v
      | AInt64 v => FormatInt v
      | AFloat64 v => FormatFloat v
      | AError msg => msg
      | AOther _ => Sprintf format args
      end
  | _ => Sprintf format args
  end.

(** [if e.level == FATAL { wg.Wait(); workerPool.stop(); exitFunc(1) }] *)
Definition fatalBranch `{GoLib} (lv : Level) (st : State) : Outcome :=
  if lv =? FATAL then
    match Wait st with
    | (false, st1) => Blocks st1
    | (true, (l1, w1)) =>
        let l2 := set_workerPool (stop (workerPool l1)) l1 in
        let w2 := emit [EStopped; EExit 1] w1 in
        match exitFunc w2 with
        | os_Exit => Exits 1 (l2, w2)
        | exit_returns => Returns (l2, w2)
        end
    end
  else Returns st.

(** [if e.level == PANIC { message := Sprintf(...); wg.Wait();
    workerPool.stop(); panicFunc(message) }] *)
Definition panicBranch `{GoLib} (lv : Level) (format : string)
  (args : list arg) (st : State) : Outcome :=
  if lv =? PANIC then
    let message := Sprintf format args in
    match Wait st with
    | (false, st1) => Blocks st1
    | (true, (l1, w1)) =>
        let l2 := set_workerPool (stop (workerPool l1)) l1 in
        let w2 := emit [EStopped; EPanic message] w1 in
        match panicFunc w2 with
        | go_panic => Panics message (l2, w2)
        | panic_returns => Returns (l2, w2)
        end
    end
  else Returns st.

(** The buffer [msgf] formats into: the leased one, or, when the estimate
    exceeds its capacity, one from [getBuffer] that receives the content. *)
Definition resize `{GoLib} (e : event) (estimatedSize : Z) (st : State)
  : event * State :=
  let '(l, w) := st in
  if cap (deref w (buf e)) <? estimatedSize then
    let '(newBuf, (l', w')) := getBuffer estimatedSize st in
    let w'' := store newBuf (append (deref w' newBuf) (bytes (deref w' (buf e)))) w' in
    (mkEvent (ev_level e) newBuf, (l', w''))
  else (e, st).

Definition estimate (lv : Level) (timestamp format : string) : Z :=
  len (levelColors lv) + len (Level_.PaddedString lv) + len colorReset
  + len timestamp + 2 + len format + 1.

(** [if len(e.logger.hooks) > 0 { message := fmt.Sprintf(format, args...);
    e.logger.executeHooks(e.level, message) }] *)
Definition dispatch `{GoLib} (lv : Level) (format : string) (args : list arg)
  (l : Logger) : Logger :=
  match hooks l with
  | [] => l
  | _ => executeHooks lv (Sprintf format args) l
  end.

(** The statements of [msgf] between the [defer] and the exit. *)
Definition msgf_body `{GoLib} (e : event) (format : string) (args : list arg)
  (st : State) : event * Outcome :=
  let '(timestamp, st1) := getFormattedTime st in
  let estimatedSize := estimate (ev_level e) timestamp format in
  let '(e1, (l2, w2)) := resize e estimatedSize st1 in
  let b := buf e1 in
  let w3 := store b (append (deref w2 b) (header (ev_level e1) timestamp)) w2 in
  let w4 := store b (append (deref w3 b) (body format args)) w3 in
  let w5 := store b (append (deref w4 b) newline) w4 in
  let w6 := write (output l2) (bytes (deref w5 b)) w5 in
  let l3 := dispatch (ev_level e1) format args l2 in
  (e1,
   andThen (fatalBranch (ev_level e1) (l3, w6))
           (panicBranch (ev_level e1) format args)).

(** [func (e *event) msgf(format string, args ...any)].  The operand of
    [defer e.logger.putBuffer(e.buf)] is evaluated when the [defer]
    statement runs; the call itself runs when [msgf] returns or panics, and
    not when the process exits or the goroutine sleeps for ever. *)
Definition msgf `{GoLib} (e : option event) (format : string)
  (args : list arg) (st : State) : Outcome :=
  match e with
  | None => Returns st
  | Some e0 =>
      let deferred := Some (buf e0) in
      match snd (msgf_body e0 format args st) with
      | Returns st' => Returns (putBuffer deferred st')
      | Panics v st' => Panics v (putBuffer deferred st')
      | Exits c st' => Exits c st'
      | Blocks st' => Blocks st'
      end
  end.

(** The buffer the builder holds when [msgf] leaves it. *)
Definition held `{GoLib} (e : event) (format : string) (args : list arg)
  (st : State) : nat :=
  buf (fst (msgf_body e format args st)).

(** the emission methods, [l.<level>Event().msgf(msg, args...)] *)
Definition logAt `{GoLib} (lv : Level) (msg : string) (args : list arg)
  (st : State) : Outcome :=
  let '(e, st') := newEvent lv st in
  msgf e msg args st'.

Definition Debug `{GoLib} := logAt DEBUG.
Definition Info `{GoLib} := logAt INFO.
Definition Warn `{GoLib} := logAt WARN.
Definition Error `{GoLib} := logAt ERROR.
Definition Critical `{GoLib} := logAt CRITICAL.
Definition Fatal `{GoLib} := logAt FATAL.
Definition Panic `{GoLib} := logAt PANIC.

(** [func (l *Logger) Close()]: stop the pool, wait for the hooks, clear
    them. *)
Definition Close `{GoLib} (st : State) : Outcome :=
  let '(l, w) := st in
  let l1 := set_workerPool (stop (workerPool l)) l in
  match Wait (l1, w) with
  | (false, st1) => Blocks st1
  | (true, (l2, w2)) => Returns (set_hooks [] l2, w2)
  end.

(** ** Concrete inputs for the runs *)

(** A reading of the clock, 14 November 2023 22:13:20 UTC, as the default
    layout prints it (the runs below keep that layout). *)
Definition reading : Instant :=
  mkInstant 1700000000 (fun _ => "2023-11-14 22:13:20.000 UTC").

(** A fresh process: nothing allocated, nothing written, [os.Exit] and the
    built-in [panic] installed. *)
Definition world0 : World :=
  mkWorld ∅ 0%nat (fun _ => reading) 0%nat [] os_Exit go_panic.

(** a string of [n] bytes *)
Fixpoint filler (n : nat) : string :=
  match n with
  | O => EmptyString
  | S n' => String "x"%char (filler n')
  end.

(** does [effs] hold a call of the fan-out writer? *)
Definition is_output (e : Effect) : bool :=
  match e with EOutput _ => true | _ => false end.

Definition is_write (e : Effect) : bool :=
  match e with EOutput _ | EWrite _ _ => true | _ => false end.

Definition is_exit (e : Effect) : bool :=
  match e with EExit _ => true | _ => false end.

(** the effects a call added to those of the world it started in *)
Definition produced (w : World) (o : Outcome) : list Effect :=
  drop (length (effects w)) (effects (snd (final o))).

(** [strings.Contains(s, sub)] *)
Definition Contains (s sub : string) : bool :=
  match String.index 0 sub s with Some _ => true | None => false end.

(** a hook that always succeeds, and the registry filled to the default
    capacity with it *)
Definition quietHook : Func := mkFunc 4096 (fun _ _ => None).

Definition fullLogger : Logger :=
  set_hooks (replicate 100 (mkHook (call quietHook) 0 (pointerText quietHook)))
    New.

(** a logger with two destinations, and one whose threshold is [WARN] *)
Definition twoSinks : Logger := SetOutputs [1%nat; 2%nat] New.
Definition warnLogger : Logger := SetLevel WARN New.

(** the line of the message ["ready"] at [INFO], read at [reading] *)
Definition readyLine : string :=
  colorGreen +:+ "[INFO] " +:+ colorReset
  +:+ " 2023-11-14 22:13:20.000 UTC: ready" +:+ newline.

(** a hook that records its invocations (they show as [EInvoke]) *)
Definition recorder : Func := mkFunc 8192 (fun _ _ => None).

(** the logger of the end-to-end scenario: threshold [DEBUG], one hook *)
Definition scenarioLogger : Logger :=
  snd (AddHook recorder 0 (SetLevel DEBUG New)).

(** the line that scenario writes for [Info("value=%d", 42)] *)
Definition valueLine : string :=
  colorGreen +:+ "[INFO] " +:+ colorReset
  +:+ " 2023-11-14 22:13:20.000 UTC: 42" +:+ newline.

(** The message body as the specification words it: the format verbatim
    without operands, the general formatter's result otherwise. *)
Definition body_spec `{GoLib} (format : string) (args : list arg) : string :=
  match args with
  | [] => format
  | _ => Sprintf format args
  end.

(** Two closures of one function literal, as a hook factory makes them: the
    same code address, different captured state.  One always succeeds, the
    other always fails. *)
Definition healthy : Func := mkFunc 4096 (fun _ _ => None).
Definition failing : Func := mkFunc 4096 (fun _ _ => Some "boom").

Definition factoryLogger : Logger :=
  snd (AddHook failing 0 (snd (AddHook healthy 0 New))).

(** Two hooks at the two ends of the priority range. *)
Definition urgent : Func := mkFunc 4096 (fun _ _ => None).
Definition casual : Func := mkFunc 8192 (fun _ _ => None).

Definition rangeLogger : Logger :=
  snd (AddHook casual (-1) (snd (AddHook urgent MaxInt New))).

(** the effects of a state *)
Definition effectsOf (st : State) : list Effect := effects (snd st).

(** the ids of the hooks a list of effects invoked, in order *)
Definition invoked (effs : list Effect) : list string :=
  flat_map (fun e => match e with EInvoke i _ _ => [i] | _ => [] end) effs.

(** the lines a list of effects sent to standard error *)
Definition stderrLines (effs : list Effect) : list string :=
  flat_map (fun e => match e with EStderr t => [t] | _ => [] end) effs.

(** a process whose tests replaced [os.Exit] by a function that returns *)
Definition testWorld : World := SetExitFunc exit_returns world0.

(** a message of 1100 bytes: longer than the default buffer, shorter than
    four times it *)
Definition midMessage : string := filler 1100.

(** the event and the state [newEvent] yields for it on a fresh logger *)
Definition midEvent : option event := fst (newEvent INFO (New, world0)).
Definition midState : State := snd (newEvent INFO (New, world0)).

(** three hooks with distinct ids, the middle one failing; two of them
    share a priority *)
Definition first : Func := mkFunc 4096 (fun _ _ => None).
Definition second : Func := mkFunc 8192 (fun _ _ => Some "down").
Definition third : Func := mkFunc 12288 (fun _ _ => None).

Definition threeHooks : Logger :=
  snd (AddHook third 1 (snd (AddHook second 5 (snd (AddHook first 1 New))))).

(** ** Notions used in the statements *)

(** [same_outside w w']: the two worlds differ at most in their heap. *)
Definition same_outside (w w' : World) : Prop :=
  clock w' = clock w /\ ticks w' = ticks w /\ effects w' = effects w /\
  exitFunc w' = exitFunc w /\ panicFunc w' = panicFunc w.

(** [extends w w']: [w'] has the effects of [w] followed by effects that
    write to no destination. *)
Definition extends (w w' : World) : Prop :=
  exists more, effects w' = effects w ++ more /\
               Forall (fun e => is_write e = false) more.

(** the byte sequence of one message *)
Definition rendered `{GoLib} (lv : Level) (timestamp format : string)
  (args : list arg) : string :=
  levelColors lv +:+ Level_.PaddedString lv +:+ colorReset +:+ " "
  +:+ timestamp +:+ ": " +:+ body format args +:+ newline.

(** Insertion from the right, read functionally: [rp] is the sorted prefix
    in reverse order, and [x] passes every element it compares below. *)
Fixpoint sink {E : Type} (cmp : E -> E -> Z) (x : E) (rp : list E) : list E :=
  match rp with
  | [] => [x]
  | y :: rp' => if cmp x y <? 0 then y :: sink cmp x rp' else x :: rp
  end.

Definition sinkAll {E : Type} (cmp : E -> E -> Z) (data : list E) : list E :=
  foldl (fun rp x => sink cmp x rp) [] data.

(** priorities whose differences do not wrap around *)
Definition bounded (h : Hook) : Prop := - 2 ^ 62 <= priority h < 2 ^ 62.

(** the hooks left in the live list by a pass over the snapshot [hs] *)
Definition survivors (lv : Level) (msg : string) (live hs : list Hook)
  : list Hook :=
  foldl (fun live h =>
           match fn h lv msg with
           | None => live
           | Some _ => deleteFirst (id h) live
           end) live hs.

(** the effects of a pass over the snapshot [hs] *)
Definition passEffects (lv : Level) (msg : string) (hs : list Hook)
  : list Effect :=
  flat_map (fun h =>
              EInvoke (id h) lv msg ::
              match fn h lv msg with
              | None => []
              | Some err => [EStderr ("Hook error: " +:+ err +:+ newline)]
              end) hs.

(** the ids of the hooks of [hs] that return an error *)
Definition failedIds (lv : Level) (msg : string) (hs : list Hook)
  : list string :=
  map id (filter (fun h => fn h lv msg <> None) hs).

Definition is_terminal (e : Effect) : bool :=
  match e with
  | EWaited | EStopped | EExit _ | EPanic _ => true
  | _ => false
  end.

Definition is_hook_effect (e : Effect) : bool :=
  match e with
  | EInvoke _ _ _ | EStderr _ => true
  | _ => false
  end.

(** the effects that end an emission at a terminal severity *)
Definition terminalEffects `{GoLib} (lv : Level) (format : string)
  (args : list arg) : list Effect :=
  if lv =? FATAL then [EWaited; EStopped; EExit 1]
  else if lv =? PANIC then [EWaited; EStopped; EPanic (Sprintf format args)]
  else [].

(** how a call ended, without the state *)
Inductive Ending : Type :=
  | Returned
  | Exited (c : Z)
  | Panicked (v : string)
  | Blocked.

Definition ending (o : Outcome) : Ending :=
  match o with
  | Returns _ => Returned
  | Exits c _ => Exited c
  | Panics v _ => Panicked v
  | Blocks _ => Blocked
  end.

(** how an emission at [lv] is meant to end *)
Definition terminalEnding `{GoLib} (lv : Level) (format : string)
  (args : list arg) (w : World) : Ending :=
  if lv =? FATAL then
    match exitFunc w with os_Exit => Exited 1 | exit_returns => Returned end
  else if lv =? PANIC then
    match panicFunc w with
    | go_panic => Panicked (Sprintf format args)
    | panic_returns => Returned
    end
  else Returned.

(** ** The unformatted builder *)

(** [if len(e.logger.hooks) > 0 { e.logger.executeHooks(e.level, msg) }] *)
Definition msg_dispatch (lv : Level) (m : string) (l : Logger) : Logger :=
  match hooks l with
  | [] => l
  | _ => executeHooks lv m l
  end.

(** [if e.level == PANIC { wg.Wait(); workerPool.stop(); panicFunc(msg) }] *)
Definition msg_panicBranch `{GoLib} (lv : Level) (m : string) (st : State)
  : Outcome :=
  if lv =? PANIC then
    match Wait st with
    | (false, st1) => Blocks st1
    | (true, (l1, w1)) =>
        let l2 := set_workerPool (stop (workerPool l1)) l1 in
        let w2 := emit [EStopped; EPanic m] w1 in
        match panicFunc w2 with
        | go_panic => Panics m (l2, w2)
        | panic_returns => Returns (l2, w2)
        end
    end
  else Returns st.

(** The statements of [msg] between the [defer] and the exit.  The line
    goes to the buffer in one call,
    [fmt.Appendf(buf, "%s%s%s %s: %s\n", colour, padded, colorReset,
    timestamp, msg)], which appends its whole output at once. *)
Definition msg_body `{GoLib} (e : event) (m : string) (st : State)
  : event * Outcome :=
  let '(timestamp, st1) := getFormattedTime st in
  let estimatedSize := estimate (ev_level e) timestamp m in
  let '(e1, (l2, w2)) := resize e estimatedSize st1 in
  let b := buf e1 in
  let w3 :=
    store b (append (deref w2 b)
               (header (ev_level e1) timestamp +:+ m +:+ newline)) w2 in
  let w4 := write (output l2) (bytes (deref w3 b)) w3 in
  let l3 := msg_dispatch (ev_level e1) m l2 in
  (e1,
   andThen (fatalBranch (ev_level e1) (l3, w4))
           (msg_panicBranch (ev_level e1) m)).

(** [func (e *event) msg(msg string)], the unformatted variant of [msgf];
    the deferred [putBuffer] as in [msgf]. *)
Definition msg `{GoLib} (e : option event) (m : string) (st : State)
  : Outcome :=
  match e with
  | None => Returns st
  | Some e0 =>
      let deferred := Some (buf e0) in
      match snd (msg_body e0 m st) with
      | Returns st' => Returns (putBuffer deferred st')
      | Panics v st' => Panics v (putBuffer deferred st')
      | Exits c st' => Exits c st'
      | Blocks st' => Blocks st'
      end
  end.

(** ** Further inputs for the runs *)

(** a clock that advances by one second at every reading and prints the
    layout followed by the number of the reading *)
Definition tickingClock (n : nat) : Instant :=
  mkInstant (1700000000 + Z.of_nat n)
    (fun layout => layout +:+ "@" +:+ pretty (Z.of_nat n)).

Definition tickingWorld : World :=
  mkWorld ∅ 0%nat tickingClock 0%nat [] os_Exit go_panic.

(** a logger whose time cache holds an entry older than an hour and a
    recent one, as of the first reading of [tickingWorld] *)
Definition cachedLogger : Logger :=
  set_timeCache [(1699990000, "old"); (1699999000, "recent")] New.

(** the state after [Close] on a fresh logger, and a hook added to it *)
Definition closedState : State := final (Close (New, world0)).

Definition lateHookLogger : Logger :=
  snd (AddHook recorder 0 (fst closedState)).

(** the state after one message on a fresh logger: the pool holds the
    buffer that message used *)
Definition usedState : State := final (Info "ready" [] (New, world0)).


(** a clock that stays within one second and prints two layouts: the
    default one and Go's [time.Kitchen] *)
Definition Kitchen : string := "3:04PM".




(** ** The line as the interface words it *)




(** ** Further notions used in the statements *)

(** [s] filled with spaces on the right to [n] bytes *)
Definition padTo (n : nat) (s : string) : string :=
  s +:+ string_of_list_ascii (replicate (n - String.length s) " "%char).

(** the pairs (destination, bytes) a list of effects wrote, in order *)
Definition writes (effs : list Effect) : list (nat * string) :=
  flat_map (fun e => match e with EWrite d s => [(d, s)] | _ => [] end) effs.

(** the invocations of hooks in a list of effects: id, level and message *)
Definition invocations (effs : list Effect) : list (string * Level * string) :=
  flat_map (fun e => match e with EInvoke i lv m => [(i, lv, m)] | _ => [] end)
           effs.

(** the part of the logger that the dispatch touches: hook list,
    wait-group counter and worker pool *)
Definition evolve (hs : list Hook) (n : nat) (p : WorkerPool) (l : Logger)
  : Logger :=
  set_wg n (set_hooks hs (set_workerPool p l)).

(** what a caller configured: threshold, destinations, layout, capacities *)
Definition settings (l : Logger) : Level * list nat * string * Z * Z * Z :=
  (level l, output l, timeFormat l, maxHooks l, bufSize l, maxCacheSize l).

(** [steady l l']: going from [l] to [l'] nothing a caller configured has
    changed, no hook was added and nothing was stored in the time cache. *)
Definition steady (l l' : Logger) : Prop :=
  settings l' = settings l /\ bufPool l' = bufPool l /\
  sublist (hooks l') (hooks l) /\ sublist (timeCache l') (timeCache l).

(** the buffers in the pool are pairwise distinct, allocated, and none has
    a capacity above four times [bufSize] *)
Definition pool_ok (st : State) : Prop :=
  NoDup (pool (fst st)) /\
  Forall (fun p => (p < allocated (snd st))%nat /\
                   cap (deref (snd st) p) <= int_mul (bufSize (fst st)) 4)
         (pool (fst st)).

(** the wait-group counter equals the number of jobs in the queue *)
Definition balanced (l : Logger) : Prop :=
  wg l = length (jobs (workerPool l)).

(** the effects that end a call of [msg] at a terminal severity, and how
    such a call is meant to end *)
Definition msg_terminalEffects (lv : Level) (m : string) : list Effect :=
  if lv =? FATAL then [EWaited; EStopped; EExit 1]
  else if lv =? PANIC then [EWaited; EStopped; EPanic m]
  else [].

Definition msg_terminalEnding (lv : Level) (m : string) (w : World) : Ending :=
  if lv =? FATAL then
    match exitFunc w with os_Exit => Exited 1 | exit_returns => Returned end
  else if lv =? PANIC then
    match panicFunc w with
    | go_panic => Panicked m
    | panic_returns => Returned
    end
  else Returned.

(** ** Sequences of calls *)

(** What one goroutine does with a logger that has no hook: the emission
    methods and the configuration methods, one call after the other.
    ([AddHook] is left out on purpose: with a hook registered an emission
    hands a job to the worker goroutines, which run beside the caller.) *)
Inductive Call (A : Type) : Type :=
  | CLog (lv : Level) (format : string) (args : list A)
  | CSetLevel (lv : Level)
  | CSetOutputs (outputs : list nat)
  | CSetOutput (out : nat)
  | CSetTimeFormat (format : string).

Arguments CLog {A} lv format args.
Arguments CSetLevel {A} lv.
Arguments CSetOutputs {A} outputs.
Arguments CSetOutput {A} out.
Arguments CSetTimeFormat {A} format.

Definition perform `{GoLib} (st : State) (c : Call arg) : State :=
  match c with
  | CLog lv format args => final (logAt lv format args st)
  | CSetLevel lv => (SetLevel lv (fst st), snd st)
  | CSetOutputs outputs => (SetOutputs outputs (fst st), snd st)
  | CSetOutput out => (SetOutput out (fst st), snd st)
  | CSetTimeFormat format => (SetTimeFormat format (fst st), snd st)
  end.

(** a call that is no emission at [FATAL] or [PANIC] *)
Definition ordinary {A : Type} (c : Call A) : Prop :=
  match c with
  | CLog lv _ _ => lv <> FATAL /\ lv <> PANIC
  | _ => True
  end.

(** the state of a logger in use: the pool runs, the wait-group counter
    equals the queue length, the buffer pool is well formed, the hook list
    is within capacity and there is a destination *)
Definition well_formed (st : State) : Prop :=
  stopped (workerPool (fst st)) = false /\ balanced (fst st) /\
  pool_ok st /\ Z.of_nat (length (hooks (fst st))) <= maxHooks (fst st) /\
  output (fst st) <> [].

(** nothing is left for the workers: no hook, no queued job, and the
    wait-group counter at zero *)
Definition idle (l : Logger) : Prop :=
  hooks l = [] /\ jobs (workerPool l) = [] /\ wg l = 0%nat.

(** * Properties *)

(** ** Strings *)

Lemma app_cons_str (x : ascii) (a b : string) :
  String x a +:+ b = String x (a +:+ b).
Proof. reflexivity. Qed.

Lemma app_assoc_str (a b c : string) : (a +:+ b) +:+ c = a +:+ b +:+ c.
Proof.
  induction a as [|x a IH]; [reflexivity |].
  rewrite !app_cons_str. f_equal. exact IH.
Qed.

Lemma len_app (a b : string) : len (a +:+ b) = len a + len b.
Proof.
  unfold len. induction a as [|x a IH]; [reflexivity |].
  rewrite app_cons_str. simpl String.length. rewrite !Nat2Z.inj_succ. lia.
Qed.

(** ** Levels *)

(** C10.  [String] and [PaddedString] are total functions of the level, and
    on every value outside [DEBUG .. PANIC] they answer ["UNKNOWN"] and
    ["[UNKNOWN]"]: the lookup in [paddedLevelStrings] is guarded. *)
Theorem Level_strings_unknown (l : Level) :
  ~ (DEBUG <= l <= PANIC) ->
  Level_.String l = "UNKNOWN" /\ Level_.PaddedString l = "[UNKNOWN]".
Proof.
  unfold DEBUG, PANIC. intros Hout.
  assert (Hne : forall k, 0 <= k <= 6 -> (k =? l) = false /\ (l =? k) = false)
    by (intros k Hk; split; apply Z.eqb_neq; lia).
  cbv beta iota delta [Level_.String Level_.PaddedString paddedLevelStrings
    map_lookup DEBUG INFO WARN ERROR CRITICAL FATAL PANIC].
  repeat match goal with
  | |- context [?k =? l] => rewrite (proj1 (Hne k ltac:(lia)))
  | |- context [l =? ?k] => rewrite (proj2 (Hne k ltac:(lia)))
  end.
  split; reflexivity.
Qed.

Lemma Level_strings_unknown_witness :
  ~ (DEBUG <= 7 <= PANIC) /\
  Level_.String 7 = "UNKNOWN" /\ Level_.PaddedString 7 = "[UNKNOWN]" /\
  Level_.String (-1) = "UNKNOWN" /\ Level_.PaddedString (-1) = "[UNKNOWN]".
Proof.
  assert (H7 : ~ (DEBUG <= 7 <= PANIC)) by (unfold DEBUG, PANIC; lia).
  assert (Hm : ~ (DEBUG <= -1 <= PANIC)) by (unfold DEBUG, PANIC; lia).
  split; [exact H7 |].
  destruct (Level_strings_unknown 7 H7) as [A B].
  destruct (Level_strings_unknown (-1) Hm) as [C D].
  repeat split; assumption.
Defined.

(** Inside the range the seven labels are the ones of the tables. *)
Lemma Level_strings_known :
  map Level_.String [DEBUG; INFO; WARN; ERROR; CRITICAL; FATAL; PANIC]
  = ["DEBUG"; "INFO"; "WARN"; "ERROR"; "CRIT"; "FATAL"; "PANIC"] /\
  map Level_.PaddedString [DEBUG; INFO; WARN; ERROR; CRITICAL; FATAL; PANIC]
  = ["[DEBUG]"; "[INFO] "; "[WARN] "; "[ERROR]"; "[CRIT] "; "[FATAL]";
     "[PANIC]"].
Proof. split; reflexivity. Qed.

(** ** The hook registry *)

(** C3.  At capacity ([maxHooks], 100 by default) [AddHook] answers an error
    and leaves the logger as it was, the hook list included; below capacity
    it answers nil, appends exactly one record at the end and changes no
    other field. *)
Theorem AddHook_capacity `{GoLib} (hook : Func) (prio : Z) (l : Logger) :
  (maxHooks l <= Z.of_nat (length (hooks l)) ->
     fst (AddHook hook prio l) <> None /\ snd (AddHook hook prio l) = l) /\
  (Z.of_nat (length (hooks l)) < maxHooks l ->
     fst (AddHook hook prio l) = None /\
     hooks (snd (AddHook hook prio l))
       = hooks l ++ [mkHook (call hook) prio (pointerText hook)] /\
     set_hooks (hooks l) (snd (AddHook hook prio l)) = l).
Proof.
  unfold AddHook. split; intros Hcap.
  - apply Z.leb_le in Hcap. rewrite Hcap. simpl. split; [discriminate | reflexivity].
  - apply Z.leb_gt in Hcap. rewrite Hcap. simpl.
    split; [reflexivity |]. split; [reflexivity |]. destruct l; reflexivity.
Qed.

Lemma AddHook_capacity_witness :
  (maxHooks fullLogger <= Z.of_nat (length (hooks fullLogger)) /\
   fst (AddHook quietHook 0 fullLogger) <> None /\
   snd (AddHook quietHook 0 fullLogger) = fullLogger /\
   length (hooks (snd (AddHook quietHook 0 fullLogger))) = 100%nat) /\
  (Z.of_nat (length (hooks New)) < maxHooks New /\
   fst (AddHook quietHook 0 New) = None /\
   length (hooks (snd (AddHook quietHook 0 New))) = 1%nat).
Proof.
  split.
  - assert (Hfull : maxHooks fullLogger <= Z.of_nat (length (hooks fullLogger)))
      by (vm_compute; discriminate).
    destruct (proj1 (AddHook_capacity quietHook 0 fullLogger) Hfull) as [E S].
    split; [exact Hfull |]. split; [exact E |]. split; [exact S |].
    rewrite S. reflexivity.
  - assert (Hroom : Z.of_nat (length (hooks New)) < maxHooks New)
      by (vm_compute; reflexivity).
    destruct (proj2 (AddHook_capacity quietHook 0 New) Hroom) as (E & A & _).
    split; [exact Hroom |]. split; [exact E |].
    rewrite A. reflexivity.
Defined.

(** ** Memory *)

Lemma deref_store (p : nat) (s : Slice) (w : World) :
  deref (store p s w) p = s.
Proof. unfold deref, store. simpl. now rewrite lookup_insert_eq. Qed.

Lemma bytes_append `{GoLib} (s : Slice) (data : string) :
  bytes (append s data) = bytes s +:+ data.
Proof. reflexivity. Qed.

(** ** What each step leaves alone *)

Lemma getBuffer_frame (size : Z) (l : Logger) (w : World) :
  let '(b, (l', w')) := getBuffer size (l, w) in
  (exists pl, l' = set_pool pl l) /\ same_outside w w' /\
  bytes (deref w' b) = "" /\
  (forall p, bytes (deref w p) = "" -> bytes (deref w' p) = "").
Proof.
  unfold getBuffer, pool_Get.
  destruct (int_mul (bufSize l) 4 <? size).
  - simpl. split; [exists (pool l); destruct l; reflexivity |].
    split; [repeat split |]. split.
    + unfold deref. simpl. now rewrite lookup_insert_eq.
    + intros p Hp. unfold deref in *. simpl.
      destruct (decide (allocated w = p)) as [->|Hne].
      * now rewrite lookup_insert_eq.
      * now rewrite lookup_insert_ne.
  - destruct (pool l) as [|q rest]; simpl.
    + split; [exists (pool l); destruct l; reflexivity |].
      split; [repeat split |]. split.
      * unfold deref. simpl. now rewrite lookup_insert_eq.
      * intros p Hp. unfold deref in *. simpl.
        destruct (decide (allocated w = p)) as [->|Hne].
        -- now rewrite lookup_insert_eq.
        -- rewrite lookup_insert_ne by assumption.
           destruct (decide (allocated w = p)); [contradiction |].
           now rewrite lookup_insert_ne.
    + split; [exists rest; reflexivity |].
      split; [repeat split |]. split.
      * unfold deref. simpl. now rewrite lookup_insert_eq.
      * intros p Hp. unfold deref in *. simpl.
        destruct (decide (q = p)) as [->|Hne].
        -- now rewrite lookup_insert_eq.
        -- now rewrite lookup_insert_ne.
Qed.

Lemma cleanupTimeCache_frame (l : Logger) (w : World) :
  let '(l', w') := cleanupTimeCache (l, w) in
  heap w' = heap w /\ effects w' = effects w /\
  exitFunc w' = exitFunc w /\ panicFunc w' = panicFunc w /\
  output l' = output l /\ hooks l' = hooks l /\ wg l' = wg l /\
  workerPool l' = workerPool l /\ bufSize l' = bufSize l /\
  pool l' = pool l /\ level l' = level l /\
  timeKey l' = timeKey l /\ timeValue l' = timeValue l.
Proof.
  unfold cleanupTimeCache, Now.
  destruct (cleanupInProgress l); [repeat split |].
  destruct (int_sub _ _ <? 60); simpl; repeat split.
Qed.

Lemma getFormattedTime_frame (l : Logger) (w : World) :
  let '(ts, (l', w')) := getFormattedTime (l, w) in
  heap w' = heap w /\ effects w' = effects w /\
  exitFunc w' = exitFunc w /\ panicFunc w' = panicFunc w /\
  output l' = output l /\ hooks l' = hooks l /\ wg l' = wg l /\
  workerPool l' = workerPool l /\ bufSize l' = bufSize l /\
  pool l' = pool l /\ level l' = level l.
Proof.
  unfold getFormattedTime, Now.
  destruct (Unix _ =? timeKey l); [simpl; repeat split |].
  match goal with
  | |- context [cleanupTimeCache (?a, ?b)] =>
      pose proof (cleanupTimeCache_frame a b) as F;
      destruct (cleanupTimeCache (a, b)) as [l' w']
  end.
  simpl in F. intuition congruence.
Qed.

(** The timestamp [getFormattedTime] answers: the cached text while the
    clock still reads the cached second, else the reading in the layout
    [timeFormat]. *)
Lemma getFormattedTime_value (l : Logger) (w : World) :
  fst (getFormattedTime (l, w))
  = if Unix (clock w (ticks w)) =? timeKey l then timeValue l
    else Format (clock w (ticks w)) (timeFormat l).
Proof.
  unfold getFormattedTime, Now.
  destruct (Unix _ =? timeKey l); reflexivity.
Qed.

(** ** Effects only accumulate *)

Lemma extends_refl (w : World) : extends w w.
Proof. exists []. split; [now rewrite app_nil_r | constructor]. Qed.

Lemma extends_trans (w1 w2 w3 : World) :
  extends w1 w2 -> extends w2 w3 -> extends w1 w3.
Proof.
  intros (m1 & E1 & Q1) (m2 & E2 & Q2). exists (m1 ++ m2). split.
  - now rewrite E2, E1, <- app_assoc.
  - now apply Forall_app.
Qed.

Lemma extends_emit (es : list Effect) (w : World) :
  Forall (fun e => is_write e = false) es -> extends w (emit es w).
Proof. intros Q. exists es. split; [reflexivity | exact Q]. Qed.

Lemma runHook_extends (lv : Level) (msg : string) (st : State) (h : Hook) :
  extends (snd st) (snd (runHook lv msg st h)).
Proof.
  destruct st as [l w]. unfold runHook.
  destruct (fn h lv msg); simpl.
  - eapply extends_trans; apply extends_emit; repeat constructor.
  - apply extends_emit; repeat constructor.
Qed.

Lemma foldl_extends {A : Type} (f : State -> A -> State) (xs : list A) :
  (forall st x, extends (snd st) (snd (f st x))) ->
  forall st, extends (snd st) (snd (foldl f st xs)).
Proof.
  intros Hf. induction xs as [|x xs IH]; intros st; simpl.
  - apply extends_refl.
  - eapply extends_trans; [apply Hf | apply IH].
Qed.

Lemma runJob_extends `{GoLib} (j : Job) (st : State) :
  extends (snd st) (snd (runJob j st)).
Proof.
  destruct st as [l w]. unfold runJob.
  pose proof (foldl_extends (runHook (job_level j) (job_msg j))
                (SortFunc byPriority (hooks l))
                (runHook_extends _ _) (l, w)) as E.
  destruct (foldl _ _ _) as [l' w']. exact E.
Qed.

Lemma runWorkers_extends `{GoLib} (st : State) :
  extends (snd st) (snd (runWorkers st)).
Proof.
  destruct st as [l w]. unfold runWorkers.
  destruct (stopped (workerPool l)); [apply extends_refl |].
  apply (foldl_extends (fun s j => runJob j s) _ (fun s j => runJob_extends j s)
           (set_workerPool (mkPool [] false) l, w)).
Qed.

Lemma Wait_extends `{GoLib} (st : State) :
  extends (snd st) (snd (snd (Wait st))).
Proof.
  unfold Wait. pose proof (runWorkers_extends st) as E.
  destruct (runWorkers st) as [l w].
  destruct (wg l =? 0)%nat; simpl in *; [| exact E].
  eapply extends_trans; [exact E | apply extends_emit; repeat constructor].
Qed.

Lemma fatalBranch_extends `{GoLib} (lv : Level) (st : State) :
  extends (snd st) (snd (final (fatalBranch lv st))).
Proof.
  unfold fatalBranch. destruct (lv =? FATAL); [| apply extends_refl].
  pose proof (Wait_extends st) as E.
  destruct (Wait st) as [[] [l1 w1]]; simpl in *; [| exact E].
  assert (E' : extends (snd st) (emit [EStopped; EExit 1] w1))
    by (eapply extends_trans; [exact E | apply extends_emit; repeat constructor]).
  destruct (exitFunc w1); exact E'.
Qed.

Lemma panicBranch_extends `{GoLib} (lv : Level) (format : string)
  (args : list arg) (st : State) :
  extends (snd st) (snd (final (panicBranch lv format args st))).
Proof.
  unfold panicBranch. destruct (lv =? PANIC); [| apply extends_refl].
  pose proof (Wait_extends st) as E.
  destruct (Wait st) as [[] [l1 w1]]; simpl in *; [| exact E].
  assert (E' : extends (snd st)
                 (emit [EStopped; EPanic (Sprintf format args)] w1))
    by (eapply extends_trans; [exact E | apply extends_emit; repeat constructor]).
  destruct (panicFunc w1); exact E'.
Qed.

Lemma andThen_extends (o : Outcome) (k : State -> Outcome) (w : World) :
  extends w (snd (final o)) ->
  (forall st, extends (snd st) (snd (final (k st)))) ->
  extends w (snd (final (andThen o k))).
Proof.
  intros Eo Ek. destruct o; simpl in *; try exact Eo.
  eapply extends_trans; [exact Eo | apply Ek].
Qed.

Lemma putBuffer_effects (b : option nat) (st : State) :
  snd (putBuffer b st) = snd st.
Proof.
  destruct st as [l w]. unfold putBuffer. destruct b; [| reflexivity].
  destruct (_ <? _); reflexivity.
Qed.

(** ** The rendered line *)

Lemma resize_frame `{GoLib} (e : event) (est : Z) (l : Logger) (w : World) :
  bytes (deref w (buf e)) = "" ->
  let '(e1, (l', w')) := resize e est (l, w) in
  ev_level e1 = ev_level e /\ (exists pl, l' = set_pool pl l) /\
  same_outside w w' /\ bytes (deref w' (buf e1)) = "".
Proof.
  intros Hempty. unfold resize.
  destruct (cap (deref w (buf e)) <? est).
  - pose proof (getBuffer_frame est l w) as F.
    destruct (getBuffer est (l, w)) as [nb [l' w']].
    destruct F as (Hl & Hw & Hnb & Hkeep).
    split; [reflexivity |]. split; [exact Hl |]. split.
    + destruct Hw as (? & ? & ? & ? & ?). repeat split; assumption.
    + simpl. rewrite deref_store, bytes_append, Hnb, (Hkeep _ Hempty).
      reflexivity.
  - split; [reflexivity |]. split; [exists (pool l); destruct l; reflexivity |].
    split; [repeat split | exact Hempty].
Qed.

Lemma msgf_body_shape `{GoLib} (e : event) (format : string)
  (args : list arg) (l : Logger) (w : World) :
  bytes (deref w (buf e)) = "" ->
  let line :=
    rendered (ev_level e) (fst (getFormattedTime (l, w))) format args in
  exists l2 w6,
    snd (msgf_body e format args (l, w))
    = andThen (fatalBranch (ev_level e)
                 (dispatch (ev_level e) format args l2, w6))
              (panicBranch (ev_level e) format args) /\
    effects w6
    = effects w ++ EOutput line :: map (fun d => EWrite d line) (output l) /\
    exitFunc w6 = exitFunc w /\ panicFunc w6 = panicFunc w /\
    hooks l2 = hooks l /\ wg l2 = wg l /\ workerPool l2 = workerPool l.
Proof.
  intros Hempty line. subst line. unfold msgf_body.
  pose proof (getFormattedTime_frame l w) as F.
  destruct (getFormattedTime (l, w)) as [ts [l1 w1]].
  destruct F as (Hheap & Heff & Hx & Hp & Hout & Hhooks & Hwg1 & Hpool1 & _).
  assert (Hempty1 : bytes (deref w1 (buf e)) = "")
    by (unfold deref in *; now rewrite Hheap).
  pose proof (resize_frame e (estimate (ev_level e) ts format) l1 w1 Hempty1)
    as R.
  destruct (resize e _ (l1, w1)) as [e1 [l2 w2]].
  destruct R as (Hlv & (pl & ->) & (_ & _ & Heff2 & Hx2 & Hp2) & Hempty2).
  cbv zeta. cbn [fst snd]. rewrite Hlv.
  eexists _, _. split; [reflexivity |].
  split.
  { unfold write, emit. cbn [effects].
    rewrite !deref_store, !bytes_append, Hempty2.
    cbn [effects store set_heap].
    rewrite Heff2, Heff.
    unfold rendered, header. rewrite !app_assoc_str.
    cbn [String.append app output set_pool].
    rewrite Hout. reflexivity. }
  cbn. repeat split; congruence.
Qed.

Lemma msgf_final `{GoLib} (e : event) (format : string) (args : list arg)
  (st : State) :
  effects (snd (final (msgf (Some e) format args st)))
  = effects (snd (final (snd (msgf_body e format args st)))) /\
  ending (msgf (Some e) format args st)
  = ending (snd (msgf_body e format args st)).
Proof.
  unfold msgf. destruct (snd (msgf_body e format args st)); cbn [final ending];
    rewrite ?putBuffer_effects; split; reflexivity.
Qed.

Lemma msgf_body_effects `{GoLib} (e : event) (format : string)
  (args : list arg) (l : Logger) (w : World) :
  bytes (deref w (buf e)) = "" ->
  let line :=
    rendered (ev_level e) (fst (getFormattedTime (l, w))) format args in
  exists rest,
    effects (snd (final (snd (msgf_body e format args (l, w)))))
    = effects w ++ EOutput line :: map (fun d => EWrite d line) (output l)
      ++ rest
    /\ Forall (fun x => is_write x = false) rest.
Proof.
  intros Hempty line. subst line.
  destruct (msgf_body_shape e format args l w Hempty)
    as (l2 & w6 & Ebody & Heff6 & _).
  rewrite Ebody.
  match goal with
  | |- context [andThen (fatalBranch ?lv ?st) ?k] =>
      destruct (andThen_extends (fatalBranch lv st) k (snd st)
                  (fatalBranch_extends lv st)
                  (panicBranch_extends _ _ _)) as (rest & E & Q)
  end.
  exists rest. split; [| exact Q].
  rewrite E. cbn [snd]. rewrite Heff6, <- app_assoc. reflexivity.
Qed.

(** ** The level gate and the line *)

Lemma logAt_rejected `{GoLib} (lv : Level) (format : string)
  (args : list arg) (l : Logger) (w : World) :
  lv < level l -> logAt lv format args (l, w) = Returns (l, w).
Proof.
  intros Hlt. unfold logAt, newEvent.
  apply Z.ltb_lt in Hlt. rewrite Hlt. reflexivity.
Qed.

Lemma logAt_effects `{GoLib} (lv : Level) (format : string)
  (args : list arg) (l : Logger) (w : World) :
  level l <= lv ->
  let line := rendered lv (fst (getFormattedTime (l, w))) format args in
  exists rest,
    effects (snd (final (logAt lv format args (l, w))))
    = effects w ++ EOutput line :: map (fun d => EWrite d line) (output l)
      ++ rest
    /\ Forall (fun x => is_write x = false) rest.
Proof.
  intros Hge line. subst line. unfold logAt, newEvent.
  apply Z.ltb_ge in Hge. rewrite Hge.
  pose proof (getBuffer_frame (bufSize l) l w) as F.
  destruct (getBuffer (bufSize l) (l, w)) as [b [l0 w0]].
  destruct F as ((pl & ->) & (Hclock & Hticks & Heff & _) & Hempty & _).
  destruct (msgf_body_effects (mkEvent lv b) format args (set_pool pl l) w0
              Hempty) as (rest & E & Q).
  exists rest. split; [| exact Q].
  rewrite !getFormattedTime_value in E. rewrite getFormattedTime_value.
  rewrite Hclock, Hticks, Heff in E. cbn [ev_level timeKey timeValue
    timeFormat output set_pool] in E.
  unfold msgf.
  destruct (snd (msgf_body (mkEvent lv b) format args (set_pool pl l, w0)))
    as [st'|c st'|v st'|st']; cbn [final] in *;
    rewrite ?putBuffer_effects; exact E.
Qed.






(** C2.  An emission at level [lv] reaches the output writer exactly when
    [lv] is at least the threshold; below the threshold the call returns
    with the logger and the world untouched. *)
Theorem level_gate `{GoLib} (lv : Level) (format : string)
  (args : list arg) (l : Logger) (w : World) :
  (existsb is_output (produced w (logAt lv format args (l, w))) = true
   <-> level l <= lv)
  /\ (lv < level l -> logAt lv format args (l, w) = Returns (l, w)).
Proof.
  split; [| apply logAt_rejected]. split.
  - intros Hw. destruct (Z.le_gt_cases (level l) lv) as [Hge|Hlt]; [exact Hge |].
    unfold produced in Hw. rewrite (logAt_rejected lv format args l w) in Hw by lia.
    cbn [final snd] in Hw. rewrite drop_all in Hw. discriminate.
  - intros Hge.
    destruct (logAt_effects lv format args l w Hge) as (rest & E & _).
    unfold produced. rewrite E, drop_app_length. reflexivity.
Qed.


(** Two destinations receive the same bytes, in registration order. *)
Example fanout_two_destinations :
  produced world0 (Info "ready" [] (twoSinks, world0))
  = [EOutput readyLine; EWrite 1 readyLine; EWrite 2 readyLine].
Proof. vm_compute. reflexivity. Qed.

Lemma level_gate_witness :
  (DEBUG < level warnLogger /\
   existsb is_output
     (produced world0 (Debug "debug message" [] (warnLogger, world0))) = false /\
   Debug "debug message" [] (warnLogger, world0) = Returns (warnLogger, world0))
  /\ (level warnLogger <= WARN /\
      existsb is_output
        (produced world0 (Warn "warning message" [] (warnLogger, world0))) = true)
  /\ (level warnLogger <= ERROR /\
      existsb is_output
        (produced world0 (Error "error message" [] (warnLogger, world0))) = true).
Proof.
  assert (Hd : DEBUG < level warnLogger) by (vm_compute; reflexivity).
  assert (Hw : level warnLogger <= WARN) by (vm_compute; discriminate).
  assert (He : level warnLogger <= ERROR) by (vm_compute; discriminate).
  split; [| split].
  - destruct (level_gate DEBUG "debug message" [] warnLogger world0)
      as [Hiff Hrej].
    split; [exact Hd |]. split; [| exact (Hrej Hd)].
    unfold Debug. rewrite (Hrej Hd). reflexivity.
  - split; [exact Hw |].
    exact (proj2 (proj1 (level_gate WARN "warning message" [] warnLogger world0)) Hw).
  - split; [exact He |].
    exact (proj2 (proj1 (level_gate ERROR "error message" [] warnLogger world0)) He).
Defined.

(** ** The one-operand fast path *)

(** Without operands, with two or more, and with one operand of a type the
    switch does not name, the body is what the specification says. *)
Lemma body_agrees_off_the_fast_path `{GoLib} (format : string)
  (args : list arg) :
  (forall a, args = [a] -> exists v, a = AOther v) ->
  body format args = body_spec format args.
Proof.
  intros Hother. destruct args as [|a [|b rest]]; try reflexivity.
  destruct (Hother a eq_refl) as [v ->]. reflexivity.
Qed.

(** On the fast path the body is the operand's text, whatever the format;
    it is the general formatter's result only if that result happens to be
    the operand's text. *)
Lemma body_on_the_fast_path `{GoLib} (format : string) (n : Z) :
  body format [AInt n] = FormatInt n /\
  (body format [AInt n] = body_spec format [AInt n]
   <-> Sprintf format [AInt n] = FormatInt n).
Proof. split; [reflexivity |]. simpl. split; intros E; now rewrite E. Qed.

(** The message handed to the hooks is always the general formatter's. *)
Lemma executeHooks_message `{GoLib} (lv : Level) (msg : string) (l : Logger) :
  stopped (workerPool l) = false ->
  jobs (workerPool (executeHooks lv msg l))
  = jobs (workerPool l) ++ [mkJob lv msg].
Proof. intros Hrun. unfold executeHooks, submit. simpl. now rewrite Hrun. Qed.

(** C1 (the code departs from the claim).  [Info("value=%d", 42)] on the
    logger of the end-to-end scenario: the general formatter answers
    ["value=42"], and that is what the hook receives, once; but the line
    written to the sink has the body ["42"]: it holds the label [INFO] and
    does not hold ["value=42"]. *)
Theorem fast_path_ignores_format :
  Fragment.Sprintf_frag "value=%d" [AInt 42] = Some "value=42" /\
  body_spec "value=%d" [AInt 42] = "value=42" /\
  body "value=%d" [AInt 42] = "42" /\
  exists st',
    Info "value=%d" [AInt 42] (scenarioLogger, world0) = Returns st' /\
    effectsOf (runWorkers st')
    = [EOutput valueLine; EWrite Stdout valueLine;
       EInvoke (pointerText recorder) INFO "value=42"] /\
    Contains valueLine "INFO" = true /\
    Contains valueLine "value=42" = false.
Proof.
  split; [reflexivity |]. split; [reflexivity |]. split; [reflexivity |].
  eexists. split; [vm_compute; reflexivity |].
  split; [vm_compute; reflexivity |]. split; vm_compute; reflexivity.
Qed.

(** The same departure for a string operand. *)
Example fast_path_ignores_format_string :
  body "Hello, %s!" [AString "World"] = "World" /\
  body_spec "Hello, %s!" [AString "World"] = "Hello, World!".
Proof. split; reflexivity. Qed.

(** ** Buffers *)

(** The capacity of the buffer [getBuffer] answers: the requested size
    above four times [bufSize]; otherwise whatever the pool holds, a pooled
    buffer's own capacity or [bufSize] for a new one. *)
Lemma getBuffer_capacity (size : Z) (l : Logger) (w : World) :
  let '(b, (_, w')) := getBuffer size (l, w) in
  cap (deref w' b)
  = if int_mul (bufSize l) 4 <? size then size
    else match pool l with
         | p :: _ => cap (deref w p)
         | [] => bufSize l
         end.
Proof.
  unfold getBuffer, pool_Get.
  destruct (int_mul (bufSize l) 4 <? size).
  - unfold deref. simpl. now rewrite lookup_insert_eq.
  - destruct (pool l) as [|p rest]; simpl; rewrite deref_store; [| reflexivity].
    simpl. unfold deref. simpl. now rewrite lookup_insert_eq.
Qed.

(** Above four times [bufSize] the answer has exactly the requested
    capacity and no content. *)
Lemma getBuffer_large (size : Z) (l : Logger) (w : World) :
  int_mul (bufSize l) 4 < size ->
  let '(b, (l', w')) := getBuffer size (l, w) in
  deref w' b = mkSlice size "" /\ l' = l.
Proof.
  intros Hbig. unfold getBuffer. apply Z.ltb_lt in Hbig. rewrite Hbig.
  simpl. split; [| reflexivity]. unfold deref. simpl.
  now rewrite lookup_insert_eq.
Qed.

(** X23.  The size [msgf] and [msg] estimate before writing leaves out the
    space between the colour reset and the timestamp: the line of a
    message without operands is always exactly one byte longer than the
    estimate made for it. *)
Lemma estimate_one_short `{GoLib} (lv : Level) (timestamp format : string) :
  len (rendered lv timestamp format []) = estimate lv timestamp format + 1.
Proof.
  unfold rendered, estimate, body. rewrite !len_app.
  change (len " ") with 1. change (len ": ") with 2.
  change (len newline) with 1. lia.
Qed.

(** C8 (the code departs from the claim).  On a fresh logger, whose
    buffers have 1024 bytes, [getBuffer(2000)] answers a buffer of capacity
    1024; and when [msgf] replaces the leased buffer for a message of 1100
    bytes, the replacement it asked for with the estimate 1146 is another
    buffer of capacity 1024, no larger than the one it replaces. *)
Theorem getBuffer_below_request :
  (let '(b, (_, w)) := getBuffer 2000 (New, world0) in
   cap (deref w b) = 1024 /\ ~ (2000 <= cap (deref w b))) /\
  (exists e st1 timestamp,
     midEvent = Some e /\
     timestamp = fst (getFormattedTime midState) /\
     st1 = snd (getFormattedTime midState) /\
     estimate INFO timestamp midMessage = 1146 /\
     cap (deref (snd st1) (buf e)) = 1024 /\
     let '(b, (_, w)) := getBuffer 1146 st1 in
     b <> buf e /\ cap (deref w b) = 1024 /\ ~ (1146 <= cap (deref w b))).
Proof.
  split; [vm_compute; split; [reflexivity | intros Hle; apply Hle; reflexivity] |].
  eexists _, _, _. split; [reflexivity |]. split; [reflexivity |].
  split; [reflexivity |]. split; [vm_compute; reflexivity |].
  split; [vm_compute; reflexivity |].
  vm_compute. split; [discriminate |].
  split; [reflexivity | intros Hle; apply Hle; reflexivity].
Qed.

(** [getBuffer] answers a new address or one of the pool, and touches no
    other slice. *)
Lemma getBuffer_other (size : Z) (l : Logger) (w : World) :
  let '(b, (_, w')) := getBuffer size (l, w) in
  (b = allocated w \/ b ∈ pool l) /\
  (forall p, p <> b -> deref w' p = deref w p).
Proof.
  unfold getBuffer, pool_Get.
  destruct (int_mul (bufSize l) 4 <? size).
  - cbn. split; [now left |]. intros p Hp. unfold deref. cbn.
    now rewrite lookup_insert_ne by congruence.
  - destruct (pool l) as [|q rest]; cbn.
    + split; [now left |]. intros p Hp. unfold deref. cbn.
      now rewrite !lookup_insert_ne by congruence.
    + split; [right; left |]. intros p Hp. unfold deref. cbn.
      now rewrite lookup_insert_ne by congruence.
Qed.

(** X25 (the part of C8 that holds).  Whenever the estimated size exceeds
    the capacity of the leased buffer, [msgf] goes on with the buffer
    [getBuffer] answers for the estimate, another buffer, with the existing
    content copied into it; and when the estimate exceeds four times
    [bufSize] that buffer is a new one whose capacity is the estimate.  The
    leased buffer is an allocated slice that is not in the pool. *)
Theorem resize_replacement `{GoLib} (e : event) (est : Z) (l : Logger)
  (w : World) :
  (buf e < allocated w)%nat ->
  buf e ∉ pool l ->
  len (bytes (deref w (buf e))) <= cap (deref w (buf e)) ->
  cap (deref w (buf e)) < est ->
  exists b st1,
    getBuffer est (l, w) = (b, st1) /\
    b <> buf e /\
    fst (resize e est (l, w)) = mkEvent (ev_level e) b /\
    bytes (deref (snd (snd (resize e est (l, w)))) b)
    = bytes (deref w (buf e)) /\
    (int_mul (bufSize l) 4 < est ->
     b = allocated w /\
     cap (deref (snd (snd (resize e est (l, w)))) b) = est /\
     est <= cap (deref (snd st1) b)).
Proof.
  intros Hlive Hout Hlen Hsmall. unfold resize.
  assert (Hlt := Hsmall). apply Z.ltb_lt in Hlt. rewrite Hlt.
  pose proof (getBuffer_frame est l w) as F.
  pose proof (getBuffer_large est l w) as G.
  pose proof (getBuffer_other est l w) as O.
  destruct (getBuffer est (l, w)) as [b [l1 w1]] eqn:Eget.
  destruct F as (_ & _ & Hnew & _). destruct O as [Hwhere Hsame].
  assert (Hne : b <> buf e).
  { destruct Hwhere as [-> | Hin]; [lia |]. intros ->. contradiction. }
  exists b, (l1, w1). split; [reflexivity |]. split; [exact Hne |].
  split; [reflexivity |].
  cbn [fst snd]. rewrite deref_store, bytes_append, Hnew.
  rewrite (Hsame (buf e)) by congruence.
  split; [reflexivity |].
  intros Hbig. destruct (G Hbig) as [Hslice _].
  split.
  - unfold getBuffer in Eget. apply Z.ltb_lt in Hbig. rewrite Hbig in Eget.
    cbn in Eget. now injection Eget as <- _ _.
  - unfold append. rewrite !Hslice. cbn [cap bytes].
    change (len "") with 0. rewrite Z.add_0_l.
    replace (len (bytes (deref w (buf e))) <=? est) with true
      by (symmetry; apply Z.leb_le; lia).
    split; lia.
Qed.

Lemma resize_replacement_witness :
  let e := mkEvent INFO 0 in
  ((buf e < allocated (snd midState))%nat /\
   (buf e ∉ pool (fst midState)) /\
   len (bytes (deref (snd midState) (buf e)))
   <= cap (deref (snd midState) (buf e)) /\
   cap (deref (snd midState) (buf e)) < 5046) /\
  exists b st1,
    getBuffer 5046 midState = (b, st1) /\
    b <> buf e /\
    fst (resize e 5046 midState) = mkEvent (ev_level e) b /\
    bytes (deref (snd (snd (resize e 5046 midState))) b)
    = bytes (deref (snd midState) (buf e)) /\
    (int_mul (bufSize (fst midState)) 4 < 5046 ->
     b = allocated (snd midState) /\
     cap (deref (snd (snd (resize e 5046 midState))) b) = 5046 /\
     5046 <= cap (deref (snd st1) b)).
Proof.
  intros e.
  assert (H0 : (buf e < allocated (snd midState))%nat) by (vm_compute; lia).
  assert (H1 : buf e ∉ pool (fst midState))
    by (vm_compute; apply not_elem_of_nil).
  assert (H2 : len (bytes (deref (snd midState) (buf e)))
               <= cap (deref (snd midState) (buf e)))
    by (vm_compute; discriminate).
  assert (H3 : cap (deref (snd midState) (buf e)) < 5046)
    by (vm_compute; reflexivity).
  split; [repeat split; assumption |].
  exact (resize_replacement e 5046 (fst midState) (snd midState) H0 H1 H2 H3).
Defined.

(** The estimate counts the format, not what the operands expand to: a
    format of 5004 bytes with two operands of nine digits is estimated at
    5050 bytes and rendered in 5065. *)
Example operands_outgrow_the_estimate :
  let format := filler 5000 +:+ "%d%d" in
  let args : list arg := [AInt 123456789; AInt 123456789] in
  Fragment.Sprintf_frag format args
  = Some (filler 5000 +:+ "123456789123456789") /\
  estimate INFO "2023-11-14 22:13:20.000 UTC" format = 5050 /\
  len (rendered INFO "2023-11-14 22:13:20.000 UTC" format args) = 5065.
Proof. split; [| split]; vm_compute; reflexivity. Qed.

(** Even where the replacement has the estimated capacity, above four times
    [bufSize], the last byte does not fit: the buffer grows once more. *)
Example large_message_grows_again :
  let format := filler 5000 in
  exists e st',
    fst (newEvent INFO (New, world0)) = Some e /\
    msgf (Some e) format [] (snd (newEvent INFO (New, world0))) = Returns st' /\
    estimate INFO "2023-11-14 22:13:20.000 UTC" format = 5046 /\
    len (bytes (deref (snd st') 1)) = 5047 /\
    cap (deref (snd st') 1) = Fragment.grow 5046 5047.
Proof.
  eexists _, _. split; [reflexivity |]. split; [vm_compute; reflexivity |].
  split; [vm_compute; reflexivity |]. split; vm_compute; reflexivity.
Qed.

(** When the leased buffer is large enough [msgf] keeps it, and the deferred
    [putBuffer] is applied to the very buffer the builder holds. *)
Lemma held_without_resize `{GoLib} (e : event) (format : string)
  (args : list arg) (st : State) :
  estimate (ev_level e) (fst (getFormattedTime st)) format
  <= cap (deref (snd (snd (getFormattedTime st))) (buf e)) ->
  held e format args st = buf e.
Proof.
  intros Hfit. unfold held, msgf_body.
  destruct (getFormattedTime st) as [ts [l1 w1]]. simpl in Hfit.
  unfold resize. apply Z.ltb_ge in Hfit. rewrite Hfit. reflexivity.
Qed.

(** C7 (the code departs from the claim).  A message of 1100 bytes on a
    fresh logger: [msgf] replaces the leased buffer (address 0) by a second
    one from the pool (address 1) and holds that one when it returns; the
    deferred call puts back address 0.  The buffer held, of a capacity
    below the discard threshold 4096, is in no pool. *)
Theorem replaced_buffer_not_released :
  exists e st',
    midEvent = Some e /\ buf e = 0%nat /\
    held e midMessage [] midState = 1%nat /\
    msgf (Some e) midMessage [] midState = Returns st' /\
    pool (fst st') = [0%nat] /\ bufPool (fst st') = [] /\
    cap (deref (snd st') 1) <= int_mul (bufSize (fst st')) 4.
Proof.
  eexists _, _. split; [reflexivity |]. split; [reflexivity |].
  split; [vm_compute; reflexivity |]. split; [vm_compute; reflexivity |].
  split; [vm_compute; reflexivity |]. split; [vm_compute; reflexivity |].
  vm_compute. discriminate.
Qed.

(** Whatever the library's growth policy, that run puts back address 0 and
    only address 0. *)
Lemma replaced_buffer_not_released_any_library `{GoLib} :
  forall e, fst (newEvent INFO (New, world0)) = Some e ->
  held e midMessage [] (snd (newEvent INFO (New, world0))) = 1%nat /\
  pool (fst (final (msgf (Some e) midMessage []
                      (snd (newEvent INFO (New, world0)))))) = [0%nat].
Proof.
  intros e He. vm_compute in He. injection He as <-.
  split; [vm_compute; reflexivity |].
  unfold msgf, msgf_body.
  vm_compute. reflexivity.
Qed.

(** ** Sorting the snapshot *)

(** *** The loops of [insertionSortCmpFunc] insert from the right *)

Section InsertionSort.
Context {E : Type} (cmp : E -> E -> Z).

Lemma sink_length (x : E) (rp : list E) :
  length (sink cmp x rp) = S (length rp).
Proof.
  induction rp as [|y rp IH]; simpl; [reflexivity |].
  destruct (cmp x y <? 0); simpl; [now rewrite IH | reflexivity].
Qed.

Lemma sink_Permutation (x : E) (rp : list E) : sink cmp x rp ≡ₚ x :: rp.
Proof.
  induction rp as [|y rp IH]; simpl; [reflexivity |].
  destruct (cmp x y <? 0); [| reflexivity].
  rewrite IH. apply Permutation_swap.
Qed.

Lemma sinkAll_snoc (data : list E) (x : E) :
  sinkAll cmp (data ++ [x]) = sink cmp x (sinkAll cmp data).
Proof. unfold sinkAll. now rewrite foldl_snoc. Qed.

Lemma sinkAll_length (data : list E) :
  length (sinkAll cmp data) = length data.
Proof.
  induction data as [|x data IH] using rev_ind; [reflexivity |].
  rewrite sinkAll_snoc, sink_length, IH, length_app. simpl. lia.
Qed.

Lemma sinkAll_Permutation (data : list E) : sinkAll cmp data ≡ₚ data.
Proof.
  induction data as [|x data IH] using rev_ind; [reflexivity |].
  rewrite sinkAll_snoc, sink_Permutation, IH.
  apply Permutation_cons_append.
Qed.

(** The inner loop started at the end of a prefix [p] inserts [x] into it
    from the right. *)
Lemma insertionStep_spec (p : list E) (x : E) (s : list E) :
  insertionStep cmp (p ++ x :: s) (length p)
  = reverse (sink cmp x (reverse p)) ++ s.
Proof.
  revert x s. induction p as [|y p IH] using rev_ind; intros x s.
  - reflexivity.
  - rewrite length_app, Nat.add_1_r. cbn [insertionStep length].
    rewrite (list_lookup_middle (p ++ [y]) s x)
      by (rewrite length_app; simpl; lia).
    rewrite <- app_assoc. cbn [app].
    rewrite (list_lookup_middle p (x :: s) y) by reflexivity.
    rewrite reverse_snoc. cbn [sink].
    destruct (cmp x y <? 0).
    + rewrite reverse_cons, <- app_assoc.
      rewrite (insert_app_r_alt p _ (S (length p))) by lia.
      replace (S (length p) - length p)%nat with 1%nat by lia.
      change (<[1%nat:=y]> (y :: x :: s)) with (y :: y :: s).
      rewrite (insert_app_r_alt p _ (length p)) by lia.
      rewrite Nat.sub_diag.
      change (<[0%nat:=x]> (y :: y :: s)) with (x :: y :: s).
      rewrite IH. reflexivity.
    + rewrite !reverse_cons, reverse_involutive, <- !app_assoc. reflexivity.
Qed.

Lemma insertion_prefix (data : list E) (k : nat) :
  (k < length data)%nat ->
  foldl (insertionStep cmp) data (seq 1 k)
  = reverse (sinkAll cmp (take (S k) data)) ++ drop (S k) data.
Proof.
  induction k as [|k IH]; intros Hk.
  - destruct data as [|d data]; [simpl in Hk; lia |]. reflexivity.
  - rewrite seq_S, foldl_snoc, IH by lia. 
    destruct (lookup_lt_is_Some_2 data (S k) Hk) as [x Hx].
    rewrite (drop_S _ _ _ Hx), (take_S_r _ _ _ Hx), sinkAll_snoc.
    replace (1 + k)%nat with (length (reverse (sinkAll cmp (take (S k) data)))).
    + rewrite insertionStep_spec, reverse_involutive. reflexivity.
    + rewrite length_reverse, sinkAll_length, length_take. lia.
Qed.

(** The two loops together insert the elements one after the other. *)
Lemma insertionSort_spec (data : list E) :
  insertionSortCmpFunc cmp data = reverse (sinkAll cmp data).
Proof.
  unfold insertionSortCmpFunc.
  destruct data as [|d data]; [reflexivity |].
  rewrite insertion_prefix by (simpl; lia).
  replace (S (length (d :: data) - 1)) with (length (d :: data))
    by (simpl; lia).
  now rewrite firstn_all, drop_all, app_nil_r.
Qed.

Lemma insertionSort_Permutation (data : list E) :
  insertionSortCmpFunc cmp data ≡ₚ data.
Proof.
  rewrite insertionSort_spec, reverse_Permutation.
  apply sinkAll_Permutation.
Qed.

End InsertionSort.

(** *** With a comparison that orders by descending key, the sort is stable *)

Section KeyedSort.
Context {E : Type} (cmp : E -> E -> Z) (key : E -> Z) (P : E -> Prop).
Hypothesis Hcmp :
  forall a b, P a -> P b -> (cmp a b <? 0) = (key b <? key a).

Let asc (a b : E) : Prop := key a <= key b.
Let desc (a b : E) : Prop := key b <= key a.

Lemma sink_sorted (x : E) (rp : list E) :
  P x -> Forall P rp ->
  StronglySorted asc rp -> StronglySorted asc (sink cmp x rp).
Proof.
  intros Hx Hrp Hs. induction Hs as [|y rp Hs IH Hy]; simpl.
  - repeat constructor.
  - inversion Hrp as [|? ? Py Prp]; subst.
    rewrite (Hcmp x y Hx Py).
    destruct (Z.ltb_spec (key y) (key x)) as [Hlt|Hge].
    + constructor; [apply IH; assumption |].
      rewrite sink_Permutation. constructor; [unfold asc; lia | exact Hy].
    + constructor; [constructor; assumption |].
      constructor; [exact Hge |].
      eapply Forall_impl; [exact Hy |]. unfold asc. intros z Hz. simpl in *. lia.
Qed.

Lemma sinkAll_sorted (data : list E) :
  Forall P data -> StronglySorted asc (sinkAll cmp data).
Proof.
  induction data as [|x data IH] using rev_ind; intros HP.
  - constructor.
  - apply Forall_app in HP as [HPd HPx]. inversion HPx; subst.
    rewrite sinkAll_snoc. apply sink_sorted.
    + assumption.
    + now rewrite sinkAll_Permutation.
    + apply IH, HPd.
Qed.

Lemma StronglySorted_reverse (l : list E) :
  StronglySorted asc l -> StronglySorted desc (reverse l).
Proof.
  induction 1 as [|x l Hs IH Hx]; [constructor |].
  rewrite reverse_cons. apply StronglySorted_app_2.
  - intros a b Ha Hb. apply list_elem_of_singleton in Hb as ->.
    apply elem_of_reverse_2 in Ha; rewrite reverse_involutive in Ha.
    rewrite Forall_forall in Hx. apply Hx. exact Ha.
  - exact IH.
  - repeat constructor.
Qed.

Lemma sink_stable (k : Z) (x : E) (rp : list E) :
  P x -> Forall P rp ->
  filter (fun e => key e = k) (reverse (sink cmp x rp))
  = filter (fun e => key e = k) (reverse rp ++ [x]).
Proof.
  intros Hx Hrp. induction Hrp as [|y rp Py Prp IH]; [reflexivity |].
  simpl. rewrite (Hcmp x y Hx Py).
  destruct (Z.ltb_spec (key y) (key x)) as [Hlt|Hge].
  - rewrite !reverse_cons, !filter_app, IH, filter_app, <- !app_assoc.
    f_equal. rewrite !filter_cons, !filter_nil.
    destruct (decide (key x = k)), (decide (key y = k)); try reflexivity. lia.
  - rewrite !reverse_cons. reflexivity.
Qed.

Lemma sinkAll_stable (k : Z) (data : list E) :
  Forall P data ->
  filter (fun e => key e = k) (reverse (sinkAll cmp data))
  = filter (fun e => key e = k) data.
Proof.
  induction data as [|x data IH] using rev_ind; intros HP; [reflexivity |].
  apply Forall_app in HP as [HPd HPx]. inversion HPx; subst.
  rewrite sinkAll_snoc, sink_stable, !filter_app, IH.
  - reflexivity.
  - exact HPd.
  - assumption.
  - now rewrite sinkAll_Permutation.
Qed.

(** Insertion sort under such a comparison: a permutation, in descending
    key order, the elements of equal key in their original order. *)
Lemma insertionSort_stable_sort (data : list E) :
  Forall P data ->
  insertionSortCmpFunc cmp data ≡ₚ data /\
  StronglySorted desc (insertionSortCmpFunc cmp data) /\
  forall k, filter (fun e => key e = k) (insertionSortCmpFunc cmp data)
            = filter (fun e => key e = k) data.
Proof.
  intros HP. split; [apply insertionSort_Permutation |].
  rewrite insertionSort_spec. split.
  - apply StronglySorted_reverse, sinkAll_sorted, HP.
  - intros k. apply sinkAll_stable, HP.
Qed.

End KeyedSort.

Lemma wrap_small (z : Z) : MinInt <= z <= MaxInt -> wrap z = z.
Proof.
  unfold MinInt, MaxInt, wrap. intros Hz.
  rewrite Z.mod_small by lia. lia.
Qed.

Lemma byPriority_bounded (a b : Hook) :
  bounded a -> bounded b ->
  (byPriority a b <? 0) = (priority b <? priority a).
Proof.
  unfold bounded, byPriority, int_sub. intros Ha Hb.
  rewrite wrap_small by (unfold MinInt, MaxInt; lia).
  destruct (Z.ltb_spec (priority b - priority a) 0),
           (Z.ltb_spec (priority b) (priority a)); try reflexivity; lia.
Qed.

Lemma SortFunc_small `{GoLib} {E : Type} (cmp : E -> E -> Z) (x : list E) :
  (length x <= maxInsertion)%nat -> SortFunc cmp x = insertionSortCmpFunc cmp x.
Proof. intros Hn. unfold SortFunc. apply Nat.leb_le in Hn. now rewrite Hn. Qed.

(** For at most twelve hooks whose priorities lie in a range where no
    difference wraps around, the snapshot is a permutation of the registry,
    in descending priority order, and the hooks of each priority keep their
    insertion order. *)
Theorem dispatch_order_small_registry `{GoLib} (hs : list Hook) :
  (length hs <= maxInsertion)%nat -> Forall bounded hs ->
  SortFunc byPriority hs ≡ₚ hs /\
  StronglySorted (fun a b => priority b <= priority a) (SortFunc byPriority hs) /\
  forall k, filter (fun h => priority h = k) (SortFunc byPriority hs)
            = filter (fun h => priority h = k) hs.
Proof.
  intros Hn Hb. rewrite SortFunc_small by exact Hn.
  exact (insertionSort_stable_sort byPriority priority bounded
           byPriority_bounded hs Hb).
Qed.

(** C9 (the code departs from the claim).  With the priorities [MaxInt]
    and [-1], registered in that order, the comparison
    [b.priority - a.priority] wraps around to a negative number; the sort
    swaps the two records and the hook of priority [-1] is invoked before
    the hook of priority [MaxInt]. *)
Theorem priority_difference_wraps :
  map priority (hooks rangeLogger) = [MaxInt; -1] /\
  byPriority (mkHook (call casual) (-1) (pointerText casual))
             (mkHook (call urgent) MaxInt (pointerText urgent)) = MinInt /\
  map priority (SortFunc byPriority (hooks rangeLogger)) = [-1; MaxInt] /\
  ~ StronglySorted (fun a b => priority b <= priority a)
      (SortFunc byPriority (hooks rangeLogger)) /\
  exists st',
    Info "m" [] (rangeLogger, world0) = Returns st' /\
    invoked (effectsOf (runWorkers st'))
    = [pointerText casual; pointerText urgent] /\
    map priority (hooks (fst (runWorkers st'))) = [MaxInt; -1].
Proof.
  split; [reflexivity |]. split; [vm_compute; reflexivity |].
  split; [vm_compute; reflexivity |]. split.
  { assert (E : SortFunc byPriority (hooks rangeLogger)
                = [mkHook (call casual) (-1) (pointerText casual);
                   mkHook (call urgent) MaxInt (pointerText urgent)])
      by (vm_compute; reflexivity).
    rewrite E. intros S. inversion S as [|? ? _ F]; subst.
    inversion F as [|? ? Hle _]; subst. cbn in Hle. unfold MaxInt in Hle. lia. }
  eexists. split; [vm_compute; reflexivity |].
  split; vm_compute; reflexivity.
Qed.

(** ** Dispatch *)

(** The loop over the snapshot, in closed form. *)
Lemma foldl_runHook (lv : Level) (msg : string) (hs : list Hook)
  (l : Logger) (w : World) :
  foldl (runHook lv msg) (l, w) hs
  = (set_hooks (survivors lv msg (hooks l) hs) l,
     emit (passEffects lv msg hs) w).
Proof.
  revert l w. induction hs as [|h hs IH]; intros l w.
  - unfold survivors, passEffects, emit. simpl. rewrite app_nil_r.
    destruct l, w; reflexivity.
  - cbn [foldl]. unfold runHook at 2. destruct (fn h lv msg) as [err|] eqn:Hfn.
    + rewrite IH. unfold survivors, passEffects, removeHook, emit. simpl.
      rewrite Hfn, <- !app_assoc. destruct l; reflexivity.
    + rewrite IH. unfold survivors, passEffects, emit. simpl.
      rewrite Hfn, <- !app_assoc. reflexivity.
Qed.

Lemma runJob_spec `{GoLib} (j : Job) (l : Logger) (w : World) :
  let snapshot := SortFunc byPriority (hooks l) in
  runJob j (l, w)
  = (set_wg (Nat.pred (wg l))
       (set_hooks (survivors (job_level j) (job_msg j) (hooks l) snapshot) l),
     emit (passEffects (job_level j) (job_msg j) snapshot) w).
Proof. cbv zeta. unfold runJob. rewrite foldl_runHook. reflexivity. Qed.

Lemma deleteFirst_sublist (i : string) (hs : list Hook) :
  sublist (deleteFirst i hs) hs.
Proof.
  induction hs as [|h hs IH]; simpl; [constructor |].
  destruct (String.eqb (id h) i).
  - now apply sublist_cons.
  - now apply sublist_skip.
Qed.

(** A pass only deletes: the live list keeps its order. *)
Lemma survivors_sublist (lv : Level) (msg : string) (live hs : list Hook) :
  sublist (survivors lv msg live hs) live.
Proof.
  revert live. induction hs as [|h hs IH]; intros live; simpl.
  - reflexivity.
  - unfold survivors in *. simpl. destruct (fn h lv msg).
    + etransitivity; [apply IH | apply deleteFirst_sublist].
    + apply IH.
Qed.

Lemma filter_all {A : Type} (P : A -> Prop) `{forall x, Decision (P x)}
  (l : list A) :
  Forall P l -> filter P l = l.
Proof.
  induction 1 as [|x l Hx Hl IH]; [reflexivity |].
  rewrite filter_cons_True by exact Hx. now rewrite IH.
Qed.

Lemma filter_agree {A : Type} (P Q : A -> Prop) `{forall x, Decision (P x)}
  `{forall x, Decision (Q x)} (l : list A) :
  (forall x, x ∈ l -> P x <-> Q x) -> filter P l = filter Q l.
Proof.
  induction l as [|x l IH]; intros Hag; [reflexivity |].
  rewrite !filter_cons.
  assert (Hx : P x <-> Q x) by (apply Hag; left).
  rewrite IH by (intros y Hy; apply Hag; now right).
  destruct (decide (P x)), (decide (Q x)); tauto.
Qed.

Lemma NoDup_map_inj {A B : Type} (f : A -> B) (l : list A) (x y : A) :
  NoDup (map f l) -> x ∈ l -> y ∈ l -> f x = f y -> x = y.
Proof.
  induction l as [|z l IH]; intros Hnd Hx Hy Hf; [inversion Hx |].
  simpl in Hnd. apply NoDup_cons in Hnd as [Hz Hnd].
  apply elem_of_cons in Hx as [->|Hx]; apply elem_of_cons in Hy as [->|Hy].
  - reflexivity.
  - exfalso. apply Hz. rewrite Hf. apply (list_elem_of_fmap_2 f), Hy.
  - exfalso. apply Hz. rewrite <- Hf. apply (list_elem_of_fmap_2 f), Hx.
  - now apply IH.
Qed.

Lemma deleteFirst_NoDup (i : string) (hs : list Hook) :
  NoDup (map id hs) ->
  deleteFirst i hs = filter (fun h => id h <> i) hs.
Proof.
  induction hs as [|h hs IH]; intros Hnd; [reflexivity |].
  simpl in *. apply NoDup_cons in Hnd as [Hh Hnd].
  destruct (String.eqb_spec (id h) i) as [<-|Hne].
  - rewrite filter_cons_False by tauto.
    symmetry. apply filter_all, Forall_forall. intros h' Hh' Heq.
    apply Hh. rewrite <- Heq. apply (list_elem_of_fmap_2 id), Hh'.
  - rewrite filter_cons_True by exact Hne. now rewrite IH.
Qed.

Lemma survivors_by_id (lv : Level) (msg : string) (live hs : list Hook) :
  NoDup (map id live) ->
  survivors lv msg live hs
  = filter (fun h => id h ∉ failedIds lv msg hs) live.
Proof.
  revert live. induction hs as [|h hs IH]; intros live Hnd.
  - symmetry. apply filter_all, Forall_forall. intros h' _ Hin. inversion Hin.
  - unfold survivors in *. cbn [foldl]. unfold failedIds in *.
    destruct (fn h lv msg) as [err|] eqn:Hfn.
    + rewrite filter_cons_True by (rewrite Hfn; discriminate).
      rewrite IH.
      * rewrite deleteFirst_NoDup by exact Hnd. rewrite list_filter_filter.
        apply list_filter_iff. intros h'. cbn [map]. rewrite not_elem_of_cons.
        tauto.
      * apply (sublist_NoDup _ (map id live)); [exact Hnd |].
        apply (fmap_sublist id), deleteFirst_sublist.
    + rewrite filter_cons_False by (rewrite Hfn; tauto). now apply IH.
Qed.

Lemma survivors_distinct_ids (lv : Level) (msg : string)
  (live hs : list Hook) :
  NoDup (map id live) -> hs ≡ₚ live ->
  survivors lv msg live hs = filter (fun h => fn h lv msg = None) live.
Proof.
  intros Hnd Hperm. rewrite survivors_by_id by exact Hnd.
  apply filter_agree. intros h Hh. unfold failedIds. split.
  - intros Hnot. destruct (fn h lv msg) as [err|] eqn:Hfn; [| reflexivity].
    exfalso. apply Hnot. apply (list_elem_of_fmap_2 id).
    apply list_elem_of_filter. split; [rewrite Hfn; discriminate |].
    now rewrite Hperm.
  - intros Hok Hin. apply list_elem_of_fmap in Hin as (h' & Hid & Hin).
    apply list_elem_of_filter in Hin as [Hfail Hin].
    rewrite Hperm in Hin.
    assert (h = h') by (eapply (NoDup_map_inj id); eassumption).
    subst h'. contradiction.
Qed.

Lemma invoked_passEffects (lv : Level) (msg : string) (hs : list Hook) :
  invoked (passEffects lv msg hs) = map id hs.
Proof.
  induction hs as [|h hs IH]; [reflexivity |].
  unfold invoked, passEffects in *. cbn [flat_map]. rewrite flat_map_app.
  rewrite IH. destruct (fn h lv msg); reflexivity.
Qed.

Lemma stderrLines_passEffects (lv : Level) (msg : string) (hs : list Hook) :
  stderrLines (passEffects lv msg hs)
  = flat_map (fun h => match fn h lv msg with
                       | None => []
                       | Some err => ["Hook error: " +:+ err +:+ newline]
                       end) hs.
Proof.
  induction hs as [|h hs IH]; [reflexivity |].
  unfold stderrLines, passEffects in *. cbn [flat_map]. rewrite flat_map_app.
  rewrite IH. destruct (fn h lv msg); reflexivity.
Qed.

(** X26 (the part of C9 that holds).  For a dispatch pass over at most
    twelve hooks whose priorities lie in a range where no difference wraps
    around: the callbacks are invoked in the order of the snapshot, which
    is a permutation of the registry in descending priority order with the
    hooks of each priority in their insertion order; and the pass works on
    a copy, the live list keeping the order of its hooks (the pass only
    deletes from it). *)
Theorem dispatch_in_priority_order `{GoLib} (j : Job) (l : Logger)
  (w : World) :
  (length (hooks l) <= maxInsertion)%nat ->
  Forall bounded (hooks l) ->
  let snapshot := SortFunc byPriority (hooks l) in
  let st' := runJob j (l, w) in
  invoked (drop (length (effects w)) (effects (snd st'))) = map id snapshot /\
  snapshot ≡ₚ hooks l /\
  StronglySorted (fun a b => priority b <= priority a) snapshot /\
  (forall k, filter (fun h => priority h = k) snapshot
             = filter (fun h => priority h = k) (hooks l)) /\
  sublist (hooks (fst st')) (hooks l).
Proof.
  intros Hn Hb snapshot st'. subst st'. rewrite runJob_spec.
  cbn [fst snd hooks set_wg set_hooks effects emit].
  split; [rewrite drop_app_length; apply invoked_passEffects |].
  destruct (dispatch_order_small_registry (hooks l) Hn Hb) as (P & S & F).
  split; [exact P |]. split; [exact S |]. split; [exact F |].
  apply survivors_sublist.
Qed.

Lemma dispatch_in_priority_order_witness :
  ((length (hooks threeHooks) <= maxInsertion)%nat /\
   Forall bounded (hooks threeHooks)) /\
  (let snapshot := SortFunc byPriority (hooks threeHooks) in
   let st' := runJob (mkJob INFO "m") (threeHooks, world0) in
   invoked (drop (length (effects world0)) (effects (snd st')))
   = map id snapshot /\
   snapshot ≡ₚ hooks threeHooks /\
   StronglySorted (fun a b => priority b <= priority a) snapshot /\
   (forall k, filter (fun h => priority h = k) snapshot
              = filter (fun h => priority h = k) (hooks threeHooks)) /\
   sublist (hooks (fst st')) (hooks threeHooks)) /\
  map priority (hooks threeHooks) = [1; 5; 1] /\
  invoked (effects (snd (runJob (mkJob INFO "m") (threeHooks, world0))))
  = [pointerText second; pointerText first; pointerText third].
Proof.
  assert (Hn : (length (hooks threeHooks) <= maxInsertion)%nat)
    by (vm_compute; lia).
  assert (Hb : Forall bounded (hooks threeHooks))
    by (repeat constructor; vm_compute; congruence).
  split; [exact (conj Hn Hb) |].
  split; [| split; vm_compute; reflexivity].
  exact (dispatch_in_priority_order (mkJob INFO "m") threeHooks world0 Hn Hb).
Defined.

(** X22 (the part of C4 that holds).  When the registered ids are pairwise
    distinct and the snapshot is a permutation of the registry, a pass
    invokes every hook of the snapshot once, prints one [Hook error:] line
    per hook that fails, and leaves in the registry exactly the hooks that
    returned nil, in their order. *)
Theorem dispatch_removes_failing_hooks `{GoLib} (j : Job) (l : Logger)
  (w : World) :
  NoDup (map id (hooks l)) ->
  SortFunc byPriority (hooks l) ≡ₚ hooks l ->
  let snapshot := SortFunc byPriority (hooks l) in
  let st' := runJob j (l, w) in
  hooks (fst st')
  = filter (fun h => fn h (job_level j) (job_msg j) = None) (hooks l) /\
  effects (snd st')
  = effects w ++ passEffects (job_level j) (job_msg j) snapshot /\
  invoked (passEffects (job_level j) (job_msg j) snapshot) = map id snapshot /\
  stderrLines (passEffects (job_level j) (job_msg j) snapshot)
  = flat_map (fun h => match fn h (job_level j) (job_msg j) with
                       | None => []
                       | Some err => ["Hook error: " +:+ err +:+ newline]
                       end) snapshot.
Proof.
  intros Hnd Hperm snapshot st'. subst st'. rewrite runJob_spec. cbn [fst snd].
  split; [| split; [reflexivity | split]].
  - cbn [hooks set_wg set_hooks]. now apply survivors_distinct_ids.
  - apply invoked_passEffects.
  - apply stderrLines_passEffects.
Qed.

(** C4 (the code departs from the claim).  Two closures of one function
    literal get the same id.  In the first pass the healthy hook returns
    nil and the failing one an error; [removeHook] deletes the first record
    with the failing hook's id, which is the healthy hook's.  The failing
    hook stays registered and fails again in the second pass. *)
Theorem shared_id_removes_the_healthy_hook :
  map id (hooks factoryLogger) = ["0x1000"; "0x1000"] /\
  map (fun h => fn h INFO "first") (hooks factoryLogger) = [None; Some "boom"] /\
  exists st1 st2,
    Info "first" [] (factoryLogger, world0) = Returns st1 /\
    stderrLines (produced world0 (Returns (runWorkers st1)))
    = ["Hook error: boom" +:+ newline] /\
    map (fun h => fn h INFO "second") (hooks (fst (runWorkers st1)))
    = [Some "boom"] /\
    Info "second" [] (runWorkers st1) = Returns st2 /\
    stderrLines (produced (snd (runWorkers st1)) (Returns (runWorkers st2)))
    = ["Hook error: boom" +:+ newline].
Proof.
  split; [reflexivity |]. split; [reflexivity |].
  eexists _, _. split; [vm_compute; reflexivity |].
  split; [vm_compute; reflexivity |]. split; [vm_compute; reflexivity |].
  split; [vm_compute; reflexivity |]. vm_compute. reflexivity.
Qed.

(** ** Termination *)

Lemma passEffects_hook (lv : Level) (msg : string) (hs : list Hook) :
  Forall (fun e => is_hook_effect e = true) (passEffects lv msg hs).
Proof.
  induction hs as [|h hs IH]; [constructor |].
  unfold passEffects in *. cbn [flat_map]. apply Forall_app. split; [| exact IH].
  destruct (fn h lv msg); repeat constructor.
Qed.

Lemma foldl_runJob_running `{GoLib} (js : list Job) (l : Logger) (w : World) :
  exists l' w' effs,
    foldl (fun s j => runJob j s) (l, w) js = (l', w') /\
    wg l' = (wg l - length js)%nat /\ workerPool l' = workerPool l /\
    effects w' = effects w ++ effs /\
    Forall (fun e => is_hook_effect e = true) effs /\
    exitFunc w' = exitFunc w /\ panicFunc w' = panicFunc w.
Proof.
  revert l w. induction js as [|j js IH]; intros l w.
  - exists l, w, []. simpl. rewrite app_nil_r, Nat.sub_0_r.
    repeat split; constructor.
  - cbn [foldl]. rewrite runJob_spec.
    match goal with
    | |- context [foldl _ (?l1, ?w1) js] =>
        destruct (IH l1 w1) as (l' & w' & effs & E & Hwg & Hpool & Heff & Hq & Hx & Hp)
    end.
    exists l', w', (passEffects (job_level j) (job_msg j)
                      (SortFunc byPriority (hooks l)) ++ effs).
    split; [exact E |]. cbn in Hwg, Hpool, Heff, Hx, Hp.
    split; [rewrite Hwg; simpl; lia |]. split; [exact Hpool |].
    split; [rewrite Heff, <- app_assoc; reflexivity |].
    split; [apply Forall_app; split; [apply passEffects_hook | exact Hq] |].
    split; assumption.
Qed.

Lemma Wait_running `{GoLib} (l : Logger) (w : World) :
  stopped (workerPool l) = false ->
  (wg l <= length (jobs (workerPool l)))%nat ->
  exists l' w' effs,
    Wait (l, w) = (true, (l', w')) /\
    effects w' = effects w ++ effs ++ [EWaited] /\
    Forall (fun e => is_hook_effect e = true) effs /\
    exitFunc w' = exitFunc w /\ panicFunc w' = panicFunc w.
Proof.
  intros Hrun Hwg. unfold Wait, runWorkers. rewrite Hrun.
  destruct (foldl_runJob_running (jobs (workerPool l))
              (set_workerPool (mkPool [] false) l) w)
    as (l' & w' & effs & E & Hwg' & _ & Heff & Hq & Hx & Hp).
  rewrite E. cbn in Hwg'.
  replace (wg l' =? 0)%nat with true by (symmetry; apply Nat.eqb_eq; lia).
  exists l', (emit [EWaited] w'), effs.
  split; [reflexivity |]. cbn. rewrite Heff, <- app_assoc.
  repeat split; assumption.
Qed.

Lemma tail_running `{GoLib} (lv : Level) (format : string) (args : list arg)
  (l : Logger) (w : World) :
  stopped (workerPool l) = false ->
  (wg l <= length (jobs (workerPool l)))%nat ->
  let o := andThen (fatalBranch lv (l, w)) (panicBranch lv format args) in
  exists effs,
    effects (snd (final o))
    = effects w ++ effs ++ terminalEffects lv format args /\
    Forall (fun e => is_hook_effect e = true) effs /\
    ending o = terminalEnding lv format args w.
Proof.
  intros Hrun Hwg o. subst o.
  unfold fatalBranch, panicBranch, terminalEffects, terminalEnding.
  destruct (Z.eqb_spec lv FATAL) as [->|Hnf].
  - destruct (Wait_running l w Hrun Hwg)
      as (l' & w' & effs & E & Heff & Hq & Hx & Hp).
    rewrite E. cbn [exitFunc emit]. rewrite Hx.
    exists effs. destruct (exitFunc w); cbn; rewrite Heff, <- !app_assoc;
      repeat split; assumption.
  - cbn [andThen]. destruct (Z.eqb_spec lv PANIC) as [->|Hnp].
    + destruct (Wait_running l w Hrun Hwg)
        as (l' & w' & effs & E & Heff & Hq & Hx & Hp).
      rewrite E. cbn [panicFunc emit]. rewrite Hp.
      exists effs. destruct (panicFunc w); cbn; rewrite Heff, <- !app_assoc;
        repeat split; assumption.
    + exists []. cbn. rewrite app_nil_r. repeat split. constructor.
Qed.

Lemma executeHooks_running (lv : Level) (msg : string) (l : Logger) :
  stopped (workerPool l) = false ->
  (wg l <= length (jobs (workerPool l)))%nat ->
  stopped (workerPool (executeHooks lv msg l)) = false /\
  (wg (executeHooks lv msg l)
   <= length (jobs (workerPool (executeHooks lv msg l))))%nat.
Proof.
  intros Hrun Hwg. unfold executeHooks, submit. cbn. rewrite Hrun. cbn.
  rewrite ?Hrun, length_app. cbn. split; [reflexivity | lia].
Qed.

Lemma hook_effect_not_terminal (e : Effect) :
  is_hook_effect e = true -> is_terminal e = false.
Proof. destruct e; simpl; congruence. Qed.

Lemma dispatch_running `{GoLib} (lv : Level) (format : string)
  (args : list arg) (l : Logger) :
  stopped (workerPool l) = false ->
  (wg l <= length (jobs (workerPool l)))%nat ->
  stopped (workerPool (dispatch lv format args l)) = false /\
  (wg (dispatch lv format args l)
   <= length (jobs (workerPool (dispatch lv format args l))))%nat.
Proof.
  intros Hrun Hwg. unfold dispatch.
  destruct (hooks l); [split; assumption | now apply executeHooks_running].
Qed.

(** X21 (the part of C5 that holds).  While the worker pool runs and no
    job was dropped, an emission that passes the gate ends as its level
    says: at
    [FATAL] the last effects are the wait, the stop and [exitFunc(1)]; at
    [PANIC] the wait, the stop and [panicFunc] with the general formatter's
    text; at every other level there is no wait, stop, exit or panic at
    all. *)
Theorem terminal_actions_on_running_pool `{GoLib} (lv : Level)
  (format : string) (args : list arg) (l : Logger) (w : World) :
  level l <= lv ->
  stopped (workerPool l) = false ->
  (wg l <= length (jobs (workerPool l)))%nat ->
  let o := logAt lv format args (l, w) in
  exists before,
    produced w o = before ++ terminalEffects lv format args /\
    Forall (fun e => is_terminal e = false) before /\
    ending o = terminalEnding lv format args w.
Proof.
  intros Hge Hrun Hwg o. subst o. unfold logAt, newEvent.
  apply Z.ltb_ge in Hge. rewrite Hge.
  pose proof (getBuffer_frame (bufSize l) l w) as F.
  destruct (getBuffer (bufSize l) (l, w)) as [b [l0 w0]].
  destruct F as ((pl & ->) & (_ & _ & Heff & Hx & Hp) & Hempty & _).
  destruct (msgf_body_shape (mkEvent lv b) format args (set_pool pl l) w0
              Hempty)
    as (l2 & w6 & Ebody & Heff6 & Hx6 & Hp6 & _ & Hwg2 & Hpool2).
  cbn [ev_level wg workerPool set_pool] in Ebody, Hwg2, Hpool2.
  destruct (dispatch_running lv format args l2) as [Hrun3 Hwg3];
    [now rewrite Hpool2 | now rewrite Hpool2, Hwg2 |].
  destruct (tail_running lv format args _ w6 Hrun3 Hwg3)
    as (effs & Etail & Hq & Hend).
  destruct (msgf_final (mkEvent lv b) format args (set_pool pl l, w0))
    as [Efin Eend].
  match type of Heff6 with
  | _ = _ ++ ?written => exists (written ++ effs)
  end.
  split; [| split].
  - unfold produced. rewrite Efin, Ebody, Etail, Heff6, Heff, <- !app_assoc.
    now rewrite drop_app_length.
  - apply Forall_app; split.
    + constructor; [reflexivity |].
      apply Forall_forall. intros x Hin.
      apply list_elem_of_fmap in Hin as (d & -> & _). reflexivity.
    + eapply Forall_impl; [exact Hq | apply hook_effect_not_terminal].
  - rewrite Eend, Ebody, Hend. unfold terminalEnding.
    now rewrite Hx6, Hp6, Hx, Hp.
Qed.

(** C5 (the code departs from the claim).  With [os.Exit] replaced by a
    function that returns, and one hook registered, a first [Fatal] waits,
    stops the pool and calls the exit function with status 1.  A second
    [Fatal] passes the gate and writes its line; [executeHooks] raises the
    wait-group counter, [submit] drops the job because the pool is stopped,
    and [wg.Wait()] never returns: the exit function is not called. *)
Theorem fatal_after_stop_never_exits :
  exists st1 st2,
    Fatal "first" [] (scenarioLogger, testWorld) = Returns st1 /\
    filter (fun e => is_exit e = true) (effectsOf st1) = [EExit 1] /\
    stopped (workerPool (fst st1)) = true /\
    FATAL >= level (fst st1) /\
    Fatal "second" [] st1 = Blocks st2 /\
    existsb is_output (produced (snd st1) (Blocks st2)) = true /\
    existsb is_exit (produced (snd st1) (Blocks st2)) = false /\
    wg (fst st2) = 1%nat /\ jobs (workerPool (fst st2)) = [].
Proof.
  eexists _, _. split; [vm_compute; reflexivity |].
  split; [vm_compute; reflexivity |]. split; [vm_compute; reflexivity |].
  split; [vm_compute; discriminate |]. split; [vm_compute; reflexivity |].
  split; [vm_compute; reflexivity |]. split; [vm_compute; reflexivity |].
  split; vm_compute; reflexivity.
Qed.

(** The same after [Close]: a hook added to a closed logger makes the next
    [Fatal] sleep for ever, with [os.Exit] itself installed. *)
Example fatal_after_Close_never_exits :
  exists st1 st2,
    Close (New, world0) = Returns st1 /\
    Fatal "x" [] (snd (AddHook recorder 0 (fst st1)), snd st1) = Blocks st2 /\
    existsb is_exit (effectsOf st2) = false.
Proof.
  eexists _, _. split; [vm_compute; reflexivity |].
  split; vm_compute; reflexivity.
Qed.

(** ** Runs of the general theorems *)

(** The header [msgf] writes is what the formatter makes of its format. *)
Example header_is_formatted :
  Fragment.Sprintf_frag "%s%s%s %s: "
    [AString (levelColors INFO); AString (Level_.PaddedString INFO);
     AString colorReset; AString "2023-11-14 22:13:20.000 UTC"]
  = Some (header INFO "2023-11-14 22:13:20.000 UTC").
Proof. reflexivity. Qed.

(** Up to twelve hooks the snapshot is a permutation of the registry,
    whatever the priorities. *)
Lemma snapshot_small_registry `{GoLib} (hs : list Hook) :
  (length hs <= maxInsertion)%nat -> SortFunc byPriority hs ≡ₚ hs.
Proof.
  intros Hn. rewrite SortFunc_small by exact Hn.
  apply insertionSort_Permutation.
Qed.

(** Three hooks of priorities 1, 5, 1: the hook of priority 5 runs first,
    the two of priority 1 in their insertion order; the failing hook, and
    only it, leaves the registry. *)
Example three_hooks_pass :
  NoDup (map id (hooks threeHooks)) /\
  Forall bounded (hooks threeHooks) /\
  map priority (hooks threeHooks) = [1; 5; 1] /\
  exists st',
    Info "m" [] (threeHooks, world0) = Returns st' /\
    invoked (effectsOf (runWorkers st'))
    = [pointerText second; pointerText first; pointerText third] /\
    stderrLines (effectsOf (runWorkers st'))
    = ["Hook error: down" +:+ newline] /\
    map id (hooks (fst (runWorkers st')))
    = [pointerText first; pointerText third].
Proof.
  split; [apply (bool_decide_unpack _); vm_compute; exact I |].
  split; [repeat constructor; vm_compute; congruence |].
  split; [reflexivity |].
  eexists. split; [vm_compute; reflexivity |].
  split; [vm_compute; reflexivity |]. split; vm_compute; reflexivity.
Qed.

Example three_hooks_order :
  SortFunc byPriority (hooks threeHooks) ≡ₚ hooks threeHooks /\
  StronglySorted (fun a b => priority b <= priority a)
    (SortFunc byPriority (hooks threeHooks)) /\
  forall k, filter (fun h => priority h = k)
              (SortFunc byPriority (hooks threeHooks))
            = filter (fun h => priority h = k) (hooks threeHooks).
Proof.
  apply dispatch_order_small_registry.
  - vm_compute. lia.
  - repeat constructor; vm_compute; congruence.
Qed.

Lemma dispatch_removes_failing_hooks_witness :
  (NoDup (map id (hooks threeHooks)) /\
   SortFunc byPriority (hooks threeHooks) ≡ₚ hooks threeHooks) /\
  let st' := runJob (mkJob INFO "m") (threeHooks, world0) in
  map id (hooks (fst st')) = [pointerText first; pointerText third] /\
  invoked (drop (length (effects world0)) (effects (snd st')))
  = [pointerText second; pointerText first; pointerText third] /\
  stderrLines (drop (length (effects world0)) (effects (snd st')))
  = ["Hook error: down" +:+ newline].
Proof.
  assert (Hnd : NoDup (map id (hooks threeHooks)))
    by (apply (bool_decide_unpack _); vm_compute; exact I).
  assert (Hperm : SortFunc byPriority (hooks threeHooks) ≡ₚ hooks threeHooks)
    by (apply snapshot_small_registry; vm_compute; lia).
  split; [split; assumption |].
  destruct (dispatch_removes_failing_hooks (mkJob INFO "m") threeHooks world0
              Hnd Hperm) as (Hh & Heff & Hinv & Herr).
  cbv zeta. rewrite Hh, Heff, drop_app_length, Hinv, Herr.
  split; [reflexivity |]. split; reflexivity.
Defined.

(** A first [Fatal] on a fresh logger with one hook, [os.Exit] installed:
    the hook runs, then the wait, the stop and the exit with status 1. *)
Lemma terminal_actions_on_running_pool_witness :
  (level scenarioLogger <= FATAL /\
   stopped (workerPool scenarioLogger) = false /\
   (wg scenarioLogger <= length (jobs (workerPool scenarioLogger)))%nat) /\
  exists before,
    produced world0 (Fatal "down" [] (scenarioLogger, world0))
    = before ++ [EWaited; EStopped; EExit 1] /\
    Forall (fun e => is_terminal e = false) before /\
    ending (Fatal "down" [] (scenarioLogger, world0)) = Exited 1.
Proof.
  assert (Hge : level scenarioLogger <= FATAL) by (vm_compute; discriminate).
  assert (Hrun : stopped (workerPool scenarioLogger) = false) by reflexivity.
  assert (Hwg : (wg scenarioLogger
                 <= length (jobs (workerPool scenarioLogger)))%nat)
    by (vm_compute; lia).
  split; [split; [exact Hge | split; [exact Hrun | exact Hwg]] |].
  exact (terminal_actions_on_running_pool FATAL "down" [] scenarioLogger world0
           Hge Hrun Hwg).
Defined.

(** [Panic] carries the general formatter's text, also where the line
    written to the sink does not (one operand of type [int]). *)
Example panic_payload :
  ending (Panic "code=%d" [AInt 7] (New, world0)) = Panicked "code=7" /\
  filter (fun e => is_terminal e = true)
    (produced world0 (Panic "code=%d" [AInt 7] (New, world0)))
  = [EWaited; EStopped; EPanic "code=7"].
Proof. split; vm_compute; reflexivity. Qed.

(** * Further properties *)

(** ** Labels *)

(** X1.  For each of the seven levels [DEBUG .. PANIC] the padded label is
    the bracketed name ([String]) filled with spaces to seven bytes, and
    the colour code has five bytes; so the text written before the message
    body has the same length, 19 bytes plus the timestamp, at every level:
    message bodies start in the same column. *)
Theorem labels_fixed_width (lv : Level) :
  DEBUG <= lv <= PANIC ->
  Level_.PaddedString lv = padTo 7 ("[" +:+ Level_.String lv +:+ "]") /\
  len (Level_.PaddedString lv) = 7 /\
  len (levelColors lv) = 5 /\
  forall timestamp, len (header lv timestamp) = 19 + len timestamp.
Proof.
  unfold DEBUG, PANIC. intros Hin.
  assert (Hcases : lv = 0 \/ lv = 1 \/ lv = 2 \/ lv = 3 \/ lv = 4 \/ lv = 5
                   \/ lv = 6) by lia.
  assert (Hhead : forall ts, len (header lv ts)
                  = len (levelColors lv) + len (Level_.PaddedString lv) + 7
                    + len ts).
  { intros ts. unfold header. rewrite !len_app.
    change (len colorReset) with 4. change (len " ") with 1.
    change (len ": ") with 2. lia. }
  assert (Hlab : Level_.PaddedString lv
                 = padTo 7 ("[" +:+ Level_.String lv +:+ "]") /\
                 len (Level_.PaddedString lv) = 7 /\ len (levelColors lv) = 5)
    by (destruct Hcases as [->|[->|[->|[->|[->|[->| ->]]]]]];
        repeat split; reflexivity).
  destruct Hlab as (A & B & C). split; [exact A |]. split; [exact B |].
  split; [exact C |]. intros ts. rewrite Hhead, B, C. lia.
Qed.

Lemma labels_fixed_width_witness :
  DEBUG <= CRITICAL <= PANIC /\
  Level_.PaddedString CRITICAL = "[CRIT] " /\
  len (header CRITICAL "2023-11-14 22:13:20.000 UTC") = 46.
Proof.
  assert (Hin : DEBUG <= CRITICAL <= PANIC) by (vm_compute; split; discriminate).
  destruct (labels_fixed_width CRITICAL Hin) as (A & _ & _ & D).
  split; [exact Hin |]. split; [rewrite A; reflexivity |].
  rewrite D. reflexivity.
Defined.

(** ** Destinations *)

Lemma writes_none (effs : list Effect) :
  Forall (fun e => is_write e = false) effs -> writes effs = [].
Proof.
  induction 1 as [|e effs He _ IH]; [reflexivity |].
  unfold writes in *. cbn [flat_map]. rewrite IH.
  destruct e; try reflexivity; discriminate.
Qed.

Lemma writes_line (line : string) (ds : list nat) (rest : list Effect) :
  Forall (fun e => is_write e = false) rest ->
  writes (EOutput line :: map (fun d => EWrite d line) ds ++ rest)
  = map (fun d => (d, line)) ds.
Proof.
  intros Hrest. unfold writes. cbn [flat_map app].
  rewrite flat_map_app. fold (writes rest). rewrite (writes_none rest Hrest).
  rewrite app_nil_r. induction ds as [|d ds IH]; [reflexivity |].
  cbn. now rewrite IH.
Qed.

Lemma logAt_writes `{GoLib} (lv : Level) (format : string) (args : list arg)
  (l : Logger) (w : World) :
  level l <= lv ->
  writes (produced w (logAt lv format args (l, w)))
  = map (fun d => (d, rendered lv (fst (getFormattedTime (l, w))) format args))
        (output l).
Proof.
  intros Hge. destruct (logAt_effects lv format args l w Hge) as (rest & E & Q).
  cbv zeta in E. unfold produced. rewrite E, drop_app_length.
  now apply writes_line.
Qed.

(** X2.  After [SetOutputs(outputs...)] an emission that passes the gate
    writes its line once to each of [outputs], in the order given, and to
    nothing else; with no destination given it writes to standard output
    alone, so the logger is never left without a destination.  After
    [SetOutput(out)] it writes to [out] alone. *)
Theorem SetOutputs_destinations `{GoLib} (lv : Level) (format : string)
  (args : list arg) (outputs : list nat) (out : nat) (l : Logger)
  (w : World) :
  level l <= lv ->
  let line := rendered lv (fst (getFormattedTime (l, w))) format args in
  writes (produced w (logAt lv format args (SetOutputs outputs l, w)))
  = map (fun d => (d, line))
        (match outputs with [] => [Stdout] | _ => outputs end) /\
  writes (produced w (logAt lv format args (SetOutput out l, w)))
  = [(out, line)].
Proof.
  intros Hge line. subst line.
  assert (Hts : forall outs,
            fst (getFormattedTime (set_output outs l, w))
            = fst (getFormattedTime (l, w)))
    by (intros outs; now rewrite !getFormattedTime_value).
  split.
  - rewrite logAt_writes by (destruct outputs; exact Hge).
    unfold SetOutputs. destruct outputs as [|d ds]; now rewrite Hts.
  - rewrite logAt_writes by exact Hge. unfold SetOutput. now rewrite Hts.
Qed.

Lemma SetOutputs_destinations_witness :
  level New <= INFO /\
  (writes (produced world0 (logAt INFO "ready" [] (SetOutputs [] New, world0)))
   = [(Stdout, readyLine)]) /\
  (writes (produced world0
             (logAt INFO "ready" [] (SetOutputs [2%nat; 3%nat] New, world0)))
   = [(2%nat, readyLine); (3%nat, readyLine)]) /\
  (writes (produced world0 (logAt INFO "ready" [] (SetOutput 5%nat New, world0)))
   = [(5%nat, readyLine)]).
Proof.
  assert (Hge : level New <= INFO) by (vm_compute; discriminate).
  split; [exact Hge |].
  destruct (SetOutputs_destinations INFO "ready" [] [] 5%nat New world0 Hge)
    as [A C].
  destruct (SetOutputs_destinations INFO "ready" [] [2%nat; 3%nat] 5%nat New
              world0 Hge) as [B _].
  split; [rewrite A; reflexivity |]. split; [rewrite B; reflexivity |].
  rewrite C. reflexivity.
Defined.

(** ** The timestamp cache, call after call *)

Lemma getFormattedTime_cache (l : Logger) (w : World) :
  timeKey (fst (snd (getFormattedTime (l, w)))) = Unix (clock w (ticks w)) /\
  timeValue (fst (snd (getFormattedTime (l, w)))) = fst (getFormattedTime (l, w)).
Proof.
  unfold getFormattedTime, Now.
  destruct (Z.eqb_spec (Unix (clock w (ticks w))) (timeKey l)) as [E|E].
  - cbn. split; [now symmetry | reflexivity].
  - match goal with
    | |- context [cleanupTimeCache (?a, ?b)] =>
        pose proof (cleanupTimeCache_frame a b) as F;
        destruct (cleanupTimeCache (a, b)) as [l' w']
    end.
    cbn in *. destruct F as (_ & _ & _ & _ & _ & _ & _ & _ & _ & _ & _ & K & V).
    split; assumption.
Qed.

(** X3.  Two calls of [getFormattedTime] in a row, with [SetTimeFormat]
    in between: when the clock of the second call still reads the second of
    the first, the answer is the text the first call answered, whatever the
    new layout; the new layout is used from the first reading in another
    second on. *)
Theorem timestamp_cached_within_the_second (l : Logger) (w : World)
  (layout : string) :
  let first := getFormattedTime (l, w) in
  let l1 := fst (snd first) in
  let w1 := snd (snd first) in
  let r1 := clock w (ticks w) in
  let r2 := clock w1 (ticks w1) in
  fst (getFormattedTime (SetTimeFormat layout l1, w1))
  = if Unix r2 =? Unix r1 then fst first else Format r2 layout.
Proof.
  cbv zeta. rewrite getFormattedTime_value.
  destruct (getFormattedTime_cache l w) as [K V].
  unfold SetTimeFormat. cbn [timeKey timeValue timeFormat set_timeFormat].
  rewrite K, V. reflexivity.
Qed.

Lemma filter_negb_ltb (t : Z) (c : list (Z * string)) :
  List.filter (fun kv : Z * string => negb (fst kv <? t)) c
  = filter (fun kv => t <= fst kv) c.
Proof.
  induction c as [|kv c IH]; [reflexivity |].
  cbn [List.filter]. rewrite filter_cons.
  destruct (Z.ltb_spec (fst kv) t); cbn [negb].
  - destruct (decide _) as [Hd|Hd]; [cbn in Hd; lia | exact IH].
  - destruct (decide _) as [Hd|Hd]; [now rewrite IH | contradiction].
Qed.

(** X4.  When [cleanupTimeCache] runs (no cleanup in progress, at least 60
    seconds since the last one) it keeps exactly the cache entries that are
    not older than an hour, records the time of the run and resets the
    in-progress flag; a second call within the next 60 seconds leaves the
    logger as it is. *)
Theorem cleanup_at_most_once_per_minute (l : Logger) (w : World) :
  let t1 := Unix (clock w (ticks w)) in
  let t2 := Unix (clock w (S (ticks w))) in
  let st1 := cleanupTimeCache (l, w) in
  cleanupInProgress l = false ->
  60 <= int_sub t1 (lastCleanup l) ->
  0 <= t2 - t1 < 60 ->
  (cleanupInProgress (fst st1) = false /\ lastCleanup (fst st1) = t1 /\
   timeCache (fst st1)
   = filter (fun kv => int_sub t1 3600 <= fst kv) (timeCache l)) /\
  fst (cleanupTimeCache st1) = fst st1.
Proof.
  intros t1 t2 st1 Hfree Hdue Hsoon.
  assert (E : st1
              = (set_lastCleanup t1
                   (set_cleanupInProgress false
                      (set_timeCache
                         (filter (fun kv => int_sub t1 3600 <= fst kv)
                            (timeCache l))
                         (set_cleanupInProgress true l))),
                 set_ticks (S (ticks w)) w)).
  { subst st1. unfold cleanupTimeCache, Now. rewrite Hfree. cbn [fst snd].
    fold t1. replace (int_sub t1 (lastCleanup l) <? 60) with false
      by (symmetry; apply Z.ltb_ge; exact Hdue).
    now rewrite <- filter_negb_ltb. }
  rewrite E. split; [repeat split |].
  unfold cleanupTimeCache, Now.
  cbn [fst snd cleanupInProgress lastCleanup set_lastCleanup
       set_cleanupInProgress set_timeCache clock ticks set_ticks].
  fold t2. unfold int_sub at 1.
  rewrite wrap_small by (unfold MinInt, MaxInt; lia).
  replace (t2 - t1 <? 60) with true by (symmetry; apply Z.ltb_lt; lia).
  reflexivity.
Qed.

Lemma cleanup_at_most_once_per_minute_witness :
  let t1 := Unix (clock tickingWorld (ticks tickingWorld)) in
  let t2 := Unix (clock tickingWorld (S (ticks tickingWorld))) in
  let st1 := cleanupTimeCache (cachedLogger, tickingWorld) in
  (cleanupInProgress cachedLogger = false /\
   60 <= int_sub t1 (lastCleanup cachedLogger) /\ 0 <= t2 - t1 < 60) /\
  timeCache (fst st1) = [(1699999000, "recent")] /\
  lastCleanup (fst st1) = 1700000000 /\
  fst (cleanupTimeCache st1) = fst st1.
Proof.
  cbv zeta.
  assert (H1 : cleanupInProgress cachedLogger = false) by reflexivity.
  assert (H2 : 60 <= int_sub (Unix (clock tickingWorld (ticks tickingWorld)))
                       (lastCleanup cachedLogger))
    by (vm_compute; discriminate).
  assert (H3 : 0 <= Unix (clock tickingWorld (S (ticks tickingWorld)))
                    - Unix (clock tickingWorld (ticks tickingWorld)) < 60)
    by (vm_compute; split; [discriminate | reflexivity]).
  split; [split; [exact H1 | split; [exact H2 | exact H3]] |].
  destruct (cleanup_at_most_once_per_minute cachedLogger tickingWorld H1 H2 H3)
    as ((_ & L & C) & Again).
  split; [rewrite C; reflexivity |]. split; [rewrite L; reflexivity |].
  exact Again.
Defined.

(** ** Removing hooks *)

Lemma deleteFirst_absent (i : string) (hs : list Hook) :
  i ∉ map id hs -> deleteFirst i hs = hs.
Proof.
  induction hs as [|h hs IH]; intros Hno; [reflexivity |].
  cbn [map] in Hno. apply not_elem_of_cons in Hno as [Hne Hno].
  cbn [deleteFirst]. destruct (String.eqb_spec (id h) i) as [E|_].
  - congruence.
  - now rewrite IH.
Qed.

Lemma deleteFirst_present (i : string) (hs : list Hook) :
  i ∈ map id hs ->
  exists pre h post,
    hs = pre ++ h :: post /\ id h = i /\ (i ∉ map id pre) /\
    deleteFirst i hs = pre ++ post.
Proof.
  induction hs as [|h hs IH]; intros Hin; [inversion Hin |].
  cbn [deleteFirst]. destruct (String.eqb_spec (id h) i) as [E|Hne].
  - exists [], h, hs. repeat split; [exact E | apply not_elem_of_nil].
  - cbn [map] in Hin. apply elem_of_cons in Hin as [E|Hin]; [congruence |].
    destruct (IH Hin) as (pre & h' & post & -> & Hid & Hpre & Hdel).
    exists (h :: pre), h', post. split; [reflexivity |]. split; [exact Hid |].
    split; [cbn [map]; apply not_elem_of_cons; split; [congruence | exact Hpre] |].
    cbn. now rewrite Hdel.
Qed.

Lemma set_hooks_same (l : Logger) : set_hooks (hooks l) l = l.
Proof. destruct l; reflexivity. Qed.

(** X5.  [removeHook(id)] leaves the logger as it is when no registered
    hook has that id; otherwise it deletes the first record with that id,
    and only that one: the records before and after it stay, in their
    order, and no other field of the logger changes. *)
Theorem removeHook_first_match (i : string) (l : Logger) :
  ((i ∉ map id (hooks l)) /\ removeHook i l = l) \/
  (exists pre h post,
     hooks l = pre ++ h :: post /\ id h = i /\ (i ∉ map id pre) /\
     removeHook i l = set_hooks (pre ++ post) l).
Proof.
  unfold removeHook.
  destruct (decide (i ∈ map id (hooks l))) as [Hin|Hno].
  - right. destruct (deleteFirst_present i (hooks l) Hin)
      as (pre & h & post & E & Hid & Hpre & Hdel).
    exists pre, h, post. now rewrite Hdel.
  - left. split; [exact Hno |].
    rewrite deleteFirst_absent by exact Hno. apply set_hooks_same.
Qed.

Lemma deleteFirst_app_fresh (i : string) (hs : list Hook) (h : Hook) :
  id h = i ->
  deleteFirst i (hs ++ [h])
  = if bool_decide (i ∈ map id hs) then deleteFirst i hs ++ [h] else hs.
Proof.
  intros Hid. induction hs as [|x hs IH].
  - cbn. rewrite Hid, String.eqb_refl. reflexivity.
  - cbn [app deleteFirst map]. destruct (String.eqb_spec (id x) i) as [E|Hne].
    + rewrite bool_decide_eq_true_2 by (rewrite <- E; left). reflexivity.
    + rewrite IH. destruct (decide (i ∈ map id hs)) as [Hin|Hno].
      * rewrite !bool_decide_eq_true_2 by (try right; exact Hin). reflexivity.
      * rewrite !bool_decide_eq_false_2; [reflexivity | | exact Hno].
        apply not_elem_of_cons. split; [congruence | exact Hno].
Qed.

(** X6.  Below capacity, [AddHook] followed by [removeHook] of the new
    record's id gives back the logger as it was when the id was not
    registered before.  When it was, the record deleted is the older one
    with that id, and the new record stays at the end of the list. *)
Theorem AddHook_then_removeHook `{GoLib} (hook : Func) (prio : Z)
  (l : Logger) :
  Z.of_nat (length (hooks l)) < maxHooks l ->
  let added := snd (AddHook hook prio l) in
  (pointerText hook ∉ map id (hooks l) ->
   removeHook (pointerText hook) added = l) /\
  (pointerText hook ∈ map id (hooks l) ->
   hooks (removeHook (pointerText hook) added)
   = deleteFirst (pointerText hook) (hooks l)
     ++ [mkHook (call hook) prio (pointerText hook)]).
Proof.
  intros Hroom added. subst added. unfold AddHook.
  apply Z.leb_gt in Hroom. rewrite Hroom. cbn [snd]. unfold removeHook.
  cbn [hooks set_hooks].
  rewrite deleteFirst_app_fresh by reflexivity. split; intros Hid.
  - rewrite bool_decide_eq_false_2 by exact Hid. destruct l; reflexivity.
  - rewrite bool_decide_eq_true_2 by exact Hid. reflexivity.
Qed.

Lemma AddHook_then_removeHook_witness :
  (Z.of_nat (length (hooks New)) < maxHooks New /\
   (pointerText recorder ∉ map id (hooks New)) /\
   removeHook (pointerText recorder) (snd (AddHook recorder 0 New)) = New) /\
  (Z.of_nat (length (hooks scenarioLogger)) < maxHooks scenarioLogger /\
   (pointerText recorder ∈ map id (hooks scenarioLogger)) /\
   map priority
     (hooks (removeHook (pointerText recorder)
               (snd (AddHook recorder 7 scenarioLogger)))) = [7]).
Proof.
  assert (R0 : Z.of_nat (length (hooks New)) < maxHooks New)
    by (vm_compute; reflexivity).
  assert (F0 : pointerText recorder ∉ map id (hooks New))
    by apply not_elem_of_nil.
  assert (R1 : Z.of_nat (length (hooks scenarioLogger))
               < maxHooks scenarioLogger) by (vm_compute; reflexivity).
  assert (F1 : pointerText recorder ∈ map id (hooks scenarioLogger))
    by (vm_compute; left).
  split.
  - split; [exact R0 |]. split; [exact F0 |].
    exact (proj1 (AddHook_then_removeHook recorder 0 New R0) F0).
  - split; [exact R1 |]. split; [exact F1 |].
    rewrite (proj2 (AddHook_then_removeHook recorder 7 scenarioLogger R1) F1).
    reflexivity.
Defined.

(** ** The logger and the world through a call *)

Lemma emit_emit (es1 es2 : list Effect) (w : World) :
  emit es2 (emit es1 w) = emit (es1 ++ es2) w.
Proof. unfold emit. cbn. now rewrite app_assoc. Qed.

Lemma emit_nil (w : World) : emit [] w = w.
Proof. destruct w. unfold emit. cbn. now rewrite app_nil_r. Qed.

Lemma evolve_same (l : Logger) : evolve (hooks l) (wg l) (workerPool l) l = l.
Proof. destruct l; reflexivity. Qed.

Lemma evolve_evolve (hs hs' : list Hook) (n n' : nat) (p p' : WorkerPool)
  (l : Logger) :
  evolve hs' n' p' (evolve hs n p l) = evolve hs' n' p' l.
Proof. reflexivity. Qed.

Lemma steady_refl (l : Logger) : steady l l.
Proof. repeat split; reflexivity. Qed.

Lemma steady_trans (l1 l2 l3 : Logger) :
  steady l1 l2 -> steady l2 l3 -> steady l1 l3.
Proof.
  intros (S1 & B1 & H1 & T1) (S2 & B2 & H2 & T2).
  split; [congruence |]. split; [congruence |].
  split; etransitivity; eassumption.
Qed.

Lemma steady_set_pool (pl : list nat) (l : Logger) : steady l (set_pool pl l).
Proof. repeat split; reflexivity. Qed.

Lemma steady_evolve (hs : list Hook) (n : nat) (p : WorkerPool) (l : Logger) :
  sublist hs (hooks l) -> steady l (evolve hs n p l).
Proof. intros Hs. split; [reflexivity |]. split; [reflexivity |]. split; [exact Hs | reflexivity]. Qed.

(** The loop of the workers over the queue, in closed form: what it does to
    the logger and which effects it adds do not depend on the world. *)
Lemma foldl_runJob_closed `{GoLib} (js : list Job) (l : Logger) :
  exists hs effs,
    sublist hs (hooks l) /\
    Forall (fun e => is_hook_effect e = true) effs /\
    forall w, foldl (fun s j => runJob j s) (l, w) js
              = (evolve hs (wg l - length js) (workerPool l) l, emit effs w).
Proof.
  revert l. induction js as [|j js IH]; intros l.
  - exists (hooks l), []. split; [reflexivity |]. split; [constructor |].
    intros w. cbn [foldl length]. rewrite Nat.sub_0_r, evolve_same, emit_nil.
    reflexivity.
  - cbn [foldl].
    pose (l1 := set_wg (Nat.pred (wg l))
                  (set_hooks (survivors (job_level j) (job_msg j) (hooks l)
                                (SortFunc byPriority (hooks l))) l)).
    destruct (IH l1) as (hs & effs & Hsub & Hq & E).
    exists hs, (passEffects (job_level j) (job_msg j)
                  (SortFunc byPriority (hooks l)) ++ effs).
    split; [etransitivity; [exact Hsub | apply survivors_sublist] |].
    split; [apply Forall_app; split; [apply passEffects_hook | exact Hq] |].
    intros w. rewrite runJob_spec. fold l1. rewrite E, emit_emit.
    f_equal. subst l1. unfold evolve. cbn.
    replace (Nat.pred (wg l) - length js)%nat with (wg l - S (length js))%nat
      by lia.
    reflexivity.
Qed.

Lemma runWorkers_closed `{GoLib} (l : Logger) :
  exists hs effs,
    sublist hs (hooks l) /\
    Forall (fun e => is_hook_effect e = true) effs /\
    (stopped (workerPool l) = true -> hs = hooks l /\ effs = []) /\
    forall w,
      runWorkers (l, w)
      = (evolve hs
           (if stopped (workerPool l) then wg l
            else wg l - length (jobs (workerPool l)))%nat
           (if stopped (workerPool l) then workerPool l else mkPool [] false)
           l,
         emit effs w).
Proof.
  unfold runWorkers. destruct (stopped (workerPool l)) eqn:Hst.
  - exists (hooks l), []. split; [reflexivity |]. split; [constructor |].
    split; [split; reflexivity |]. intros w.
    now rewrite evolve_same, emit_nil.
  - destruct (foldl_runJob_closed (jobs (workerPool l))
                (set_workerPool (mkPool [] false) l))
      as (hs & effs & Hsub & Hq & E).
    exists hs, effs. split; [exact Hsub |]. split; [exact Hq |].
    split; [discriminate |]. intros w. rewrite E. reflexivity.
Qed.

Lemma Wait_closed `{GoLib} (l : Logger) :
  exists hs effs,
    sublist hs (hooks l) /\
    Forall (fun e => is_hook_effect e = true) effs /\
    (stopped (workerPool l) = true -> hs = hooks l /\ effs = []) /\
    let n := (if stopped (workerPool l) then wg l
              else wg l - length (jobs (workerPool l)))%nat in
    let p := if stopped (workerPool l) then workerPool l else mkPool [] false in
    forall w,
      Wait (l, w)
      = ((n =? 0)%nat,
         (evolve hs n p l,
          emit (effs ++ if (n =? 0)%nat then [EWaited] else []) w)).
Proof.
  destruct (runWorkers_closed l) as (hs & effs & Hsub & Hq & Hstop & E).
  exists hs, effs. split; [exact Hsub |]. split; [exact Hq |].
  split; [exact Hstop |]. intros n p w. unfold Wait. rewrite E.
  fold n p. cbn [wg evolve set_wg].
  destruct (n =? 0)%nat; [now rewrite emit_emit | now rewrite app_nil_r].
Qed.

(** the statements after the dispatch, for [msgf] and [msg] alike *)
Lemma tail_closed `{GoLib} (lv : Level) (m : string) (l : Logger) :
  exists hs n p effs en,
    sublist hs (hooks l) /\
    forall w,
      let o := andThen (fatalBranch lv (l, w)) (msg_panicBranch lv m) in
      final o = (evolve hs n p l, emit effs w) /\
      ending o = en (exitFunc w) (panicFunc w).
Proof.
  destruct (Wait_closed l) as (hs & effs & Hsub & _ & _ & E). cbv zeta in E.
  set (n := (if stopped (workerPool l) then wg l
             else wg l - length (jobs (workerPool l)))%nat) in E.
  set (p := if stopped (workerPool l) then workerPool l else mkPool [] false)
    in E.
  unfold fatalBranch, msg_panicBranch.
  destruct (Z.eqb_spec lv FATAL) as [->|Hnf].
  - destruct (n =? 0)%nat eqn:Hn.
    + exists hs, n, (stop p), (effs ++ [EWaited] ++ [EStopped; EExit 1]),
        (fun x _ => match x with os_Exit => Exited 1 | exit_returns => Returned end).
      split; [exact Hsub |]. intros w. rewrite E. cbv beta iota zeta.
      rewrite emit_emit, <- app_assoc. cbn [exitFunc emit].
      destruct (exitFunc w); split; reflexivity.
    + exists hs, n, p, (effs ++ []), (fun _ _ => Blocked).
      split; [exact Hsub |]. intros w. rewrite E. split; reflexivity.
  - cbn [andThen]. destruct (Z.eqb_spec lv PANIC) as [->|Hnp].
    + destruct (n =? 0)%nat eqn:Hn.
      * exists hs, n, (stop p), (effs ++ [EWaited] ++ [EStopped; EPanic m]),
          (fun _ y => match y with
                      | go_panic => Panicked m
                      | panic_returns => Returned
                      end).
        split; [exact Hsub |]. intros w. rewrite E. cbv beta iota zeta.
        rewrite emit_emit, <- app_assoc. cbn [panicFunc emit].
        destruct (panicFunc w); split; reflexivity.
      * exists hs, n, p, (effs ++ []), (fun _ _ => Blocked).
        split; [exact Hsub |]. intros w. rewrite E. split; reflexivity.
    + exists (hooks l), (wg l), (workerPool l), [], (fun _ _ => Returned).
      split; [reflexivity |]. intros w. cbn.
      now rewrite evolve_same, emit_nil.
Qed.

Lemma getFormattedTime_steady (l : Logger) (w : World) :
  let l' := fst (snd (getFormattedTime (l, w))) in
  let w' := snd (snd (getFormattedTime (l, w))) in
  steady l l' /\ hooks l' = hooks l /\ wg l' = wg l /\
  workerPool l' = workerPool l /\ pool l' = pool l /\
  heap w' = heap w /\ allocated w' = allocated w /\
  effects w' = effects w /\ exitFunc w' = exitFunc w /\
  panicFunc w' = panicFunc w /\ clock w' = clock w.
Proof.
  unfold getFormattedTime, Now, cleanupTimeCache, Now, steady, settings.
  destruct (_ =? timeKey l); [cbn; repeat split; reflexivity |].
  cbn [cleanupInProgress set_timeValue set_timeKey].
  destruct (cleanupInProgress l); [cbn; repeat split; reflexivity |].
  cbn [fst snd lastCleanup set_timeValue set_timeKey].
  destruct (_ <? 60); cbn; repeat split; try reflexivity.
  rewrite filter_negb_ltb. apply sublist_filter.
Qed.

Lemma getBuffer_steady (size : Z) (l : Logger) (w : World) :
  let l' := fst (snd (getBuffer size (l, w))) in
  let w' := snd (snd (getBuffer size (l, w))) in
  (exists pl, l' = set_pool pl l) /\
  effects w' = effects w /\ exitFunc w' = exitFunc w /\
  panicFunc w' = panicFunc w /\ clock w' = clock w /\ ticks w' = ticks w.
Proof.
  unfold getBuffer, pool_Get.
  destruct (_ <? size); cbn.
  - split; [exists (pool l); destruct l; reflexivity | repeat split].
  - destruct (pool l) as [|q rest]; cbn.
    + split; [exists (pool l); destruct l; reflexivity | repeat split].
    + split; [exists rest; reflexivity | repeat split].
Qed.

Lemma resize_steady `{GoLib} (e : event) (est : Z) (l : Logger) (w : World) :
  let r := resize e est (l, w) in
  ev_level (fst r) = ev_level e /\
  (exists pl, fst (snd r) = set_pool pl l) /\
  effects (snd (snd r)) = effects w /\ exitFunc (snd (snd r)) = exitFunc w /\
  panicFunc (snd (snd r)) = panicFunc w /\ clock (snd (snd r)) = clock w /\
  (bytes (deref w (buf e)) = "" ->
   bytes (deref (snd (snd r)) (buf (fst r))) = "").
Proof.
  cbv zeta. pose proof (resize_frame e est l w) as F. unfold resize in *.
  destruct (cap (deref w (buf e)) <? est).
  - pose proof (getBuffer_steady est l w) as G. cbv zeta in G.
    destruct (getBuffer est (l, w)) as [nb [l' w']]. cbn [fst snd] in *.
    destruct G as (Hl & He & Hx & Hp & Hc & _).
    split; [reflexivity |]. split; [exact Hl |].
    split; [exact He |]. split; [exact Hx |]. split; [exact Hp |].
    split; [exact Hc |]. intros Hempty. apply (F Hempty).
  - cbn. split; [reflexivity |].
    split; [exists (pool l); destruct l; reflexivity |].
    repeat split. tauto.
Qed.

(** the dispatch job in closed form *)
Lemma dispatch_fields (lv : Level) (m : string) (l : Logger) :
  msg_dispatch lv m l
  = match hooks l with
    | [] => l
    | _ => evolve (hooks l) (S (wg l)) (submit (mkJob lv m) (workerPool l)) l
    end.
Proof.
  unfold msg_dispatch, executeHooks.
  destruct (hooks l) eqn:E; [reflexivity |]. rewrite <- E.
  destruct l; reflexivity.
Qed.

Lemma dispatch_msg `{GoLib} (lv : Level) (format : string) (args : list arg)
  (l : Logger) :
  dispatch lv format args l = msg_dispatch lv (Sprintf format args) l.
Proof. reflexivity. Qed.

Lemma dispatch_evolve (lv : Level) (m : string) (l : Logger) :
  exists n p, msg_dispatch lv m l = evolve (hooks l) n p l.
Proof.
  rewrite dispatch_fields. destruct (hooks l) eqn:E.
  - exists (wg l), (workerPool l). rewrite <- E. symmetry. apply evolve_same.
  - eexists _, _. reflexivity.
Qed.

(** [msgf] and [msg] up to the tail: the buffer they format into, the line
    they write and the logger they hand to the dispatch. *)
Lemma builders_closed `{GoLib} (e : event) (format : string) (l : Logger)
  (w : World) :
  exists e1 l2 prior,
    ev_level e1 = ev_level e /\
    steady l l2 /\ hooks l2 = hooks l /\ wg l2 = wg l /\
    workerPool l2 = workerPool l /\
    (bytes (deref w (buf e)) = "" -> prior = "") /\
    (forall args, exists w6,
       msgf_body e format args (l, w)
       = (e1,
          andThen (fatalBranch (ev_level e)
                     (dispatch (ev_level e) format args l2, w6))
                  (panicBranch (ev_level e) format args)) /\
       (let line :=
          prior +:+ rendered (ev_level e) (fst (getFormattedTime (l, w)))
                      format args in
        effects w6
        = effects w ++ EOutput line :: map (fun d => EWrite d line) (output l))
       /\ exitFunc w6 = exitFunc w /\ panicFunc w6 = panicFunc w /\
       clock w6 = clock w) /\
    (exists w4,
       msg_body e format (l, w)
       = (e1,
          andThen (fatalBranch (ev_level e)
                     (msg_dispatch (ev_level e) format l2, w4))
                  (msg_panicBranch (ev_level e) format)) /\
       (let line :=
          prior +:+ rendered (ev_level e) (fst (getFormattedTime (l, w)))
                      format [] in
        effects w4
        = effects w ++ EOutput line :: map (fun d => EWrite d line) (output l))
       /\ exitFunc w4 = exitFunc w /\ panicFunc w4 = panicFunc w /\
       clock w4 = clock w).
Proof.
  unfold msgf_body, msg_body.
  pose proof (getFormattedTime_steady l w) as T. cbv zeta in T.
  destruct (getFormattedTime (l, w)) as [ts [l1 w1]]. cbn [fst snd] in T.
  destruct T as (St & Hh & Hwg & Hwp & _ & Hheap & _ & He & Hx & Hp & Hc).
  pose proof (resize_steady e (estimate (ev_level e) ts format) l1 w1) as R.
  cbv zeta in R.
  destruct (resize e (estimate (ev_level e) ts format) (l1, w1))
    as [e1 [l2 w2]]. cbn [fst snd] in R.
  destruct R as (Hlv & (pl & ->) & He2 & Hx2 & Hp2 & Hc2 & Hempty2).
  exists e1, (set_pool pl l1), (bytes (deref w2 (buf e1))).
  split; [exact Hlv |].
  split; [eapply steady_trans; [exact St | apply steady_set_pool] |].
  split; [exact Hh |]. split; [exact Hwg |]. split; [exact Hwp |].
  split.
  { intros Hempty. apply Hempty2. unfold deref in *. now rewrite Hheap. }
  assert (Hout : output l1 = output l).
  { destruct St as (Hs & _). unfold settings in Hs. congruence. }
  split.
  - intros args. eexists. rewrite Hlv. split; [reflexivity |].
    split; [| cbn; repeat split; congruence].
    unfold write, emit. cbn [effects].
    rewrite !deref_store, !bytes_append.
    cbn [effects store set_heap output set_pool fst].
    rewrite He2, He, Hout. unfold rendered, header.
    rewrite !app_assoc_str. reflexivity.
  - eexists. rewrite Hlv. split; [reflexivity |].
    split; [| cbn; repeat split; congruence].
    unfold write, emit. cbn [effects].
    rewrite !deref_store, !bytes_append.
    cbn [effects store set_heap output set_pool fst].
    rewrite He2, He, Hout. unfold rendered, header, body.
    rewrite !app_assoc_str. reflexivity.
Qed.

Lemma putBuffer_logger (b : option nat) (st : State) :
  exists pl, fst (putBuffer b st) = set_pool pl (fst st).
Proof.
  destruct st as [l w]. unfold putBuffer.
  destruct b as [p|]; [| exists (pool l); destruct l; reflexivity].
  destruct (_ <? _); [exists (pool l); destruct l; reflexivity |].
  now exists (p :: pool l).
Qed.

(** An emission that passes the gate, up to the tail. *)
Lemma logAt_closed `{GoLib} (lv : Level) (format : string) (args : list arg)
  (l : Logger) (w : World) :
  level l <= lv ->
  exists b l2 w6,
    let o := andThen (fatalBranch lv (dispatch lv format args l2, w6))
                     (panicBranch lv format args) in
    logAt lv format args (l, w)
    = match o with
      | Returns st' => Returns (putBuffer (Some b) st')
      | Panics v st' => Panics v (putBuffer (Some b) st')
      | _ => o
      end /\
    steady l l2 /\ hooks l2 = hooks l /\ wg l2 = wg l /\
    workerPool l2 = workerPool l /\
    (let line := rendered lv (fst (getFormattedTime (l, w))) format args in
     effects w6
     = effects w ++ EOutput line :: map (fun d => EWrite d line) (output l)) /\
    exitFunc w6 = exitFunc w /\ panicFunc w6 = panicFunc w /\
    clock w6 = clock w.
Proof.
  intros Hge. unfold logAt, newEvent. apply Z.ltb_ge in Hge. rewrite Hge.
  pose proof (getBuffer_frame (bufSize l) l w) as F.
  pose proof (getBuffer_steady (bufSize l) l w) as G. cbv zeta in G.
  destruct (getBuffer (bufSize l) (l, w)) as [b [l0 w0]]. cbn [fst snd] in G.
  destruct F as (_ & _ & Hempty & _).
  destruct G as ((pl & ->) & He & Hx & Hp & Hc & Ht).
  destruct (builders_closed (mkEvent lv b) format (set_pool pl l) w0)
    as (e1 & l2 & prior & _ & St & Hh & Hwg & Hwp & Hprior & Hf & _).
  destruct (Hf args) as (w6 & Ebody & Heff & Hx6 & Hp6 & Hc6).
  rewrite (Hprior Hempty) in Heff. cbn [ev_level] in *.
  exists b, l2, w6. cbv zeta. unfold msgf. rewrite Ebody. cbn [snd buf].
  split; [destruct (andThen _ _); reflexivity |].
  split; [eapply steady_trans; [apply steady_set_pool | exact St] |].
  split; [exact Hh |]. split; [exact Hwg |]. split; [exact Hwp |].
  split; [| repeat split; congruence].
  rewrite Heff, He. rewrite !getFormattedTime_value, Hc, Ht. reflexivity.
Qed.

Lemma release_final (b : nat) (o : Outcome) :
  let o' := match o with
            | Returns st' => Returns (putBuffer (Some b) st')
            | Panics v st' => Panics v (putBuffer (Some b) st')
            | _ => o
            end in
  ending o' = ending o /\ snd (final o') = snd (final o) /\
  exists pl, fst (final o') = set_pool pl (fst (final o)).
Proof.
  destruct o as [st|c st|v st|st]; cbn; rewrite ?putBuffer_effects;
    (split; [reflexivity |]); (split; [reflexivity |]);
    try apply putBuffer_logger;
    exists (pool (fst st)); destruct st as [[] ?]; reflexivity.
Qed.

Lemma logAt_steady `{GoLib} (lv : Level) (format : string)
  (args : list arg) (l : Logger) (w : World) :
  let st' := final (logAt lv format args (l, w)) in
  steady l (fst st') /\
  exitFunc (snd st') = exitFunc w /\ panicFunc (snd st') = panicFunc w /\
  clock (snd st') = clock w.
Proof.
  cbv zeta. destruct (Z.lt_ge_cases lv (level l)) as [Hlt|Hge].
  - rewrite logAt_rejected by exact Hlt. cbn.
    split; [apply steady_refl | repeat split].
  - destruct (logAt_closed lv format args l w Hge)
      as (b & l2 & w6 & E & St & _ & _ & _ & _ & Hx & Hp & Hc).
    cbv zeta in E. rewrite E. clear E.
    change (panicBranch lv format args)
      with (msg_panicBranch lv (Sprintf format args)).
    rewrite dispatch_msg.
    destruct (tail_closed lv (Sprintf format args)
                (msg_dispatch lv (Sprintf format args) l2))
      as (hs & n & p & effs & en & Hsub & T).
    destruct (T w6) as [Efin _]. cbv zeta in Efin.
    set (o := andThen _ _) in *.
    destruct (release_final b o) as (_ & Ew & (pl & El)). cbv zeta in Ew, El.
    rewrite Ew, El, Efin. cbn [fst snd].
    split; [| cbn; repeat split; assumption].
    eapply steady_trans; [exact St |].
    eapply steady_trans; [| apply steady_set_pool].
    destruct (dispatch_evolve lv (Sprintf format args) l2) as (n0 & p0 & Ed).
    rewrite Ed in *. rewrite evolve_evolve. apply steady_evolve. exact Hsub.
Qed.

Lemma tail_ordinary `{GoLib} (lv : Level) (m : string) (st : State) :
  lv <> FATAL -> lv <> PANIC ->
  andThen (fatalBranch lv st) (msg_panicBranch lv m) = Returns st.
Proof.
  intros Hf Hp. unfold fatalBranch, msg_panicBranch.
  apply Z.eqb_neq in Hf, Hp. rewrite Hf. cbn [andThen]. now rewrite Hp.
Qed.

(** X7.  An emission, whatever its level and however it ends, changes
    nothing a caller configured: threshold, destinations, timestamp layout,
    hook capacity and buffer size are the same afterwards; the hook list
    and the time cache can only have lost entries, in their order; and the
    package-level exit and panic functions are untouched. *)
Theorem emission_keeps_configuration `{GoLib} (lv : Level) (format : string)
  (args : list arg) (l : Logger) (w : World) :
  let l' := fst (final (logAt lv format args (l, w))) in
  let w' := snd (final (logAt lv format args (l, w))) in
  level l' = level l /\ output l' = output l /\
  timeFormat l' = timeFormat l /\ maxHooks l' = maxHooks l /\
  bufSize l' = bufSize l /\
  sublist (hooks l') (hooks l) /\ sublist (timeCache l') (timeCache l) /\
  exitFunc w' = exitFunc w /\ panicFunc w' = panicFunc w /\
  clock w' = clock w.
Proof.
  cbv zeta.
  destruct (logAt_steady lv format args l w)
    as ((Hs & _ & Hh & Ht) & Hx & Hp & Hc).
  unfold settings in Hs. injection Hs as Hlevel Hout Hfmt Hmax Hbuf _.
  split; [exact Hlevel |]. split; [exact Hout |]. split; [exact Hfmt |].
  split; [exact Hmax |]. split; [exact Hbuf |]. split; [exact Hh |].
  split; [exact Ht |]. split; [exact Hx |]. split; [exact Hp | exact Hc].
Qed.

(** ** Ordinary emissions *)

Lemma logAt_ordinary `{GoLib} (lv : Level) (format : string)
  (args : list arg) (l : Logger) (w : World) :
  level l <= lv -> lv <> FATAL -> lv <> PANIC ->
  exists st',
    logAt lv format args (l, w) = Returns st' /\
    (let line := rendered lv (fst (getFormattedTime (l, w))) format args in
     effects (snd st')
     = effects w ++ EOutput line :: map (fun d => EWrite d line) (output l)) /\
    steady l (fst st') /\
    hooks (fst st') = hooks l /\
    wg (fst st') = match hooks l with [] => wg l | _ => S (wg l) end /\
    workerPool (fst st')
    = match hooks l with
      | [] => workerPool l
      | _ => submit (mkJob lv (Sprintf format args)) (workerPool l)
      end.
Proof.
  intros Hge Hnf Hnp.
  destruct (logAt_closed lv format args l w Hge)
    as (b & l2 & w6 & E & St & Hh & Hwg & Hwp & Heff & _).
  cbv zeta in E, Heff.
  change (panicBranch lv format args)
    with (msg_panicBranch lv (Sprintf format args)) in E.
  rewrite tail_ordinary in E by assumption.
  eexists. split; [exact E |].
  destruct (putBuffer_logger (Some b) (dispatch lv format args l2, w6))
    as (pl & El).
  rewrite putBuffer_effects, El. cbn [fst snd].
  split; [exact Heff |].
  rewrite dispatch_msg.
  destruct (dispatch_evolve lv (Sprintf format args) l2) as (n0 & p0 & Ed).
  split.
  { eapply steady_trans; [exact St |].
    eapply steady_trans; [| apply steady_set_pool].
    rewrite Ed. apply steady_evolve. reflexivity. }
  rewrite dispatch_fields, Hh, Hwg, Hwp.
  destruct (hooks l) eqn:Eh; cbn.
  - rewrite Hh, Hwg, Hwp. repeat split; assumption.
  - repeat split.
Qed.

(** X8.  An emission at a level other than [FATAL] and [PANIC] that
    passes the gate always returns, also on a stopped pool.  The call
    itself does exactly one thing outside the logger: it hands the line to
    the fan-out writer.  Hooks are not run by the caller: when hooks are
    registered, the wait-group counter goes up by one and one job carrying
    the level and [fmt.Sprintf(format, args...)] is submitted to the
    worker pool; without hooks neither happens.  The hook list is
    unchanged. *)
Theorem ordinary_emission_returns `{GoLib} (lv : Level) (format : string)
  (args : list arg) (l : Logger) (w : World) :
  level l <= lv -> lv <> FATAL -> lv <> PANIC ->
  exists st',
    logAt lv format args (l, w) = Returns st' /\
    (let line := rendered lv (fst (getFormattedTime (l, w))) format args in
     produced w (Returns st')
     = EOutput line :: map (fun d => EWrite d line) (output l)) /\
    hooks (fst st') = hooks l /\
    wg (fst st') = match hooks l with [] => wg l | _ => S (wg l) end /\
    workerPool (fst st')
    = match hooks l with
      | [] => workerPool l
      | _ => submit (mkJob lv (Sprintf format args)) (workerPool l)
      end.
Proof.
  intros Hge Hnf Hnp.
  destruct (logAt_ordinary lv format args l w Hge Hnf Hnp)
    as (st' & E & Heff & _ & Hh & Hwg & Hwp).
  exists st'. split; [exact E |]. split; [| repeat split; assumption].
  unfold produced. cbn [final]. cbv zeta in Heff. rewrite Heff.
  apply drop_app_length.
Qed.

Lemma ordinary_emission_returns_witness :
  (level scenarioLogger <= INFO /\ INFO <> FATAL /\ INFO <> PANIC) /\
  exists st',
    logAt INFO "value=%d" [AInt 42] (scenarioLogger, world0) = Returns st' /\
    produced world0 (Returns st') = [EOutput valueLine; EWrite Stdout valueLine] /\
    hooks (fst st') = hooks scenarioLogger /\
    wg (fst st') = 1%nat /\
    workerPool (fst st') = mkPool [mkJob INFO "value=42"] false.
Proof.
  assert (Hge : level scenarioLogger <= INFO) by (vm_compute; discriminate).
  assert (Hnf : INFO <> FATAL) by (unfold INFO, FATAL; lia).
  assert (Hnp : INFO <> PANIC) by (unfold INFO, PANIC; lia).
  split; [split; [exact Hge | split; [exact Hnf | exact Hnp]] |].
  destruct (ordinary_emission_returns INFO "value=%d" [AInt 42] scenarioLogger
              world0 Hge Hnf Hnp) as (st' & E & P & Hh & Hwg & Hwp).
  exists st'. split; [exact E |]. split; [rewrite P; reflexivity |].
  split; [exact Hh |]. split; [rewrite Hwg; reflexivity |].
  rewrite Hwp. reflexivity.
Defined.

Lemma invocations_passEffects (lv : Level) (m : string) (hs : list Hook) :
  invocations (passEffects lv m hs) = map (fun h => (id h, lv, m)) hs.
Proof.
  induction hs as [|h hs IH]; [reflexivity |].
  unfold invocations, passEffects in *. cbn [flat_map map].
  rewrite flat_map_app, IH. destruct (fn h lv m); reflexivity.
Qed.

(** the workers on a running pool whose queue holds one job *)
Lemma runWorkers_one `{GoLib} (j : Job) (l : Logger) (w : World) :
  workerPool l = mkPool [j] false ->
  let snapshot := SortFunc byPriority (hooks l) in
  runWorkers (l, w)
  = (evolve (survivors (job_level j) (job_msg j) (hooks l) snapshot)
       (Nat.pred (wg l)) (mkPool [] false) l,
     emit (passEffects (job_level j) (job_msg j) snapshot) w).
Proof.
  intros Hp. cbv zeta. unfold runWorkers. rewrite Hp. cbn [stopped jobs foldl].
  rewrite runJob_spec. reflexivity.
Qed.

Lemma runWorkers_idle `{GoLib} (l : Logger) (w : World) :
  workerPool l = mkPool [] false -> runWorkers (l, w) = (l, w).
Proof.
  intros Hp. unfold runWorkers. rewrite Hp. cbn. rewrite <- Hp.
  destruct l; reflexivity.
Qed.

(** X9.  On a running pool with an empty queue and at most twelve hooks,
    whatever their priorities: once the workers have run the job of an
    emission at a level other than [FATAL] and [PANIC], every registered
    hook has been invoked exactly once, each with the level of the emission
    and the general formatter's text; the wait-group counter is back at
    its value and the queue is empty again. *)
Theorem emission_invokes_each_hook_once `{GoLib} (lv : Level)
  (format : string) (args : list arg) (l : Logger) (w : World) :
  level l <= lv -> lv <> FATAL -> lv <> PANIC ->
  workerPool l = mkPool [] false ->
  (length (hooks l) <= maxInsertion)%nat ->
  exists st',
    logAt lv format args (l, w) = Returns st' /\
    let st'' := runWorkers st' in
    invocations (drop (length (effects (snd st'))) (effects (snd st'')))
    ≡ₚ map (fun h => (id h, lv, Sprintf format args)) (hooks l) /\
    wg (fst st'') = wg l /\ workerPool (fst st'') = mkPool [] false.
Proof.
  intros Hge Hnf Hnp Hidle Hsmall.
  destruct (logAt_ordinary lv format args l w Hge Hnf Hnp)
    as ([l' w'] & E & _ & _ & Hh & Hwg & Hwp).
  exists (l', w'). split; [exact E |]. cbn [fst snd] in *. cbv zeta.
  destruct (hooks l) as [|h hs] eqn:Eh.
  - rewrite Hidle in Hwp. rewrite (runWorkers_idle l' w' Hwp). cbn [fst snd].
    rewrite drop_all. split; [reflexivity | split; assumption].
  - rewrite Hidle in Hwp. cbn in Hwp.
    rewrite (runWorkers_one _ l' w' Hwp). cbn [fst snd effects emit].
    rewrite drop_app_length, invocations_passEffects. cbn [job_level job_msg].
    split; [| rewrite Hwg; split; reflexivity].
    rewrite Hh. apply fmap_Permutation, snapshot_small_registry.
    exact Hsmall.
Qed.

Lemma emission_invokes_each_hook_once_witness :
  (level threeHooks <= WARN /\ WARN <> FATAL /\ WARN <> PANIC /\
   workerPool threeHooks = mkPool [] false /\
   (length (hooks threeHooks) <= maxInsertion)%nat) /\
  exists st',
    logAt WARN "disk %d%%" [AInt 93] (threeHooks, world0) = Returns st' /\
    invocations (drop (length (effects (snd st')))
                   (effects (snd (runWorkers st'))))
    ≡ₚ [(pointerText first, WARN, "disk 93%");
        (pointerText second, WARN, "disk 93%");
        (pointerText third, WARN, "disk 93%")] /\
    wg (fst (runWorkers st')) = 0%nat.
Proof.
  assert (Hge : level threeHooks <= WARN) by (vm_compute; discriminate).
  assert (Hnf : WARN <> FATAL) by (unfold WARN, FATAL; lia).
  assert (Hnp : WARN <> PANIC) by (unfold WARN, PANIC; lia).
  assert (Hidle : workerPool threeHooks = mkPool [] false) by reflexivity.
  assert (Hsmall : (length (hooks threeHooks) <= maxInsertion)%nat)
    by (vm_compute; lia).
  split; [repeat split; assumption |].
  destruct (emission_invokes_each_hook_once WARN "disk %d%%" [AInt 93]
              threeHooks world0 Hge Hnf Hnp Hidle Hsmall)
    as (st' & E & P & Hwg & _).
  exists st'. split; [exact E |]. split; [exact P | exact Hwg].
Defined.

(** X10.  The job takes its snapshot of the registry when a worker runs
    it, not when the emission submits it: a hook registered after the
    emission and before the worker runs the job is invoked with that
    earlier message.  With no hook registered at the time of the emission
    no job is submitted, and a hook registered afterwards gets nothing. *)
Theorem job_reads_registry_when_it_runs `{GoLib} (lv : Level)
  (format : string) (args : list arg) (hook : Func) (prio : Z) (l : Logger)
  (w : World) :
  level l <= lv -> lv <> FATAL -> lv <> PANIC ->
  workerPool l = mkPool [] false ->
  Z.of_nat (length (hooks l)) < maxHooks l ->
  (length (hooks l) < maxInsertion)%nat ->
  exists st',
    logAt lv format args (l, w) = Returns st' /\
    let late := snd (AddHook hook prio (fst st')) in
    let st'' := runWorkers (late, snd st') in
    hooks late = hooks l ++ [mkHook (call hook) prio (pointerText hook)] /\
    invocations (drop (length (effects (snd st'))) (effects (snd st'')))
    ≡ₚ match hooks l with
       | [] => []
       | _ => map (fun h => (id h, lv, Sprintf format args)) (hooks late)
       end.
Proof.
  intros Hge Hnf Hnp Hidle Hroom Hsmall.
  destruct (logAt_ordinary lv format args l w Hge Hnf Hnp)
    as ([l' w'] & E & _ & St & Hh & Hwg & Hwp).
  exists (l', w'). split; [exact E |]. cbn [fst snd] in *. cbv zeta.
  assert (Hmax : maxHooks l' = maxHooks l).
  { destruct St as (Hs & _). unfold settings in Hs. congruence. }
  unfold AddHook. rewrite Hh, Hmax.
  replace (maxHooks l <=? Z.of_nat (length (hooks l))) with false
    by (symmetry; apply Z.leb_gt; exact Hroom).
  cbn [snd hooks set_hooks]. split; [reflexivity |].
  set (late := set_hooks _ l').
  destruct (hooks l) as [|h hs] eqn:Eh.
  - rewrite Hidle in Hwp.
    rewrite (runWorkers_idle late w') by exact Hwp. cbn [fst snd].
    now rewrite drop_all.
  - rewrite Hidle in Hwp. cbn in Hwp.
    rewrite (runWorkers_one _ late w') by exact Hwp.
    cbn [fst snd effects emit].
    rewrite drop_app_length, invocations_passEffects. cbn [job_level job_msg].
    subst late. cbn [hooks set_hooks].
    apply fmap_Permutation, snapshot_small_registry.
    rewrite length_app. cbn [length] in *. lia.
Qed.

Lemma job_reads_registry_when_it_runs_witness :
  (level scenarioLogger <= INFO /\ INFO <> FATAL /\ INFO <> PANIC /\
   workerPool scenarioLogger = mkPool [] false /\
   Z.of_nat (length (hooks scenarioLogger)) < maxHooks scenarioLogger /\
   (length (hooks scenarioLogger) < maxInsertion)%nat) /\
  exists st',
    logAt INFO "early" [] (scenarioLogger, world0) = Returns st' /\
    invocations
      (drop (length (effects (snd st')))
         (effects (snd (runWorkers (snd (AddHook third 0 (fst st')), snd st')))))
    ≡ₚ [(pointerText recorder, INFO, "early");
        (pointerText third, INFO, "early")].
Proof.
  assert (Hge : level scenarioLogger <= INFO) by (vm_compute; discriminate).
  assert (Hnf : INFO <> FATAL) by (unfold INFO, FATAL; lia).
  assert (Hnp : INFO <> PANIC) by (unfold INFO, PANIC; lia).
  assert (Hidle : workerPool scenarioLogger = mkPool [] false) by reflexivity.
  assert (Hroom : Z.of_nat (length (hooks scenarioLogger))
                  < maxHooks scenarioLogger) by (vm_compute; reflexivity).
  assert (Hsmall : (length (hooks scenarioLogger) < maxInsertion)%nat)
    by (vm_compute; lia).
  split; [repeat split; assumption |].
  destruct (job_reads_registry_when_it_runs INFO "early" [] third 0
              scenarioLogger world0 Hge Hnf Hnp Hidle Hroom Hsmall)
    as (st' & E & Hlate & P).
  exists st'. split; [exact E |]. cbv zeta in P. rewrite P, Hlate.
  reflexivity.
Defined.

(** ** The stopped pool *)

Lemma set_workerPool_same (l : Logger) : set_workerPool (workerPool l) l = l.
Proof. destruct l; reflexivity. Qed.

Lemma Wait_stopped `{GoLib} (l : Logger) (w : World) :
  stopped (workerPool l) = true ->
  Wait (l, w)
  = ((wg l =? 0)%nat,
     (l, if (wg l =? 0)%nat then emit [EWaited] w else w)).
Proof.
  intros Hs. unfold Wait, runWorkers. rewrite Hs.
  destruct (wg l =? 0)%nat; reflexivity.
Qed.

Lemma terminalEnding_msg `{GoLib} (lv : Level) (format : string)
  (args : list arg) (w : World) :
  terminalEnding lv format args w
  = msg_terminalEnding lv (Sprintf format args) w.
Proof. reflexivity. Qed.

Lemma terminalEffects_msg `{GoLib} (lv : Level) (format : string)
  (args : list arg) :
  terminalEffects lv format args
  = msg_terminalEffects lv (Sprintf format args).
Proof. reflexivity. Qed.

Lemma tail_stopped `{GoLib} (lv : Level) (m : string) (l : Logger)
  (w : World) :
  stopped (workerPool l) = true ->
  let o := andThen (fatalBranch lv (l, w)) (msg_panicBranch lv m) in
  final o
  = (l, emit (if (wg l =? 0)%nat then msg_terminalEffects lv m else []) w) /\
  ending o
  = if (wg l =? 0)%nat then msg_terminalEnding lv m w
    else if (lv =? FATAL) || (lv =? PANIC) then Blocked else Returned.
Proof.
  intros Hs. cbv zeta.
  unfold fatalBranch, msg_panicBranch, msg_terminalEffects, msg_terminalEnding.
  assert (Hstop : set_workerPool (stop (workerPool l)) l = l)
    by (unfold stop; rewrite Hs; apply set_workerPool_same).
  destruct (Z.eqb_spec lv FATAL) as [->|Hnf].
  - rewrite (Wait_stopped l w Hs).
    destruct (wg l =? 0)%nat; [| rewrite emit_nil; split; reflexivity].
    rewrite Hstop, emit_emit. cbn [exitFunc emit].
    destruct (exitFunc w); cbn; split; reflexivity.
  - cbn [andThen orb]. destruct (Z.eqb_spec lv PANIC) as [->|Hnp].
    + rewrite (Wait_stopped l w Hs).
      destruct (wg l =? 0)%nat; [| rewrite emit_nil; split; reflexivity].
      rewrite Hstop, emit_emit. cbn [panicFunc emit].
      destruct (panicFunc w); cbn; split; reflexivity.
    + destruct (wg l =? 0)%nat; rewrite emit_nil; split; reflexivity.
Qed.

Lemma dispatch_stopped (lv : Level) (m : string) (l : Logger) :
  stopped (workerPool l) = true ->
  workerPool (msg_dispatch lv m l) = workerPool l /\
  hooks (msg_dispatch lv m l) = hooks l /\
  wg (msg_dispatch lv m l) = match hooks l with [] => wg l | _ => S (wg l) end.
Proof.
  intros Hs. rewrite dispatch_fields. destruct (hooks l) eqn:Eh.
  - repeat split. exact Eh.
  - cbn. unfold submit. rewrite Hs. repeat split.
Qed.

Lemma invocations_app (a b : list Effect) :
  invocations (a ++ b) = invocations a ++ invocations b.
Proof. unfold invocations. apply flat_map_app. Qed.

Lemma invocations_line (line : string) (ds : list nat) :
  invocations (EOutput line :: map (fun d => EWrite d line) ds) = [].
Proof. cbn. induction ds as [|d ds IH]; [reflexivity | exact IH]. Qed.

Lemma invocations_terminal (lv : Level) (m : string) :
  invocations (msg_terminalEffects lv m) = [].
Proof.
  unfold msg_terminalEffects.
  destruct (lv =? FATAL); [reflexivity |]. destruct (lv =? PANIC); reflexivity.
Qed.

(** A passing emission on a stopped pool, in closed form. *)
Lemma logAt_stopped `{GoLib} (lv : Level) (format : string)
  (args : list arg) (l : Logger) (w : World) :
  level l <= lv -> stopped (workerPool l) = true ->
  let o := logAt lv format args (l, w) in
  let n := match hooks l with [] => wg l | _ => S (wg l) end in
  let line := rendered lv (fst (getFormattedTime (l, w))) format args in
  produced w o
  = (EOutput line :: map (fun d => EWrite d line) (output l))
    ++ (if (n =? 0)%nat then terminalEffects lv format args else []) /\
  ending o
  = (if (n =? 0)%nat then terminalEnding lv format args w
     else if (lv =? FATAL) || (lv =? PANIC) then Blocked else Returned) /\
  workerPool (fst (final o)) = workerPool l /\
  hooks (fst (final o)) = hooks l /\ wg (fst (final o)) = n.
Proof.
  intros Hge Hs. cbv zeta.
  destruct (logAt_closed lv format args l w Hge)
    as (b & l2 & w6 & E & _ & Hh & Hwg & Hwp & Heff & Hx & Hp & _).
  cbv zeta in E, Heff. rewrite E. clear E.
  change (panicBranch lv format args)
    with (msg_panicBranch lv (Sprintf format args)).
  rewrite dispatch_msg.
  set (m := Sprintf format args).
  destruct (dispatch_stopped lv m l2) as (Dp & Dh & Dw);
    [now rewrite Hwp |].
  destruct (tail_stopped lv m (msg_dispatch lv m l2) w6) as [Efin Eend];
    [now rewrite Dp, Hwp |].
  cbv zeta in Efin, Eend. set (o := andThen _ _) in *.
  destruct (release_final b o) as (Ee & Ew & (pl & El)).
  cbv zeta in Ee, Ew, El.
  unfold produced. rewrite Ee, Ew, El, Efin, Eend. cbn [fst snd].
  rewrite Dw, Hh, Hwg. cbn [effects emit]. rewrite Heff, <- app_assoc.
  rewrite drop_app_length.
  rewrite terminalEffects_msg, terminalEnding_msg. fold m.
  unfold msg_terminalEnding. rewrite Hx, Hp.
  cbn [workerPool hooks wg set_pool]. rewrite Dp, Dh, Dw, Hwp, Hh, Hwg.
  repeat split; reflexivity.
Qed.

(** X11.  Once the worker pool is stopped (by [Close], or by a [Fatal] or
    [Panic] whose exit or panic function returned), no emission invokes a
    hook any more, neither in the call nor later: the workers have nothing
    to run, and the pool stays stopped. *)
Theorem stopped_pool_never_invokes `{GoLib} (lv : Level) (format : string)
  (args : list arg) (l : Logger) (w : World) :
  stopped (workerPool l) = true ->
  let o := logAt lv format args (l, w) in
  invocations (produced w o) = [] /\
  runWorkers (final o) = final o /\
  workerPool (fst (final o)) = workerPool l.
Proof.
  intros Hs. cbv zeta.
  assert (Hidle : forall st, workerPool (fst st) = workerPool l ->
                             runWorkers st = st).
  { intros [l' w'] Hp. unfold runWorkers. cbn in Hp. now rewrite Hp, Hs. }
  destruct (Z.lt_ge_cases lv (level l)) as [Hlt|Hge].
  - rewrite logAt_rejected by exact Hlt. unfold produced. cbn [final snd fst].
    rewrite drop_all. split; [reflexivity |].
    split; [now apply Hidle | reflexivity].
  - destruct (logAt_stopped lv format args l w Hge Hs) as (Ep & _ & Hp & _).
    cbv zeta in Ep. rewrite Ep. split; [| split; [now apply Hidle | exact Hp]].
    rewrite invocations_app, invocations_line.
    destruct (_ =? 0)%nat; [| reflexivity].
    rewrite terminalEffects_msg. apply invocations_terminal.
Qed.

Lemma stopped_pool_never_invokes_witness :
  stopped (workerPool lateHookLogger) = true /\
  hooks lateHookLogger <> [] /\
  let o := logAt ERROR "lost" [] (lateHookLogger, snd closedState) in
  invocations (produced (snd closedState) o) = [] /\
  runWorkers (final o) = final o /\
  workerPool (fst (final o)) = workerPool lateHookLogger.
Proof.
  assert (Hs : stopped (workerPool lateHookLogger) = true) by reflexivity.
  split; [exact Hs |]. split; [discriminate |].
  exact (stopped_pool_never_invokes ERROR "lost" [] lateHookLogger
           (snd closedState) Hs).
Defined.

(** X12.  On a stopped pool with at least one hook registered, every
    [Fatal] and [Panic] that passes the gate writes its line and then
    sleeps for ever in [wg.Wait()]: the counter was raised for a job that
    [submit] dropped.  Nothing but the line is written; the exit or panic
    function is not called. *)
Theorem terminal_emission_blocks_on_stopped_pool `{GoLib} (lv : Level)
  (format : string) (args : list arg) (l : Logger) (w : World) :
  level l <= lv -> lv = FATAL \/ lv = PANIC ->
  stopped (workerPool l) = true -> hooks l <> [] ->
  let o := logAt lv format args (l, w) in
  let line := rendered lv (fst (getFormattedTime (l, w))) format args in
  ending o = Blocked /\
  produced w o = EOutput line :: map (fun d => EWrite d line) (output l) /\
  wg (fst (final o)) = S (wg l).
Proof.
  intros Hge Hterm Hs Hhooks. cbv zeta.
  destruct (logAt_stopped lv format args l w Hge Hs) as (Ep & Ee & _ & _ & Hn).
  cbv zeta in Ep, Ee, Hn. rewrite Ep, Ee, Hn.
  destruct (hooks l) as [|h hs]; [contradiction |]. cbn [Nat.eqb].
  rewrite app_nil_r.
  assert (Ht : (lv =? FATAL) || (lv =? PANIC) = true)
    by (destruct Hterm as [-> | ->]; reflexivity).
  rewrite Ht. repeat split; reflexivity.
Qed.

Lemma terminal_emission_blocks_on_stopped_pool_witness :
  (level lateHookLogger <= PANIC /\ (PANIC = FATAL \/ PANIC = PANIC) /\
   stopped (workerPool lateHookLogger) = true /\ hooks lateHookLogger <> []) /\
  let o := logAt PANIC "down" [] (lateHookLogger, snd closedState) in
  ending o = Blocked /\
  existsb is_output (produced (snd closedState) o) = true /\
  wg (fst (final o)) = 1%nat.
Proof.
  assert (Hge : level lateHookLogger <= PANIC) by (vm_compute; discriminate).
  assert (Hterm : PANIC = FATAL \/ PANIC = PANIC) by (right; reflexivity).
  assert (Hs : stopped (workerPool lateHookLogger) = true) by reflexivity.
  assert (Hh : hooks lateHookLogger <> []) by discriminate.
  split; [repeat split; assumption |].
  destruct (terminal_emission_blocks_on_stopped_pool PANIC "down" []
              lateHookLogger (snd closedState) Hge Hterm Hs Hh)
    as (E & P & Hwg).
  cbv zeta. split; [exact E |]. split; [rewrite P; reflexivity | exact Hwg].
Defined.

(** ** The wait group and the queue *)

Lemma tail_running_logger `{GoLib} (lv : Level) (m : string) (l : Logger)
  (w : World) :
  stopped (workerPool l) = false ->
  (wg l <= length (jobs (workerPool l)))%nat ->
  let o := andThen (fatalBranch lv (l, w)) (msg_panicBranch lv m) in
  ending o = msg_terminalEnding lv m w /\
  (lv = FATAL \/ lv = PANIC ->
   wg (fst (final o)) = 0%nat /\ workerPool (fst (final o)) = mkPool [] true) /\
  (lv <> FATAL -> lv <> PANIC -> o = Returns (l, w)).
Proof.
  intros Hrun Hwg. cbv zeta.
  split; [| split; [| intros Hnf Hnp; now apply tail_ordinary]].
  - destruct (Wait_running l w Hrun Hwg) as (l' & w' & effs & E & _ & _ & Hx & Hp).
    unfold fatalBranch, msg_panicBranch, msg_terminalEnding.
    destruct (lv =? FATAL) eqn:Hf.
    + rewrite E. cbn [exitFunc emit]. rewrite Hx. destruct (exitFunc w);
        [reflexivity |]. cbn [andThen]. apply Z.eqb_eq in Hf. subst lv.
      reflexivity.
    + cbn [andThen]. destruct (lv =? PANIC); [| reflexivity].
      rewrite E. cbn [panicFunc emit]. rewrite Hp.
      destruct (panicFunc w); reflexivity.
  - intros Hterm.
    destruct (Wait_closed l) as (hs & effs & _ & _ & _ & E). cbv zeta in E.
    rewrite Hrun in E.
    replace (wg l - length (jobs (workerPool l)))%nat with 0%nat in E by lia.
    cbn [Nat.eqb] in E.
    unfold fatalBranch, msg_panicBranch.
    destruct Hterm as [-> | ->].
    + cbn [Z.eqb FATAL]. change (5 =? 5) with true. cbv iota. rewrite E.
      cbn [exitFunc emit].
      destruct (exitFunc w); cbn; split; reflexivity.
    + change (PANIC =? FATAL) with false. cbv iota. cbn [andThen].
      change (PANIC =? PANIC) with true. cbv iota. rewrite E.
      cbn [panicFunc emit].
      destruct (panicFunc w); cbn; split; reflexivity.
Qed.

Lemma dispatch_balanced (lv : Level) (m : string) (l : Logger) :
  stopped (workerPool l) = false -> balanced l ->
  stopped (workerPool (msg_dispatch lv m l)) = false /\
  balanced (msg_dispatch lv m l).
Proof.
  unfold balanced. intros Hrun Hb. rewrite dispatch_fields.
  destruct (hooks l); [split; assumption |].
  cbn. unfold submit. rewrite Hrun. cbn. rewrite length_app. cbn.
  split; [reflexivity | lia].
Qed.

(** X13.  While the pool runs, the wait-group counter equals the number
    of queued jobs, and every emission keeps it so: an ordinary emission
    adds one to both or to neither, a terminal one drains the queue before
    it stops the pool.  Hence on a running pool no emission sleeps for
    ever, and only [FATAL] and [PANIC] stop the pool. *)
Theorem wait_group_counts_queued_jobs `{GoLib} (lv : Level) (format : string)
  (args : list arg) (l : Logger) (w : World) :
  stopped (workerPool l) = false -> balanced l ->
  let o := logAt lv format args (l, w) in
  balanced (fst (final o)) /\ ending o <> Blocked /\
  (lv <> FATAL -> lv <> PANIC -> stopped (workerPool (fst (final o))) = false).
Proof.
  intros Hrun Hb. cbv zeta.
  destruct (Z.lt_ge_cases lv (level l)) as [Hlt|Hge].
  - rewrite logAt_rejected by exact Hlt. cbn.
    split; [exact Hb |]. split; [discriminate | intros _ _; exact Hrun].
  - destruct (logAt_closed lv format args l w Hge)
      as (b & l2 & w6 & E & _ & Hh & Hwg & Hwp & _).
    cbv zeta in E. rewrite E. clear E.
    change (panicBranch lv format args)
      with (msg_panicBranch lv (Sprintf format args)).
    rewrite dispatch_msg. set (m := Sprintf format args).
    destruct (dispatch_balanced lv m l2) as [Hrun3 Hb3];
      [now rewrite Hwp | unfold balanced; now rewrite Hwg, Hwp |].
    destruct (tail_running_logger lv m (msg_dispatch lv m l2) w6 Hrun3)
      as (Eend & Hterm & Hord); [unfold balanced in Hb3; lia |].
    cbv zeta in Eend, Hterm, Hord. set (o := andThen _ _) in *.
    destruct (release_final b o) as (Ee & _ & (pl & El)).
    cbv zeta in Ee, El. rewrite Ee, El, Eend.
    unfold balanced. cbn [wg workerPool set_pool].
    split; [| split].
    + destruct (Z.eq_dec lv FATAL) as [Hf|Hnf];
        [destruct Hterm as [-> ->]; [now left | reflexivity] |].
      destruct (Z.eq_dec lv PANIC) as [Hp|Hnp];
        [destruct Hterm as [-> ->]; [now right | reflexivity] |].
      rewrite (Hord Hnf Hnp). exact Hb3.
    + unfold msg_terminalEnding.
      destruct (lv =? FATAL); [destruct (exitFunc w6); discriminate |].
      destruct (lv =? PANIC); [destruct (panicFunc w6); discriminate |].
      discriminate.
    + intros Hnf Hnp. rewrite (Hord Hnf Hnp). exact Hrun3.
Qed.

Lemma wait_group_counts_queued_jobs_witness :
  (stopped (workerPool scenarioLogger) = false /\ balanced scenarioLogger) /\
  (let o := logAt INFO "one" [] (scenarioLogger, world0) in
   balanced (fst (final o)) /\ ending o <> Blocked /\
   wg (fst (final o)) = 1%nat) /\
  (let o := logAt FATAL "two" [] (scenarioLogger, world0) in
   balanced (fst (final o)) /\ ending o <> Blocked /\
   wg (fst (final o)) = 0%nat).
Proof.
  assert (Hrun : stopped (workerPool scenarioLogger) = false) by reflexivity.
  assert (Hb : balanced scenarioLogger) by reflexivity.
  split; [split; assumption |].
  destruct (wait_group_counts_queued_jobs INFO "one" [] scenarioLogger world0
              Hrun Hb) as (B1 & E1 & _).
  destruct (wait_group_counts_queued_jobs FATAL "two" [] scenarioLogger world0
              Hrun Hb) as (B2 & E2 & _).
  split.
  - split; [exact B1 |]. split; [exact E1 | vm_compute; reflexivity].
  - split; [exact B2 |]. split; [exact E2 | vm_compute; reflexivity].
Defined.

(** X14.  With no hook registered and no dispatch outstanding, on a
    running pool or on a stopped one, an emission that passes the gate
    ends as its level says: [Fatal] calls the exit function with status 1
    and [Panic] the panic function with the formatted text, after the
    line, the wait and the stop.  This holds in particular right after
    [Close]. *)
Theorem terminal_actions_without_hooks `{GoLib} (lv : Level)
  (format : string) (args : list arg) (l : Logger) (w : World) :
  level l <= lv -> hooks l = [] -> wg l = 0%nat ->
  let o := logAt lv format args (l, w) in
  exists before,
    produced w o = before ++ terminalEffects lv format args /\
    Forall (fun e => is_terminal e = false) before /\
    ending o = terminalEnding lv format args w.
Proof.
  intros Hge Hnone Hzero. cbv zeta.
  assert (Hline : forall line ds,
            Forall (fun e => is_terminal e = false)
              (EOutput line :: map (fun d => EWrite d line) ds)).
  { intros line ds. constructor; [reflexivity |].
    apply Forall_forall. intros x Hin.
    apply list_elem_of_fmap in Hin as (d & -> & _). reflexivity. }
  destruct (stopped (workerPool l)) eqn:Hs.
  - destruct (logAt_stopped lv format args l w Hge Hs) as (Ep & Ee & _).
    cbv zeta in Ep, Ee. rewrite Hnone, Hzero in Ep, Ee. cbn [Nat.eqb] in Ep, Ee.
    eexists. split; [exact Ep |]. split; [apply Hline | exact Ee].
  - destruct (logAt_closed lv format args l w Hge)
      as (b & l2 & w6 & E & _ & Hh & Hwg & Hwp & Heff & Hx & Hp & _).
    cbv zeta in E, Heff. rewrite E. clear E.
    assert (Hd : dispatch lv format args l2 = l2)
      by (unfold dispatch; now rewrite Hh, Hnone).
    rewrite Hd.
    destruct (tail_running lv format args l2 w6) as (effs & Etail & Hq & Hend);
      [now rewrite Hwp | rewrite Hwg, Hzero; lia |].
    cbv zeta in Etail, Hend. set (o := andThen _ _) in *.
    destruct (release_final b o) as (Ee & Ew & _). cbv zeta in Ee, Ew.
    match type of Heff with
    | _ = _ ++ ?written => exists (written ++ effs)
    end.
    unfold produced. rewrite Ew, Ee, Etail, Heff, Hend, <- !app_assoc.
    rewrite drop_app_length. split; [reflexivity |].
    split.
    + apply Forall_app. split; [apply Hline |].
      eapply Forall_impl; [exact Hq | apply hook_effect_not_terminal].
    + unfold terminalEnding. now rewrite Hx, Hp.
Qed.

Lemma terminal_actions_without_hooks_witness :
  (level (fst closedState) <= FATAL /\ hooks (fst closedState) = [] /\
   wg (fst closedState) = 0%nat /\
   stopped (workerPool (fst closedState)) = true) /\
  let o := logAt FATAL "down" [] closedState in
  exists before,
    produced (snd closedState) o = before ++ [EWaited; EStopped; EExit 1] /\
    Forall (fun e => is_terminal e = false) before /\
    ending o = Exited 1.
Proof.
  assert (Hge : level (fst closedState) <= FATAL) by (vm_compute; discriminate).
  assert (Hh : hooks (fst closedState) = []) by reflexivity.
  assert (Hz : wg (fst closedState) = 0%nat) by reflexivity.
  split; [repeat split; assumption |].
  exact (terminal_actions_without_hooks FATAL "down" [] (fst closedState)
           (snd closedState) Hge Hh Hz).
Defined.

(** ** Closing the logger *)

Lemma stop_stopped (p : WorkerPool) : stopped (stop p) = true.
Proof. unfold stop. destruct (stopped p) eqn:E; [exact E | reflexivity]. Qed.

Lemma stop_idempotent (p : WorkerPool) : stop (stop p) = stop p.
Proof. unfold stop at 1. now rewrite stop_stopped. Qed.

(** X15.  With no dispatch outstanding, [Close] returns at once: the pool
    is stopped, the hook list is empty, the configuration is unchanged.
    A second [Close] returns as well and changes nothing more. *)
Theorem Close_without_pending_hooks `{GoLib} (l : Logger) (w : World) :
  wg l = 0%nat ->
  exists l',
    Close (l, w) = Returns (l', emit [EWaited] w) /\
    hooks l' = [] /\ wg l' = 0%nat /\ stopped (workerPool l') = true /\
    settings l' = settings l /\
    Close (l', emit [EWaited] w) = Returns (l', emit [EWaited; EWaited] w).
Proof.
  intros Hzero.
  exists (set_hooks [] (set_workerPool (stop (workerPool l)) l)).
  assert (E : forall l0 w0, wg l0 = 0%nat ->
            Close (l0, w0)
            = Returns (set_hooks [] (set_workerPool (stop (workerPool l0)) l0),
                       emit [EWaited] w0)).
  { intros l0 w0 Hz. unfold Close. rewrite Wait_stopped by apply stop_stopped.
    cbn [wg set_workerPool]. rewrite Hz. reflexivity. }
  split; [now apply E |]. split; [reflexivity |]. split; [exact Hzero |].
  split; [apply stop_stopped |]. split; [reflexivity |].
  rewrite E by exact Hzero. cbn [workerPool set_hooks set_workerPool].
  rewrite stop_idempotent, emit_emit. reflexivity.
Qed.

Lemma Close_without_pending_hooks_witness :
  wg scenarioLogger = 0%nat /\
  exists l',
    Close (scenarioLogger, world0) = Returns (l', emit [EWaited] world0) /\
    hooks l' = [] /\ wg l' = 0%nat /\ stopped (workerPool l') = true /\
    settings l' = settings scenarioLogger /\
    Close (l', emit [EWaited] world0)
    = Returns (l', emit [EWaited; EWaited] world0).
Proof.
  assert (Hz : wg scenarioLogger = 0%nat) by reflexivity.
  split; [exact Hz |].
  exact (Close_without_pending_hooks scenarioLogger world0 Hz).
Defined.

(** X16.  The hook list never outgrows [maxHooks]: a logger whose list
    is within capacity stays within it, at the same capacity, through
    [AddHook], through an emission however it ends, through the workers
    running the queued jobs, and through [Close]. *)
Theorem registry_never_exceeds_capacity `{GoLib} (l : Logger) :
  Z.of_nat (length (hooks l)) <= maxHooks l ->
  let within l' :=
    Z.of_nat (length (hooks l')) <= maxHooks l' /\ maxHooks l' = maxHooks l in
  (forall hook prio, within (snd (AddHook hook prio l))) /\
  (forall lv format args w, within (fst (final (logAt lv format args (l, w))))) /\
  (forall w, within (fst (runWorkers (l, w)))) /\
  (forall w, within (fst (final (Close (l, w))))).
Proof.
  intros Hcap within.
  assert (Hsub : forall l', maxHooks l' = maxHooks l ->
                            sublist (hooks l') (hooks l) -> within l').
  { intros l' Hm Hs. split; [| exact Hm]. rewrite Hm.
    apply sublist_length in Hs. lia. }
  split; [| split; [| split]].
  - intros hook prio. subst within. unfold AddHook.
    destruct (Z.leb_spec (maxHooks l) (Z.of_nat (length (hooks l)))) as [Hfull|Hroom];
      cbn [snd]; [split; [exact Hcap | reflexivity] |].
    cbn [hooks maxHooks set_hooks]. rewrite length_app. cbn [length].
    split; [lia | reflexivity].
  - intros lv format args w.
    destruct (logAt_steady lv format args l w)
      as ((Hs & _ & Hh & _) & _).
    apply Hsub; [| exact Hh]. unfold settings in Hs. congruence.
  - intros w. destruct (runWorkers_closed l) as (hs & effs & Hs & _ & _ & E).
    rewrite E. cbn [fst]. apply Hsub; [reflexivity | exact Hs].
  - intros w. unfold Close.
    destruct (Wait_closed (set_workerPool (stop (workerPool l)) l))
      as (hs & effs & Hs & _ & _ & E).
    cbv zeta in E. rewrite E.
    destruct (_ =? 0)%nat; cbn [final fst].
    + apply Hsub; [reflexivity | apply sublist_nil_l].
    + apply Hsub; [reflexivity | exact Hs].
Qed.

Lemma registry_never_exceeds_capacity_witness :
  Z.of_nat (length (hooks fullLogger)) <= maxHooks fullLogger /\
  Z.of_nat (length (hooks (snd (AddHook recorder 0 fullLogger)))) <= 100 /\
  Z.of_nat (length (hooks (fst (final (logAt INFO "m" [] (fullLogger, world0))))))
  <= 100 /\
  Z.of_nat (length (hooks (fst (final (Close (fullLogger, world0)))))) <= 100.
Proof.
  assert (Hcap : Z.of_nat (length (hooks fullLogger)) <= maxHooks fullLogger)
    by (vm_compute; discriminate).
  split; [exact Hcap |].
  destruct (registry_never_exceeds_capacity fullLogger Hcap)
    as (A & B & _ & D).
  destruct (A recorder 0) as [A1 A2].
  destruct (B INFO "m" [] world0) as [B1 B2].
  destruct (D world0) as [D1 D2].
  rewrite A2 in A1. rewrite B2 in B1. rewrite D2 in D1.
  split; [exact A1 |]. split; [exact B1 | exact D1].
Defined.

(** ** The unformatted builder and the formatted one *)

Lemma release_eq (b : option nat) (o : Outcome) :
  match o with
  | Returns st' => Returns (putBuffer b st')
  | Panics v st' => Panics v (putBuffer b st')
  | Exits c st' => Exits c st'
  | Blocks st' => Blocks st'
  end
  = match o with
    | Returns st' => Returns (putBuffer b st')
    | Panics v st' => Panics v (putBuffer b st')
    | _ => o
    end.
Proof. destruct o; reflexivity. Qed.

Lemma msg_closed `{GoLib} (e : event) (m : string) (l : Logger) (w : World) :
  exists l2 w4 w6 prior,
    (let o := andThen (fatalBranch (ev_level e)
                         (msg_dispatch (ev_level e) m l2, w4))
                      (msg_panicBranch (ev_level e) m) in
     msg (Some e) m (l, w)
     = match o with
       | Returns st' => Returns (putBuffer (Some (buf e)) st')
       | Panics v st' => Panics v (putBuffer (Some (buf e)) st')
       | _ => o
       end) /\
    (let o := andThen (fatalBranch (ev_level e)
                         (dispatch (ev_level e) m [] l2, w6))
                      (panicBranch (ev_level e) m []) in
     msgf (Some e) m [] (l, w)
     = match o with
       | Returns st' => Returns (putBuffer (Some (buf e)) st')
       | Panics v st' => Panics v (putBuffer (Some (buf e)) st')
       | _ => o
       end) /\
    steady l l2 /\ hooks l2 = hooks l /\ wg l2 = wg l /\
    workerPool l2 = workerPool l /\
    (bytes (deref w (buf e)) = "" -> prior = "") /\
    (let line :=
       prior +:+ rendered (ev_level e) (fst (getFormattedTime (l, w))) m [] in
     effects w4
     = effects w ++ EOutput line :: map (fun d => EWrite d line) (output l)) /\
    effects w6 = effects w4 /\
    exitFunc w4 = exitFunc w /\ panicFunc w4 = panicFunc w /\
    exitFunc w6 = exitFunc w /\ panicFunc w6 = panicFunc w.
Proof.
  destruct (builders_closed e m l w)
    as (e1 & l2 & prior & _ & St & Hh & Hwg & Hwp & Hprior & Hf & Hm).
  destruct (Hf []) as (w6 & Ef & Heff6 & Hx6 & Hp6 & _).
  destruct Hm as (w4 & Em & Heff4 & Hx4 & Hp4 & _).
  exists l2, w4, w6, prior. cbv zeta in *.
  unfold msg, msgf. rewrite Ef, Em. cbn [snd].
  split; [apply release_eq |]. split; [apply release_eq |].
  repeat (split; [assumption |]).
  split; [congruence |]. repeat split; assumption.
Qed.

(** X17.  For a message that [fmt.Sprintf] leaves as it is (one without
    [%] directives), [msg(m)] and [msgf(m)] without operands are
    interchangeable to an observer: they end the same way, perform the
    same effects in the same order, and leave the same hook list,
    wait-group counter and worker pool. *)
Theorem msg_is_msgf_without_operands `{GoLib} (e : event) (m : string)
  (l : Logger) (w : World) :
  Sprintf m [] = m ->
  let a := msg (Some e) m (l, w) in
  let b := msgf (Some e) m [] (l, w) in
  ending a = ending b /\
  effects (snd (final a)) = effects (snd (final b)) /\
  hooks (fst (final a)) = hooks (fst (final b)) /\
  wg (fst (final a)) = wg (fst (final b)) /\
  workerPool (fst (final a)) = workerPool (fst (final b)).
Proof.
  intros Hplain. cbv zeta.
  destruct (msg_closed e m l w)
    as (l2 & w4 & w6 & prior & Em & Ef & _ & _ & _ & _ & _ & _ & Heff & Hx4
        & Hp4 & Hx6 & Hp6).
  cbv zeta in Em, Ef. rewrite Em, Ef. clear Em Ef.
  assert (Hplain' : Sprintf m (@nil arg) = m) by exact Hplain.
  change (panicBranch (ev_level e) m [])
    with (msg_panicBranch (ev_level e) (Sprintf m (@nil arg))).
  rewrite dispatch_msg, !Hplain'.
  destruct (tail_closed (ev_level e) m (msg_dispatch (ev_level e) m l2))
    as (hs & n & p & effs & en & _ & T).
  destruct (T w4) as [Fa Ea]. destruct (T w6) as [Fb Eb].
  cbv zeta in Fa, Ea, Fb, Eb.
  set (oa := andThen (fatalBranch _ (_, w4)) _) in *.
  set (ob := andThen (fatalBranch _ (_, w6)) _) in *.
  destruct (release_final (buf e) oa) as (Ra & Wa & (pla & La)).
  destruct (release_final (buf e) ob) as (Rb & Wb & (plb & Lb)).
  cbv zeta in Ra, Wa, La, Rb, Wb, Lb.
  rewrite Ra, Rb, Wa, Wb, La, Lb, Fa, Fb, Ea, Eb, Hx4, Hp4, Hx6, Hp6.
  cbn [fst snd effects emit hooks wg workerPool set_pool]. rewrite Heff.
  repeat split; reflexivity.
Qed.

Lemma msg_is_msgf_without_operands_witness :
  Sprintf "ready" (@nil arg) = "ready" /\
  let e := mkEvent PANIC 0 in
  let a := msg (Some e) "ready" midState in
  let b := msgf (Some e) "ready" [] midState in
  ending a = ending b /\ ending a = Panicked "ready" /\
  effects (snd (final a)) = effects (snd (final b)).
Proof.
  assert (Hplain : Sprintf "ready" (@nil arg) = "ready") by reflexivity.
  split; [exact Hplain |]. cbv zeta.
  destruct (msg_is_msgf_without_operands (mkEvent PANIC 0) "ready"
              (fst midState) (snd midState) Hplain) as (E & F & _).
  split; [exact E |]. split; [vm_compute; reflexivity | exact F].
Defined.

(** X18.  [msg(m)] at a level other than [FATAL] and [PANIC], on a freshly
    leased buffer, returns after writing the line colour, padded label,
    reset, space, timestamp, colon and space, [m], newline, to every
    destination once; and the job it submits when hooks are registered
    carries [m] itself, unformatted. *)
Theorem msg_hands_hooks_the_message `{GoLib} (e : event) (m : string)
  (l : Logger) (w : World) :
  bytes (deref w (buf e)) = "" ->
  ev_level e <> FATAL -> ev_level e <> PANIC ->
  exists st',
    msg (Some e) m (l, w) = Returns st' /\
    (let line :=
       levelColors (ev_level e) +:+ Level_.PaddedString (ev_level e)
       +:+ colorReset +:+ " " +:+ fst (getFormattedTime (l, w)) +:+ ": "
       +:+ m +:+ newline in
     produced w (Returns st')
     = EOutput line :: map (fun d => EWrite d line) (output l)) /\
    hooks (fst st') = hooks l /\
    wg (fst st') = match hooks l with [] => wg l | _ => S (wg l) end /\
    workerPool (fst st')
    = match hooks l with
      | [] => workerPool l
      | _ => submit (mkJob (ev_level e) m) (workerPool l)
      end.
Proof.
  intros Hempty Hnf Hnp.
  destruct (msg_closed e m l w)
    as (l2 & w4 & w6 & prior & Em & _ & _ & Hh & Hwg & Hwp & Hprior & Heff & _).
  cbv zeta in Em, Heff. rewrite (Hprior Hempty) in Heff.
  rewrite tail_ordinary in Em by assumption.
  eexists. split; [exact Em |].
  destruct (putBuffer_logger (Some (buf e)) (msg_dispatch (ev_level e) m l2, w4))
    as (pl & El).
  unfold produced. cbn [final]. rewrite putBuffer_effects, El. cbn [fst snd].
  split; [rewrite Heff; apply drop_app_length |].
  rewrite dispatch_fields, Hh, Hwg, Hwp.
  destruct (hooks l) eqn:Eh; cbn.
  - rewrite Hh, Hwg, Hwp. repeat split; assumption.
  - repeat split.
Qed.

Lemma msg_hands_hooks_the_message_witness :
  let e := mkEvent INFO 0 in
  let l := fst (snd (newEvent INFO (scenarioLogger, world0))) in
  let w := snd (snd (newEvent INFO (scenarioLogger, world0))) in
  (fst (newEvent INFO (scenarioLogger, world0)) = Some e /\
   bytes (deref w (buf e)) = "" /\
   ev_level e <> FATAL /\ ev_level e <> PANIC) /\
  exists st',
    msg (Some e) "100%" (l, w) = Returns st' /\
    workerPool (fst st') = mkPool [mkJob INFO "100%"] false /\
    jobs (workerPool (fst (final (msgf (Some e) "100%" [] (l, w)))))
    = [mkJob INFO "100%!(NOVERB)"].
Proof.
  cbv zeta.
  assert (He : fst (newEvent INFO (scenarioLogger, world0))
               = Some (mkEvent INFO 0)) by reflexivity.
  assert (Hempty : bytes (deref (snd (snd (newEvent INFO (scenarioLogger, world0))))
                            (buf (mkEvent INFO 0))) = "")
    by (vm_compute; reflexivity).
  assert (Hnf : ev_level (mkEvent INFO 0) <> FATAL)
    by (cbn; unfold INFO, FATAL; lia).
  assert (Hnp : ev_level (mkEvent INFO 0) <> PANIC)
    by (cbn; unfold INFO, PANIC; lia).
  split; [repeat split; assumption |].
  destruct (msg_hands_hooks_the_message (mkEvent INFO 0) "100%"
              (fst (snd (newEvent INFO (scenarioLogger, world0))))
              (snd (snd (newEvent INFO (scenarioLogger, world0))))
              Hempty Hnf Hnp) as (st' & E & _ & _ & _ & Hwp).
  exists st'. split; [exact E |]. split; [rewrite Hwp; reflexivity |].
  vm_compute. reflexivity.
Defined.

(** ** The pool of buffers *)

Lemma deref_store_ne (p q : nat) (s : Slice) (w : World) :
  p <> q -> deref (store q s w) p = deref w p.
Proof.
  intros Hne. unfold deref, store. cbn.
  now rewrite lookup_insert_ne by congruence.
Qed.

Lemma pool_ok_frame (l l' : Logger) (w w' : World) :
  pool_ok (l, w) ->
  pool l' = pool l -> bufSize l' = bufSize l ->
  (allocated w <= allocated w')%nat ->
  (forall p, p ∈ pool l -> deref w' p = deref w p) ->
  pool_ok (l', w').
Proof.
  unfold pool_ok. cbn [fst snd]. intros [Hnd Hall] Hp Hb Ha Hd.
  rewrite Hp, Hb. split; [exact Hnd |].
  apply Forall_forall. intros p Hin.
  rewrite Forall_forall in Hall. destruct (Hall p Hin) as [Hlt Hcap].
  rewrite (Hd p Hin). split; [lia | exact Hcap].
Qed.

Lemma pool_ok_tail (q : nat) (rest : list nat) (l : Logger) (w : World) :
  pool l = q :: rest -> pool_ok (l, w) ->
  pool_ok (set_pool rest l, w) /\ (q ∉ rest) /\ (q < allocated w)%nat.
Proof.
  unfold pool_ok. cbn [fst snd pool bufSize set_pool]. intros -> [Hnd Hall].
  apply NoDup_cons in Hnd as [Hq Hnd]. apply Forall_cons in Hall as [[Hlt _] Hall].
  repeat split; assumption.
Qed.

(** What [getBuffer] hands out is allocated, is not in the pool any more
    and is none of the buffers that were held outside the pool. *)
Lemma getBuffer_pool (size : Z) (l : Logger) (w : World) :
  pool_ok (l, w) ->
  let b := fst (getBuffer size (l, w)) in
  let l' := fst (snd (getBuffer size (l, w))) in
  let w' := snd (snd (getBuffer size (l, w))) in
  pool_ok (l', w') /\ (b ∉ pool l') /\ (b < allocated w')%nat /\
  bufSize l' = bufSize l /\ sublist (pool l') (pool l) /\
  (allocated w <= allocated w')%nat /\
  (forall p, (p < allocated w)%nat -> p ∉ pool l -> p <> b) /\
  (forall p, p <> b -> deref w' p = deref w p).
Proof.
  intros Hok. cbv zeta.
  assert (Hfresh : forall n,
            pool_ok (l, snd (make n w)) /\ (fst (make n w) ∉ pool l)).
  { intros n. unfold make. cbn [fst snd]. split.
    - apply (pool_ok_frame l l w); [exact Hok | reflexivity | reflexivity
                                   | cbn; lia |].
      intros p Hin. destruct Hok as [_ Hall]. cbn [fst snd] in Hall.
      rewrite Forall_forall in Hall. destruct (Hall p Hin) as [Hlt _].
      unfold deref. cbn. rewrite lookup_insert_ne by lia. reflexivity.
    - intros Hin. destruct Hok as [_ Hall]. cbn [fst snd] in Hall.
      rewrite Forall_forall in Hall. destruct (Hall _ Hin) as [Hlt _]. lia. }
  assert (Hmake : forall n p, p <> allocated w ->
            deref (snd (make n w)) p = deref w p).
  { intros n p Hne. unfold make, deref. cbn.
    now rewrite lookup_insert_ne by congruence. }
  unfold getBuffer, pool_Get.
  destruct (_ <? size).
  - destruct (Hfresh size) as [Hok' Hno]. cbn [fst snd make] in *.
    split; [exact Hok' |]. split; [exact Hno |]. split; [cbn; lia |].
    split; [reflexivity |]. split; [reflexivity |]. split; [cbn; lia |].
    split; [intros p Hlt _; lia |]. intros p Hne. now apply (Hmake size).
  - destruct (pool l) as [|q rest] eqn:Hpool.
    + destruct (Hfresh (bufSize l)) as [Hok' Hno]. cbn [fst snd make] in *.
      rewrite Hpool in *.
      split.
      { apply (pool_ok_frame l l (set_heap (<[allocated w := mkSlice (bufSize l) ""]> (heap w)) (S (allocated w)) w));
          [exact Hok' | reflexivity | reflexivity | cbn; lia |].
        intros p Hin. rewrite Hpool in Hin. inversion Hin. }
      split; [exact Hno |].
      split; [cbn; lia |]. split; [reflexivity |]. split; [reflexivity |].
      split; [cbn; lia |]. split; [intros p Hlt _; lia |].
      intros p Hne. rewrite deref_store_ne by exact Hne.
      now apply (Hmake (bufSize l)).
    + cbn [fst snd].
      destruct (pool_ok_tail q rest l w Hpool Hok) as (Hok' & Hq & Hlt).
      split.
      { apply (pool_ok_frame (set_pool rest l) (set_pool rest l) w);
          [exact Hok' | reflexivity | reflexivity | cbn; lia |].
        intros p Hin. apply deref_store_ne. cbn in Hin. congruence. }
      split; [exact Hq |]. split; [exact Hlt |]. split; [reflexivity |].
      split; [cbn; now apply sublist_cons |].
      split; [cbn; lia |].
      split; [intros p _ Hno ->; apply Hno; left |].
      intros p Hne. now apply deref_store_ne.
Qed.

Lemma newEvent_pool (lv : Level) (l : Logger) (w : World) (e : event)
  (st' : State) :
  pool_ok (l, w) -> newEvent lv (l, w) = (Some e, st') ->
  pool_ok st' /\ (buf e ∉ pool (fst st')) /\
  (buf e < allocated (snd st'))%nat /\
  bytes (deref (snd st') (buf e)) = "" /\
  bufSize (fst st') = bufSize l /\ sublist (pool (fst st')) (pool l) /\
  (forall p, (p < allocated w)%nat -> p ∉ pool l -> p <> buf e) /\
  (forall p, p <> buf e -> deref (snd st') p = deref w p).
Proof.
  intros Hok. unfold newEvent. destruct (lv <? level l); [discriminate |].
  pose proof (getBuffer_pool (bufSize l) l w Hok) as P. cbv zeta in P.
  pose proof (getBuffer_frame (bufSize l) l w) as F.
  destruct (getBuffer (bufSize l) (l, w)) as [b [l' w']]. cbn [fst snd] in P.
  destruct F as (_ & _ & Hempty & _).
  destruct P as (Hok' & Hno & Hlt & Hbs & Hsub & _ & Hheld & Hframe).
  intros [= <- <-]. cbn [buf fst snd].
  exact (conj Hok' (conj Hno (conj Hlt (conj Hempty (conj Hbs
           (conj Hsub (conj Hheld Hframe))))))).
Qed.

(** X19.  Two builders alive at the same time never share a buffer: when
    the pool holds allocated, pairwise distinct buffers, two [newEvent]
    calls in a row, with no [putBuffer] in between, answer different
    buffers, both empty and neither in the pool any more. *)
Theorem live_events_hold_distinct_buffers (lv1 lv2 : Level) (st : State)
  (e1 e2 : event) (st1 st2 : State) :
  pool_ok st ->
  newEvent lv1 st = (Some e1, st1) -> newEvent lv2 st1 = (Some e2, st2) ->
  buf e1 <> buf e2 /\
  (buf e1 ∉ pool (fst st2)) /\ (buf e2 ∉ pool (fst st2)) /\
  bytes (deref (snd st2) (buf e1)) = "" /\
  bytes (deref (snd st2) (buf e2)) = "" /\
  pool_ok st2.
Proof.
  destruct st as [l w], st1 as [l1 w1]. intros Hok E1 E2.
  destruct (newEvent_pool lv1 l w e1 (l1, w1) Hok E1)
    as (Hok1 & Hno1 & Hlt1 & Hempty1 & _ & _ & _ & _).
  destruct (newEvent_pool lv2 l1 w1 e2 st2 Hok1 E2)
    as (Hok2 & Hno2 & _ & Hempty2 & _ & Hsub & Hheld & Hframe).
  cbn [fst snd] in *.
  assert (Hne : buf e1 <> buf e2) by (apply Hheld; assumption).
  split; [exact Hne |].
  split; [intros Hin; apply Hno1; eapply elem_of_sublist; eassumption |].
  split; [exact Hno2 |].
  split; [rewrite Hframe by exact Hne; exact Hempty1 |].
  split; [exact Hempty2 | exact Hok2].
Qed.

Lemma live_events_hold_distinct_buffers_witness :
  let e1 := mkEvent INFO 0 in
  let e2 := mkEvent WARN 1 in
  let st1 := snd (newEvent INFO usedState) in
  let st2 := snd (newEvent WARN st1) in
  (pool_ok usedState /\ pool (fst usedState) = [0%nat] /\
   newEvent INFO usedState = (Some e1, st1) /\
   newEvent WARN st1 = (Some e2, st2)) /\
  buf e1 <> buf e2 /\
  (buf e1 ∉ pool (fst st2)) /\ (buf e2 ∉ pool (fst st2)) /\
  bytes (deref (snd st2) (buf e1)) = "" /\
  bytes (deref (snd st2) (buf e2)) = "" /\
  pool_ok st2.
Proof.
  cbv zeta.
  assert (Hp : pool (fst usedState) = [0%nat]) by (vm_compute; reflexivity).
  assert (Hok : pool_ok usedState)
    by (split; apply (bool_decide_unpack _); vm_compute; exact I).
  assert (E1 : newEvent INFO usedState
               = (Some (mkEvent INFO 0), snd (newEvent INFO usedState)))
    by (vm_compute; reflexivity).
  assert (E2 : newEvent WARN (snd (newEvent INFO usedState))
               = (Some (mkEvent WARN 1),
                  snd (newEvent WARN (snd (newEvent INFO usedState)))))
    by (vm_compute; reflexivity).
  split; [exact (conj Hok (conj Hp (conj E1 E2))) |].
  exact (live_events_hold_distinct_buffers INFO WARN usedState _ _ _ _
           Hok E1 E2).
Defined.

Lemma resize_pool `{GoLib} (e : event) (est : Z) (l : Logger) (w : World) :
  pool_ok (l, w) -> buf e ∉ pool l -> (buf e < allocated w)%nat ->
  let r := resize e est (l, w) in
  pool_ok (snd r) /\ (buf (fst r) ∉ pool (fst (snd r))) /\
  (buf e ∉ pool (fst (snd r))) /\
  (buf e < allocated (snd (snd r)))%nat /\
  (buf (fst r) < allocated (snd (snd r)))%nat /\
  bufSize (fst (snd r)) = bufSize l.
Proof.
  intros Hok Hno Hlt. cbv zeta. unfold resize.
  destruct (_ <? est);
    [| cbn; exact (conj Hok (conj Hno (conj Hno (conj Hlt (conj Hlt eq_refl)))))].
  pose proof (getBuffer_pool est l w Hok) as P. cbv zeta in P.
  destruct (getBuffer est (l, w)) as [nb [l' w']]. cbn [fst snd buf] in *.
  destruct P as (Hok' & Hnb & Hnblt & Hbs & Hsub & Hmono & _ & _).
  split.
  { apply (pool_ok_frame l' l' w'); [exact Hok' | reflexivity | reflexivity
                                    | cbn; lia |].
    intros p Hin. apply deref_store_ne. congruence. }
  split; [exact Hnb |].
  split; [intros Hin; apply Hno; eapply elem_of_sublist; eassumption |].
  split; [cbn; lia |]. split; [cbn; lia | exact Hbs].
Qed.

Lemma putBuffer_pool (b : nat) (l : Logger) (w : World) :
  pool_ok (l, w) -> b ∉ pool l -> (b < allocated w)%nat ->
  pool_ok (putBuffer (Some b) (l, w)).
Proof.
  intros Hok Hno Hlt. unfold putBuffer.
  destruct (Z.ltb_spec (int_mul (bufSize l) 4) (cap (deref w b)));
    [exact Hok |].
  destruct Hok as [Hnd Hall]. unfold pool_ok. cbn [fst snd pool bufSize set_pool] in *.
  split; [now apply NoDup_cons |].
  apply Forall_cons. split; [split; [exact Hlt | lia] | exact Hall].
Qed.

(** The builder keeps the pool well formed and the leased buffer out of
    it until the deferred [putBuffer]. *)
Lemma msgf_body_pool `{GoLib} (e : event) (format : string)
  (args : list arg) (l : Logger) (w : World) :
  pool_ok (l, w) -> buf e ∉ pool l -> (buf e < allocated w)%nat ->
  let st' := final (snd (msgf_body e format args (l, w))) in
  pool_ok st' /\ (buf e ∉ pool (fst st')) /\
  (buf e < allocated (snd st'))%nat.
Proof.
  intros Hok Hno Hlt. cbv zeta. unfold msgf_body.
  pose proof (getFormattedTime_steady l w) as T. cbv zeta in T.
  destruct (getFormattedTime (l, w)) as [ts [l1 w1]]. cbn [fst snd] in T.
  destruct T as ((Hs & _) & _ & _ & _ & Hpool & Hheap & Halloc & _).
  assert (Hok1 : pool_ok (l1, w1)).
  { apply (pool_ok_frame l l1 w w1); [exact Hok | exact Hpool | | lia |].
    - unfold settings in Hs. congruence.
    - intros p _. unfold deref. now rewrite Hheap. }
  pose proof (resize_pool e (estimate (ev_level e) ts format) l1 w1 Hok1) as R.
  cbv zeta in R.
  destruct (resize e (estimate (ev_level e) ts format) (l1, w1))
    as [e1 [l2 w2]]. cbn [fst snd] in R.
  destruct R as (Hok2 & Hno1 & Hno2 & Hlt2 & _ & _);
    [now rewrite Hpool | lia |].
  cbn [snd].
  change (panicBranch (ev_level e1) format args)
    with (msg_panicBranch (ev_level e1) (Sprintf format args)).
  rewrite dispatch_msg.
  destruct (dispatch_evolve (ev_level e1) (Sprintf format args) l2)
    as (n0 & p0 & ->).
  match goal with
  | |- context [andThen (fatalBranch ?lv (?l3, ?w6)) (msg_panicBranch ?lv ?m)] =>
      destruct (tail_closed lv m l3) as (hs & n & p & effs & en & _ & T);
      destruct (T w6) as [Efin _]; cbv zeta in Efin; rewrite Efin
  end.
  cbn [fst snd pool evolve set_wg set_hooks set_workerPool].
  split; [| split; [exact Hno2 | cbn; exact Hlt2]].
  eapply (pool_ok_frame l2 _ w2); [exact Hok2 | reflexivity | reflexivity
                                  | cbn; lia |].
  intros q Hin. unfold write.
  assert (Hne : q <> buf e1) by congruence.
  unfold deref, emit, store. cbn.
  now rewrite !lookup_insert_ne by congruence.
Qed.

Lemma logAt_pool_ok `{GoLib} (lv : Level) (format : string)
  (args : list arg) (l : Logger) (w : World) :
  pool_ok (l, w) -> pool_ok (final (logAt lv format args (l, w))).
Proof.
  intros Hok. unfold logAt.
  destruct (newEvent lv (l, w)) as [[e|] [l0 w0]] eqn:En.
  - destruct (newEvent_pool lv l w e (l0, w0) Hok En)
      as (Hok0 & Hno & Hlt & _).
    cbn [fst snd] in *.
    pose proof (msgf_body_pool e format args l0 w0 Hok0 Hno Hlt) as P.
    cbv zeta in P. unfold msgf.
    destruct (snd (msgf_body e format args (l0, w0))) as [[l' w']|c st'|v [l' w']|st'];
      cbn [final] in *; destruct P as (Hok' & Hno' & Hlt');
      try exact Hok'; now apply putBuffer_pool.
  - unfold newEvent in En. destruct (lv <? level l).
    + injection En as <- <-. exact Hok.
    + destruct (getBuffer (bufSize l) (l, w)) as [b st]. discriminate.
Qed.

(** X20.  An emission, however it ends, leaves the pool well formed: when
    the pooled buffers were allocated, pairwise distinct and of a capacity
    of at most four times [bufSize] before, they are so afterwards (the
    leased buffer is out of the pool while the builder writes, and the
    deferred [putBuffer] drops it when it has grown beyond that size). *)
Theorem pool_stays_well_formed `{GoLib} (lv : Level) (format : string)
  (args : list arg) (l : Logger) (w : World) :
  pool_ok (l, w) ->
  let l' := fst (final (logAt lv format args (l, w))) in
  let w' := snd (final (logAt lv format args (l, w))) in
  NoDup (pool l') /\
  Forall (fun p => (p < allocated w')%nat /\
                   cap (deref w' p) <= int_mul (bufSize l') 4) (pool l').
Proof.
  intros Hok. cbv zeta.
  destruct (logAt_pool_ok lv format args l w Hok) as [Hnd Hall].
  split; [exact Hnd | exact Hall].
Qed.

Lemma pool_stays_well_formed_witness :
  let l := fst usedState in
  let w := snd usedState in
  (pool_ok (l, w) /\ pool l = [0%nat]) /\
  (let l' := fst (final (logAt INFO midMessage [] (l, w))) in
   let w' := snd (final (logAt INFO midMessage [] (l, w))) in
   NoDup (pool l') /\
   Forall (fun p => (p < allocated w')%nat /\
                    cap (deref w' p) <= int_mul (bufSize l') 4) (pool l')) /\
  pool (fst (final (logAt INFO midMessage [] (fst usedState, snd usedState))))
  = [0%nat].
Proof.
  cbv zeta.
  assert (Hp : pool (fst usedState) = [0%nat]) by (vm_compute; reflexivity).
  assert (Hok : pool_ok (fst usedState, snd usedState))
    by (split; apply (bool_decide_unpack _); vm_compute; exact I).
  split; [split; [exact Hok | exact Hp] |].
  split; [| vm_compute; reflexivity].
  exact (pool_stays_well_formed INFO midMessage [] (fst usedState)
           (snd usedState) Hok).
Defined.

(** ** Sequences of calls *)

Lemma perform_well_formed `{GoLib} (st : State) (c : Call arg) :
  well_formed st -> idle (fst st) -> ordinary c ->
  well_formed (perform st c) /\ idle (fst (perform st c)) /\
  exists effs,
    effects (snd (perform st c)) = effects (snd st) ++ effs /\
    Forall (fun x => is_write x = true) effs.
Proof.
  destruct st as [l w]. unfold well_formed, idle. cbn [fst snd].
  intros (Hrun & Hb & Hok & Hcap & Hout) (Hh & Hj & Hw) Hord.
  assert (Hconf : forall l', pool l' = pool l -> bufSize l' = bufSize l ->
                             pool_ok (l', w))
    by (intros l' Hp Hs; apply (pool_ok_frame l l' w w); auto).
  assert (Hnone : exists effs : list Effect,
             effects w = effects w ++ effs /\
             Forall (fun x => is_write x = true) effs)
    by (exists []; split; [now rewrite app_nil_r | constructor]).
  destruct c as [lv format args|lv|outputs|out|format];
    cbn [perform fst snd].
  - destruct Hord as [Hnf Hnp].
    pose proof (logAt_pool_ok lv format args l w Hok) as Hok'.
    destruct (Z.lt_ge_cases lv (level l)) as [Hlt|Hge].
    { rewrite logAt_rejected in * by exact Hlt. cbn [final fst snd] in *.
      exact (conj (conj Hrun (conj Hb (conj Hok (conj Hcap Hout))))
                  (conj (conj Hh (conj Hj Hw)) Hnone)). }
    destruct (logAt_ordinary lv format args l w Hge Hnf Hnp)
      as ([l' w'] & E & Heff & (Hs & _) & Hh' & Hwg & Hwp).
    rewrite E in *. cbn [final fst snd] in *. cbv zeta in Heff.
    unfold settings in Hs. injection Hs as _ Ho _ Hm _ _.
    rewrite Hh in Hh', Hwg, Hwp.
    unfold balanced in *.
    split; [| split].
    + split; [now rewrite Hwp |]. split; [now rewrite Hwg, Hwp |].
      split; [exact Hok' |]. split; [now rewrite Hh', Hm, <- Hh |].
      now rewrite Ho.
    + split; [exact Hh' |]. split; [now rewrite Hwp | now rewrite Hwg].
    + eexists. split; [exact Heff |].
      constructor; [reflexivity |].
      generalize (output l) as ds. intros ds.
      induction ds as [|d ds IHd]; cbn [map]; constructor;
        [reflexivity | exact IHd].
  - split; [| split; [exact (conj Hh (conj Hj Hw)) | exact Hnone]].
    split; [exact Hrun |]. split; [exact Hb |].
    split; [apply (Hconf (SetLevel lv l)); reflexivity |].
    split; [exact Hcap | exact Hout].
  - unfold SetOutputs. destruct outputs as [|d ds];
      (split; [| split; [exact (conj Hh (conj Hj Hw)) | exact Hnone]];
       split; [exact Hrun |]; split; [exact Hb |];
       split; [now apply Hconf |]; split; [exact Hcap | discriminate]).
  - split; [| split; [exact (conj Hh (conj Hj Hw)) | exact Hnone]].
    split; [exact Hrun |]. split; [exact Hb |].
    split; [now apply Hconf |]. split; [exact Hcap | discriminate].
  - split; [| split; [exact (conj Hh (conj Hj Hw)) | exact Hnone]].
    split; [exact Hrun |]. split; [exact Hb |].
    split; [apply (Hconf (SetTimeFormat format l)); reflexivity |].
    split; [exact Hcap | exact Hout].
Qed.

(** X24.  A logger made by [New] to which no hook is added never gives
    the workers anything to do.  Whatever one goroutine does with it, in
    any order and any number of times, short of an emission at [FATAL]
    or [PANIC] and of [Close] (emissions at the other levels, [SetLevel],
    [SetOutputs], [SetOutput], [SetTimeFormat]), the logger stays in
    working order (the pool runs, the buffer pool is well formed, there
    is at least one destination), no job is ever queued and the
    wait-group counter stays at zero, and all the program does to the
    outside is write lines to the destinations. *)
Theorem hookless_programs_keep_the_logger_well_formed `{GoLib}
  (calls : list (Call arg)) (w : World) :
  Forall ordinary calls ->
  well_formed (foldl perform (New, w) calls) /\
  idle (fst (foldl perform (New, w) calls)) /\
  Forall (fun x => is_write x = true)
    (drop (length (effects w)) (effects (snd (foldl perform (New, w) calls)))).
Proof.
  intros Hord.
  assert (H0 : well_formed (New, w) /\ idle (fst (New, w)) /\
               exists effs, effects (snd (New, w)) = effects w ++ effs /\
                            Forall (fun x => is_write x = true) effs).
  { unfold well_formed, idle, balanced, pool_ok. cbn.
    split; [| split; [repeat split |]].
    - split; [reflexivity |]. split; [reflexivity |].
      split; [split; constructor |]. split; [lia | discriminate].
    - exists []. split; [now rewrite app_nil_r | constructor]. }
  assert (G : forall st,
             (well_formed st /\ idle (fst st) /\
              exists effs, effects (snd st) = effects w ++ effs /\
                           Forall (fun x => is_write x = true) effs) ->
             well_formed (foldl perform st calls) /\
             idle (fst (foldl perform st calls)) /\
             exists effs,
               effects (snd (foldl perform st calls)) = effects w ++ effs /\
               Forall (fun x => is_write x = true) effs).
  { induction Hord as [|c calls Hc _ IH]; intros st Hst; [exact Hst |].
    cbn [foldl]. apply IH.
    destruct Hst as (Hwf & Hi & effs & E & F).
    destruct (perform_well_formed st c Hwf Hi Hc) as (Hwf' & Hi' & effs' & E' & F').
    split; [exact Hwf' |]. split; [exact Hi' |].
    exists (effs ++ effs'). split; [now rewrite E', E, app_assoc |].
    now apply Forall_app. }
  destruct (G _ H0) as (Hwf & Hi & effs & E & F).
  split; [exact Hwf |]. split; [exact Hi |].
  rewrite E, drop_app_length. exact F.
Qed.

Lemma hookless_programs_keep_the_logger_well_formed_witness :
  let calls : list (Call arg) :=
    [CSetLevel DEBUG; CLog INFO "value=%d" [AInt 42]; CSetTimeFormat Kitchen;
     CLog DEBUG midMessage []; CSetOutputs []; CLog ERROR "later" []] in
  Forall ordinary calls /\
  (well_formed (foldl perform (New, world0) calls) /\
   idle (fst (foldl perform (New, world0) calls)) /\
   Forall (fun x => is_write x = true)
     (drop (length (effects world0))
        (effects (snd (foldl perform (New, world0) calls))))) /\
  length (effects (snd (foldl perform (New, world0) calls))) = 6%nat /\
  pool (fst (foldl perform (New, world0) calls)) = [0%nat].
Proof.
  cbv zeta.
  assert (Hord : Forall ordinary
            ([CSetLevel DEBUG; CLog INFO "value=%d" [AInt 42];
              CSetTimeFormat Kitchen; CLog DEBUG midMessage [];
              CSetOutputs []; CLog ERROR "later" []]
             : list (Call arg))).
  { repeat constructor; unfold INFO, DEBUG, ERROR, FATAL, PANIC; lia. }
  split; [exact Hord |].
  split; [exact (hookless_programs_keep_the_logger_well_formed _ world0 Hord) |].
  split; vm_compute; reflexivity.
Defined.
